(** * The client-side task-queue / agent-status coordinator

    A shallow embedding of the [AgentManager] and [BaseAgent] classes (and
    the four agent subclasses) of the dashboard's agents script, of the older
    copy of that script kept under [frontend/js/agents.js], of the two
    status-poll renderers, the task panel and the polling of the application
    controller, and of the real-time switch of the dashboard manager.

    JavaScript runs these classes on one thread: a macrotask (a timer
    callback, an interval callback, a call coming from the page) runs to
    completion, then the queued microtasks (continuations of [await] on an
    already settled promise) run, then the next macrotask starts.  The
    embedding follows that: the manager is a record, every macrotask is a
    function on it, and suspended [executeTask] calls are kept in the record
    as explicit continuations.  Of the code that only displays (DOM
    updates, notifications) the renderers named with their embedding are
    kept and the rest is left out. *)

From stdpp Require Import base decidable option list strings gmap pretty.
From Stdlib Require Import ZArith NArith Lia Ascii.

Local Open Scope string_scope.

(** ** JavaScript values that the coordinator inspects dynamically *)

Inductive jsval : Type :=
  | JUndefined
  | JString (s : string)
  | JNumber (z : Z).

#[global] Instance jsval_eq_dec : EqDecision jsval.
Proof. solve_decision. Defined.

(** Truthiness of [!v] and [v || w]. *)
Definition truthy (v : jsval) : bool :=
  match v with
  | JUndefined => false
  | JString s => negb (bool_decide (s = ""))
  | JNumber z => negb (bool_decide (z = 0%Z))
  end.

(** [v || w] *)
Definition js_or (v w : jsval) : jsval := if truthy v then v else w.

(** [v === w] *)
Definition strict_eq (v w : jsval) : bool := bool_decide (v = w).

(** Property read [v.p].  A string primitive has [length]; [status] and
    [progress] are neither own properties of a string nor found on
    [String.prototype], so reading them gives [undefined]. *)
Definition get_prop (v : jsval) (p : string) : jsval :=
  match v with
  | JString s =>
      if bool_decide (p = "length") then JNumber (Z.of_nat (String.length s))
      else JUndefined
  | _ => JUndefined
  end.

(** A value interpolated in a template literal: a missing property prints as
    the word undefined. *)
Definition interpolate (o : option string) : string :=
  match o with
  | Some s => s
  | None => "undefined"
  end.

(** ** Tasks *)

(** Task objects are shared between the pending queue, the active map and
    the agent that runs them, and are mutated in place; they live in a heap
    and are referred to by their address. *)
Definition ref := nat.

Record Task : Type := mkTask {
  task_id : string;
  task_name : string;
  task_type : string;
  (** other top-level properties of the literal ([priority], [input_file], ...) *)
  task_props : list (string * string);
  (** the [parameters] bag *)
  task_parameters : list (string * string);
  task_progress : jsval;
  task_status : jsval
}.

Fixpoint assoc (k : string) (l : list (string * string)) : option string :=
  match l with
  | [] => None
  | (k', v) :: l' => if bool_decide (k' = k) then Some v else assoc k l'
  end.

Definition set_task_progress (v : jsval) (t : Task) : Task :=
  mkTask (task_id t) (task_name t) (task_type t) (task_props t)
         (task_parameters t) v (task_status t).

Definition set_task_status (v : jsval) (t : Task) : Task :=
  mkTask (task_id t) (task_name t) (task_type t) (task_props t)
         (task_parameters t) (task_progress t) v.

(** The object literal a caller hands to [addTask]. *)
Record TaskLiteral : Type := mkLit {
  lit_name : string;
  lit_type : string;
  lit_props : list (string * string);
  lit_parameters : list (string * string)
}.

(** ** Agents *)

Inductive AgentKind : Type :=
  | KBase | KData | KAnalysis | KVisualization | KReport.

#[global] Instance AgentKind_eq_dec : EqDecision AgentKind.
Proof. solve_decision. Defined.

Record LogEntry : Type := mkLog {
  timestamp : N;
  message : string;
  level : string
}.

Record Agent : Type := mkAgent {
  kind : AgentKind;
  agent_name : string;
  capabilities : list string;
  status : string;
  currentTask : option ref;
  progress : Z;
  logs : list LogEntry
}.

Definition set_status (s : string) (a : Agent) : Agent :=
  mkAgent (kind a) (agent_name a) (capabilities a) s (currentTask a)
          (progress a) (logs a).

Definition set_currentTask (c : option ref) (a : Agent) : Agent :=
  mkAgent (kind a) (agent_name a) (capabilities a) (status a) c
          (progress a) (logs a).

Definition set_progress (p : Z) (a : Agent) : Agent :=
  mkAgent (kind a) (agent_name a) (capabilities a) (status a) (currentTask a)
          p (logs a).

(** [log(message, level = 'info')]: append to [this.logs]. *)
Definition log (now : N) (msg lvl : string) (a : Agent) : Agent :=
  mkAgent (kind a) (agent_name a) (capabilities a) (status a) (currentTask a)
          (progress a) (logs a ++ [mkLog now msg lvl]).

(** [new BaseAgent(name, capabilities)] *)
Definition BaseAgent (nm : string) (caps : list string) : Agent :=
  mkAgent KBase nm caps "offline" None 0 [].

Definition subclass (k : AgentKind) (st : string) (a : Agent) : Agent :=
  mkAgent k (agent_name a) (capabilities a) st (currentTask a) (progress a)
          (logs a).

Definition DataAgent : Agent :=
  subclass KData "online"
    (BaseAgent "DataAgent" ["data_processing"; "data_cleaning"; "data_validation"]).

Definition AnalysisAgent : Agent :=
  subclass KAnalysis "online"
    (BaseAgent "AnalysisAgent" ["analysis"; "statistical_analysis"; "trend_analysis"]).

Definition VisualizationAgent : Agent :=
  subclass KVisualization "online"
    (BaseAgent "VisualizationAgent" ["visualization"; "chart_generation"; "dashboard_update"]).

Definition ReportAgent : Agent :=
  subclass KReport "offline"
    (BaseAgent "ReportAgent" ["report_generation"; "document_creation"; "export"]).

(** [getStatus()] *)
Definition getStatus (a : Agent) : string := status a.

(** [capabilities.includes(x)] *)
Definition includes (x : string) (l : list string) : bool :=
  existsb (fun y => bool_decide (y = x)) l.

(** [canHandleTask(task)] *)
Definition canHandleTask (a : Agent) (t : Task) : bool :=
  includes (task_type t) (capabilities a) && bool_decide (status a = "online").

(** *** The simulated work of each subclass *)

(** The task type for which [performTask] runs the progress loop. *)
Definition main_type (k : AgentKind) : option string :=
  match k with
  | KBase => None
  | KData => Some "data_processing"
  | KAnalysis => Some "analysis"
  | KVisualization => Some "visualization"
  | KReport => Some "report_generation"
  end.

(** The increment of [for (let i = 0; i <= 100; i += ...)]. *)
Definition step_size (k : AgentKind) : Z :=
  match k with
  | KData => 20
  | KAnalysis => 15
  | KVisualization => 20
  | KReport => 25
  | KBase => 0
  end.

(** The argument of [this.delay(...)], in milliseconds. *)
Definition step_delay (k : AgentKind) : N :=
  match k with
  | KData => 500
  | KAnalysis => 800
  | KVisualization => 600
  | KReport => 1000
  | KBase => 0
  end.

Definition step_message (k : AgentKind) (t : Task) (i : Z) : string :=
  match k with
  | KData =>
      "Processing " ++ interpolate (assoc "dataset_type" (task_props t))
        ++ " data... " ++ pretty i ++ "%"
  | KAnalysis => "Analyzing data... " ++ pretty i ++ "%"
  | KVisualization => "Creating visualizations... " ++ pretty i ++ "%"
  | KReport => "Generating report... " ++ pretty i ++ "%"
  | KBase => ""
  end.

(** Where a running [executeTask] is suspended. *)
Inductive Susp : Type :=
  | SLoop (i : Z)
      (** at [await this.delay(..)] in the loop, with loop counter [i] *)
  | SSettled (err : option string)
      (** [performTask]'s promise is settled ([None]: fulfilled, [Some msg]:
          rejected with that message); the rest of [executeTask] is a queued
          microtask *).

(** What the statement after a [delay], [this.log(..)] of the step, does when
    the timer fires: it runs, or it throws an error with the given message.
    [log] pushes its entry before it updates the page, so a step that throws
    has logged its entry all the same. *)
Inductive Outcome : Type :=
  | Normal
  | Throws (msg : string).

(** [performTask(task)] up to its first suspension. *)
Definition performTask_begin (now : N) (a : Agent) (t : Task) : Agent * Susp :=
  match kind a with
  | KBase => (a, SSettled (Some "performTask not implemented"))
  | k =>
      if bool_decide (Some (task_type t) = main_type k) then
        let a1 :=
          match k with
          | KData =>
              set_status "processing"
                (log now ("Processing data from "
                            ++ interpolate (assoc "input_file" (task_props t)))
                     "info" a)
          | _ => a
          end in
        (set_progress 0 a1, SLoop 0)
      else (a, SSettled None)
  end.

(** [executeTask(task)] up to its first suspension. *)
Definition executeTask_begin (now : N) (a : Agent) (r : ref) (t : Task)
  : Agent * Susp :=
  let a1 := set_status "busy" a in
  let a2 := set_currentTask (Some r) a1 in
  let a3 := set_progress 0 a2 in
  let a4 := log now ("Starting task: " ++ task_name t) "info" a3 in
  performTask_begin now a4 t.

(** The loop of the subclass resumed after [await this.delay(..)] with loop
    counter [i], up to the next suspension.  [DataAgent.processData] wraps its
    loop in its own try/catch; the other subclasses let the error escape. *)
Definition loop_resume (now : N) (a : Agent) (t : Task) (i : Z) (o : Outcome)
  : Agent * Susp :=
  match o with
  | Throws msg =>
      let a1 := log now (step_message (kind a) t i) "info" a in
      match kind a with
      | KData =>
          (set_status "error" (log now ("Error processing data: " ++ msg) "info" a1),
           SSettled None)
      | _ => (a1, SSettled (Some msg))
      end
  | Normal =>
      let a1 := log now (step_message (kind a) t i) "info" a in
      let i' := (i + step_size (kind a))%Z in
      if (i' <=? 100)%Z then (set_progress i' a1, SLoop i')
      else
        match kind a with
        | KData =>
            (set_status "online"
               (log now ("Data processing complete. Output saved to "
                           ++ interpolate (assoc "output_file" (task_props t)))
                    "info" a1),
             SSettled None)
        | _ => (a1, SSettled None)
        end
  end.

(** The rest of [executeTask] once [await this.performTask(task)] settles:
    the end of the [try] block or the [catch] block, then
    [this.currentTask = null]. *)
Definition executeTask_finish (now : N) (a : Agent) (t : Task)
    (err : option string) : Agent :=
  let a1 :=
    match err with
    | None =>
        set_progress 100
          (set_status "online"
             (log now ("Completed task: " ++ task_name t) "info" a))
    | Some msg =>
        set_progress 0
          (set_status "online"
             (log now ("Failed task: " ++ task_name t ++ " - " ++ msg) "error" a))
    end in
  set_currentTask None a1.

(** ** The manager *)

(** The keys of [this.agents], in the order of the object literal of the
    constructor; the [agentStatus] map is filled in that order by [init] and
    keeps it. *)
Inductive AgentId : Type := data | analysis | visualization | report.

#[global] Instance AgentId_eq_dec : EqDecision AgentId.
Proof. solve_decision. Defined.

Definition agentIds : list AgentId := [data; analysis; visualization; report].

(** One value per key. *)
Record PerAgent (A : Type) : Type := mkPer {
  of_data : A;
  of_analysis : A;
  of_visualization : A;
  of_report : A
}.
Arguments mkPer {A} _ _ _ _.
Arguments of_data {A} _.
Arguments of_analysis {A} _.
Arguments of_visualization {A} _.
Arguments of_report {A} _.

Definition get {A} (p : PerAgent A) (k : AgentId) : A :=
  match k with
  | data => of_data p
  | analysis => of_analysis p
  | visualization => of_visualization p
  | report => of_report p
  end.

Definition put {A} (k : AgentId) (x : A) (p : PerAgent A) : PerAgent A :=
  match k with
  | data => mkPer x (of_analysis p) (of_visualization p) (of_report p)
  | analysis => mkPer (of_data p) x (of_visualization p) (of_report p)
  | visualization => mkPer (of_data p) (of_analysis p) x (of_report p)
  | report => mkPer (of_data p) (of_analysis p) (of_visualization p) x
  end.

Definition per_map {A B} (f : A -> B) (p : PerAgent A) : PerAgent B :=
  mkPer (f (of_data p)) (f (of_analysis p)) (f (of_visualization p))
        (f (of_report p)).

(** An entry of [activeTasks]. *)
Record ActiveInfo : Type := mkActive {
  ai_agentId : AgentId;
  ai_task : ref;
  ai_startTime : N
}.

(** An interval started by [trackTaskProgress], with the variables its
    callback closes over. *)
Record Watcher : Type := mkWatcher {
  w_handle : nat;
  w_taskId : string;
  w_agentId : AgentId
}.

(** A suspended [executeTask] call of an agent of the manager. *)
Record Coroutine : Type := mkCo {
  co_agent : AgentId;
  co_task : ref;
  co_susp : Susp
}.

Record AgentManager : Type := mkManager {
  agents : PerAgent Agent;
  taskQueue : list ref;
  activeTasks : gmap string ActiveInfo;
  agentStatus : PerAgent string;
  (** the task objects *)
  heap : list Task;
  (** the running intervals of [trackTaskProgress] *)
  watchers : list Watcher;
  nextHandle : nat;
  (** the suspended [executeTask] calls *)
  pending : list Coroutine
}.

Definition with_agents (x : PerAgent Agent) (m : AgentManager) : AgentManager :=
  mkManager x (taskQueue m) (activeTasks m) (agentStatus m) (heap m)
            (watchers m) (nextHandle m) (pending m).

Definition with_taskQueue (x : list ref) (m : AgentManager) : AgentManager :=
  mkManager (agents m) x (activeTasks m) (agentStatus m) (heap m)
            (watchers m) (nextHandle m) (pending m).

Definition with_activeTasks (x : gmap string ActiveInfo) (m : AgentManager)
  : AgentManager :=
  mkManager (agents m) (taskQueue m) x (agentStatus m) (heap m)
            (watchers m) (nextHandle m) (pending m).

Definition with_agentStatus (x : PerAgent string) (m : AgentManager)
  : AgentManager :=
  mkManager (agents m) (taskQueue m) (activeTasks m) x (heap m)
            (watchers m) (nextHandle m) (pending m).

Definition with_heap (x : list Task) (m : AgentManager) : AgentManager :=
  mkManager (agents m) (taskQueue m) (activeTasks m) (agentStatus m) x
            (watchers m) (nextHandle m) (pending m).

Definition with_watchers (x : list Watcher) (n : nat) (m : AgentManager)
  : AgentManager :=
  mkManager (agents m) (taskQueue m) (activeTasks m) (agentStatus m) (heap m)
            x n (pending m).

Definition with_pending (x : list Coroutine) (m : AgentManager) : AgentManager :=
  mkManager (agents m) (taskQueue m) (activeTasks m) (agentStatus m) (heap m)
            (watchers m) (nextHandle m) x.

(** The object a reference points to.  Every reference held by the manager
    was returned by an allocation, so the default is never read. *)
Definition no_task : Task := mkTask "" "" "" [] [] JUndefined JUndefined.

Definition deref (h : list Task) (r : ref) : Task := default no_task (h !! r).

(** In-place update of the object at [r]. *)
Definition modify (f : Task -> Task) (r : ref) (h : list Task) : list Task :=
  match h !! r with
  | Some t => <[r := f t]> h
  | None => h
  end.

(** [updateAgentStatuses()]: mirror every agent's status into [agentStatus]. *)
Definition updateAgentStatuses (m : AgentManager) : AgentManager :=
  with_agentStatus (per_map getStatus (agents m)) m.

(** The entries of [agentStatus] whose value is ['online'], in map order. *)
Definition availableAgents (m : AgentManager) : list AgentId :=
  filter (fun k => get (agentStatus m) k = "online") agentIds.

(** [Math.floor(Math.random() * n)], for a draw [Math.random() = (u mod 2^53) / 2^53]
    (rounding of the product is not modelled). *)
Definition floor_random (u : N) (n : nat) : nat :=
  N.to_nat ((u mod 2 ^ 53) * N.of_nat n / 2 ^ 53).

(** [selectBestAgent(task, availableAgents)] *)
Definition selectBestAgent (available : list AgentId) (u : N) : option AgentId :=
  available !! floor_random u (length available).

(** [trackTaskProgress(taskId, agentId)]: [this.agents[agentId]] exists for
    every key, so the interval is always started. *)
Definition trackTaskProgress (taskId : string) (agentId : AgentId)
    (m : AgentManager) : AgentManager :=
  with_watchers (watchers m ++ [mkWatcher (nextHandle m) taskId agentId])
                (S (nextHandle m)) m.

(** [assignTask(agentId, task)] *)
Definition assignTask (now : N) (agentId : AgentId) (r : ref) (m : AgentManager)
  : AgentManager :=
  let agent := get (agents m) agentId in
  let task := deref (heap m) r in
  if canHandleTask agent task then
    let m1 :=
      with_activeTasks
        (<[task_id task := mkActive agentId r now]> (activeTasks m)) m in
    let '(agent', s) := executeTask_begin now agent r task in
    let m2 := with_agents (put agentId agent' (agents m1)) m1 in
    let m3 := with_pending (pending m2 ++ [mkCo agentId r s]) m2 in
    trackTaskProgress (task_id task) agentId m3
  else m.

(** [processTaskQueue()]; [u] is the draw of [Math.random()] in
    [selectBestAgent]. *)
Definition processTaskQueue (now : N) (u : N) (m : AgentManager) : AgentManager :=
  match taskQueue m with
  | [] => m
  | r :: rest =>
      match availableAgents m with
      | [] => m
      | available =>
          let m1 := with_taskQueue rest m in
          match selectBestAgent available u with
          | Some agentId => assignTask now agentId r m1
          | None => m1
          end
      end
  end.

(** [generateTaskId()]: ['task_' + Date.now() + '_' + suffix], where [suffix]
    stands for [Math.random().toString(36).substr(2, 9)]. *)
Definition generateTaskId (now : N) (suffix : string) : string :=
  "task_" ++ pretty now ++ "_" ++ suffix.

(** The caller's fresh object literal once [task.id] has been assigned. *)
Definition new_task (l : TaskLiteral) (tid : string) : Task :=
  mkTask tid (lit_name l) (lit_type l) (lit_props l) (lit_parameters l)
         JUndefined JUndefined.

(** [addTask(task)], for a task literal built by the caller for this call (as
    at every call site: [initializeTaskQueue], [startAgentWorkflow],
    [uploadCSV]). *)
Definition addTask (now : N) (l : TaskLiteral) (suffix : string) (u : N)
    (m : AgentManager) : AgentManager :=
  let r := length (heap m) in
  let task := new_task l (generateTaskId now suffix) in
  let m1 := with_heap (heap m ++ [task]) m in
  let m2 := with_taskQueue (taskQueue m1 ++ [r]) m1 in
  processTaskQueue now u m2.

(** [clearInterval(interval)] inside the callback of a watcher. *)
Definition clearInterval (h : nat) (m : AgentManager) : AgentManager :=
  with_watchers (filter (fun w => w_handle w <> h) (watchers m)) (nextHandle m) m.

(** One run of the interval callback of [trackTaskProgress]. *)
Definition watcher_tick (w : Watcher) (m : AgentManager) : AgentManager :=
  let statusInfo := JString (get (agentStatus m) (w_agentId w)) in
  match activeTasks m !! w_taskId w with
  | None => clearInterval (w_handle w) m
  | Some taskInfo =>
      if negb (truthy statusInfo) then clearInterval (w_handle w) m
      else
        let m1 :=
          with_heap
            (modify (set_task_progress
                       (js_or (get_prop statusInfo "progress") (JNumber 0)))
                    (ai_task taskInfo) (heap m)) m in
        if strict_eq (get_prop statusInfo "status") (JString "idle")
           || strict_eq (get_prop statusInfo "progress") (JNumber 100)
        then
          let m2 := clearInterval (w_handle w) m1 in
          let m3 := with_activeTasks (delete (w_taskId w) (activeTasks m2)) m2 in
          with_heap
            (modify (set_task_status (JString "Completed"))
                    (ai_task taskInfo) (heap m3)) m3
        else m1
  end.

(** [DataAgent.handleFileUpload]: what the continuation after the upload does
    to the agent. *)
Inductive UploadResult : Type :=
  | UploadSuccess (file : string)
  | UploadError (file msg : string)
  | UploadException (msg : string).

Definition handleFileUpload_done (now : N) (res : UploadResult) (a : Agent)
  : Agent :=
  match res with
  | UploadSuccess file =>
      set_status "processing"
        (log now ("Successfully processed " ++ file) "info" a)
  | UploadError file msg =>
      log now ("Error processing " ++ file ++ ": " ++ msg) "info" a
  | UploadException msg =>
      log now ("Error uploading file: " ++ msg) "info" a
  end.

(** ** The event loop *)

(** The rest of [executeTask] for a coroutine whose [await] has settled. *)
Definition finish_co (now : N) (m : AgentManager) (c : Coroutine) : AgentManager :=
  match co_susp c with
  | SSettled err =>
      let a := get (agents m) (co_agent c) in
      let t := deref (heap m) (co_task c) in
      with_agents (put (co_agent c) (executeTask_finish now a t err) (agents m)) m
  | SLoop _ => m
  end.

Definition waits_for_timer (c : Coroutine) : bool :=
  match co_susp c with
  | SLoop _ => true
  | SSettled _ => false
  end.

(** The microtasks queued during a macrotask, run in order when it ends. *)
Definition run_microtasks (now : N) (m : AgentManager) : AgentManager :=
  with_pending (filter (fun c => waits_for_timer c = true) (pending m))
               (foldl (finish_co now) m (pending m)).

(** The timer of [this.delay(..)] of the [k]-th suspended call fires. *)
Definition timer_fires (now : N) (k : nat) (o : Outcome) (m : AgentManager)
  : AgentManager :=
  match pending m !! k with
  | Some (mkCo agentId r (SLoop i)) =>
      let a := get (agents m) agentId in
      let '(a', s) := loop_resume now a (deref (heap m) r) i o in
      with_pending (<[k := mkCo agentId r s]> (pending m))
                   (with_agents (put agentId a' (agents m)) m)
  | _ => m
  end.

(** Several [addTask] calls made in a row by one caller. *)
Fixpoint addTasks (now : N) (calls : list (TaskLiteral * string * N))
    (m : AgentManager) : AgentManager :=
  match calls with
  | [] => m
  | (l, suffix, u) :: calls' => addTasks now calls' (addTask now l suffix u m)
  end.

Inductive Event : Type :=
  | EvAddTasks (now : N) (calls : list (TaskLiteral * string * N))
      (** a caller adds one or several tasks *)
  | EvMonitor (now : N) (u : N)
      (** the interval of [startAgentMonitoring] *)
  | EvWatcher (now : N) (h : nat)
      (** the interval of [trackTaskProgress] with handle [h] *)
  | EvTimer (now : N) (k : nat) (o : Outcome)
      (** a [delay] timer of a suspended [executeTask] *)
  | EvRefresh (now : N)
      (** [refreshDashboard()] *)
  | EvUpload (now : N) (res : UploadResult)
      (** the upload started by [DataAgent.handleFileUpload] has ended *).

Definition event_time (ev : Event) : N :=
  match ev with
  | EvAddTasks now _ | EvMonitor now _ | EvWatcher now _ | EvTimer now _ _
  | EvRefresh now | EvUpload now _ => now
  end.

(** The synchronous part of a macrotask. *)
Definition handle (ev : Event) (m : AgentManager) : AgentManager :=
  match ev with
  | EvAddTasks now calls => addTasks now calls m
  | EvMonitor now u => processTaskQueue now u (updateAgentStatuses m)
  | EvWatcher now h =>
      match find (fun w => bool_decide (w_handle w = h)) (watchers m) with
      | Some w => watcher_tick w m
      | None => m
      end
  | EvTimer now k o => timer_fires now k o m
  | EvRefresh now => updateAgentStatuses m
  | EvUpload now res =>
      with_agents
        (put data (handleFileUpload_done now res (get (agents m) data)) (agents m)) m
  end.

(** A macrotask followed by its microtasks. *)
Definition step (m : AgentManager) (ev : Event) : AgentManager :=
  run_microtasks (event_time ev) (handle ev m).

Definition run (m : AgentManager) (evs : list Event) : AgentManager :=
  foldl step m evs.

(** The manager after the field initialisers of the constructor and the
    status loop of [init()]. *)
Definition init_manager : AgentManager :=
  mkManager (mkPer DataAgent AnalysisAgent VisualizationAgent ReportAgent)
            [] ∅ (mkPer "offline" "offline" "offline" "offline") [] [] 0 [].

Definition lit (nm ty prio : string) : TaskLiteral :=
  mkLit nm ty [("priority", prio)] [].

(** The three [addTask] calls of [initializeTaskQueue()]; the arguments are
    the id suffixes and the draws of [Math.random()]. *)
Definition initializeTaskQueue (s1 s2 s3 : string) (u1 u2 u3 : N)
  : list (TaskLiteral * string * N) :=
  [ (lit "Process Thesis Data" "data_processing" "high", s1, u1);
    (lit "Generate Visualizations" "visualization" "medium", s2, u2);
    (lit "Create Analysis Report" "report_generation" "low", s3, u3) ].


(** The literal that [uploadCSV] passes to [addTask] for a file. *)
Definition uploadCSV_task (file : string) : TaskLiteral :=
  mkLit ("Upload: " ++ file) "data_processing" [] [("filename", file)].

(** [new AgentManager()] at time [now]. *)
Definition AgentManager_new (now : N) (s1 s2 s3 : string) (u1 u2 u3 : N)
  : AgentManager :=
  step init_manager (EvAddTasks now (initializeTaskQueue s1 s2 s3 u1 u2 u3)).

(** The states the manager can be in between two macrotasks. *)
Inductive reachable : AgentManager -> Prop :=
  | reach_new now s1 s2 s3 u1 u2 u3 :
      reachable (AgentManager_new now s1 s2 s3 u1 u2 u3)
  | reach_step m ev : reachable m -> reachable (step m ev).

(** ** The structural invariant of the manager *)

(** [sound true m] holds of every state the synchronous code can observe;
    [sound false m] is what is left of it between the moment a timer callback
    has let a call settle and the microtask that ends that call. *)
Record sound (strict : bool) (m : AgentManager) : Prop := mkSound {
  queue_alloc : forall r, r ∈ taskQueue m -> r < length (heap m);
  active_alloc : forall id ai,
    activeTasks m !! id = Some ai -> ai_task ai < length (heap m);
  pending_alloc : forall c, c ∈ pending m -> co_task c < length (heap m);
  queue_nodup : NoDup (taskQueue m);
  queue_not_active : forall id ai,
    activeTasks m !! id = Some ai -> ai_task ai ∉ taskQueue m;
  queue_not_pending : forall c, c ∈ pending m -> co_task c ∉ taskQueue m;
  pending_nodup : NoDup (co_agent <$> pending m);
  pending_busy : forall c, c ∈ pending m ->
    strict || waits_for_timer c = true ->
    status (get (agents m) (co_agent c)) <> "online";
  pending_current : forall c, c ∈ pending m ->
    currentTask (get (agents m) (co_agent c)) = Some (co_task c);
  idle_current : forall a, (forall c, c ∈ pending m -> co_agent c <> a) ->
    currentTask (get (agents m) a) = None;
  agents_fixed : forall a,
    kind (get (agents m) a) = kind (get (agents init_manager) a)
    /\ capabilities (get (agents m) a) = capabilities (get (agents init_manager) a);
  report_offline : status (get (agents m) report) = "offline";
  report_no_co : forall c, c ∈ pending m -> co_agent c <> report;
  active_owner : forall id ai, activeTasks m !! id = Some ai ->
    ai_agentId ai <> report
    /\ task_type (deref (heap m) (ai_task ai))
         ∈ capabilities (get (agents init_manager) (ai_agentId ai))
}.

(** A task object that is allocated but is neither pending, nor active, nor
    being executed. *)
Record limbo (r : ref) (m : AgentManager) : Prop := mkLimbo {
  limbo_alloc : r < length (heap m);
  limbo_queue : r ∉ taskQueue m;
  limbo_active : forall id ai, activeTasks m !! id = Some ai -> ai_task ai <> r;
  limbo_pending : forall c, c ∈ pending m -> co_task c <> r;
  limbo_current : forall a, currentTask (get (agents m) a) <> Some r
}.

(** ** What can happen after a given state *)

(** [later m m']: the manager gets from [m] to [m'] by running handlers of
    macrotasks and microtask phases, in any number and order. *)
Inductive later (m : AgentManager) : AgentManager -> Prop :=
  | later_now : later m m
  | later_handle m' ev : later m m' -> later m (handle ev m')
  | later_microtasks m' now : later m m' -> later m (run_microtasks now m').

(** ** Task ids *)

(** The ids of the pending tasks, in queue order. *)
Definition pending_ids (m : AgentManager) : list string :=
  (fun r => task_id (deref (heap m) r)) <$> taskQueue m.

(** The ids that [generateTaskId] returns during a macrotask, and during a
    sequence of macrotasks. *)
Definition call_ids (now : N) (calls : list (TaskLiteral * string * N))
  : list string :=
  (fun c => generateTaskId now (snd (fst c))) <$> calls.

Definition event_ids (ev : Event) : list string :=
  match ev with
  | EvAddTasks now calls => call_ids now calls
  | _ => []
  end.

Definition run_ids (evs : list Event) : list string :=
  concat (event_ids <$> evs).

(** Pending ids are pairwise different, none of them is a key of the active
    map, and all ids in use are among the ids [G] generated so far. *)
Record ids_ok (G : list string) (m : AgentManager) : Prop := mkIdsOk {
  ids_nodup : NoDup (pending_ids m);
  ids_not_active : forall id, id ∈ pending_ids m -> activeTasks m !! id = None;
  ids_pending_known : forall id, id ∈ pending_ids m -> id ∈ G;
  ids_active_known : forall id, is_Some (activeTasks m !! id) -> id ∈ G
}.

(** ** The older copy of the script, [frontend/js/agents.js]

    It has the same classes.  Its [DataAgent] has no upload form and starts
    the same plain loop as the other agents; its [assignTask] starts no
    progress watcher; its [addTask] only assigns the id and appends.  Only
    enqueueing and dispatching are embedded. *)
Module Legacy.

(** [performTask(task)] up to its first suspension. *)
Definition performTask_begin (a : Agent) (t : Task) : Agent * Susp :=
  match kind a with
  | KBase => (a, SSettled (Some "performTask not implemented"))
  | k =>
      if bool_decide (Some (task_type t) = main_type k)
      then (set_progress 0 a, SLoop 0)
      else (a, SSettled None)
  end.

(** [executeTask(task)] up to its first suspension. *)
Definition executeTask_begin (now : N) (a : Agent) (r : ref) (t : Task)
  : Agent * Susp :=
  let a1 := set_status "busy" a in
  let a2 := set_currentTask (Some r) a1 in
  let a3 := set_progress 0 a2 in
  let a4 := log now ("Starting task: " ++ task_name t) "info" a3 in
  performTask_begin a4 t.

(** [assignTask(agentId, task)] *)
Definition assignTask (now : N) (agentId : AgentId) (r : ref) (m : AgentManager)
  : AgentManager :=
  let agent := get (agents m) agentId in
  let task := deref (heap m) r in
  if canHandleTask agent task then
    let m1 :=
      with_activeTasks
        (<[task_id task := mkActive agentId r now]> (activeTasks m)) m in
    let '(agent', s) := executeTask_begin now agent r task in
    let m2 := with_agents (put agentId agent' (agents m1)) m1 in
    with_pending (pending m2 ++ [mkCo agentId r s]) m2
  else m.

(** [processTaskQueue()] *)
Definition processTaskQueue (now : N) (u : N) (m : AgentManager) : AgentManager :=
  match taskQueue m with
  | [] => m
  | r :: rest =>
      match availableAgents m with
      | [] => m
      | available =>
          let m1 := with_taskQueue rest m in
          match selectBestAgent available u with
          | Some agentId => assignTask now agentId r m1
          | None => m1
          end
      end
  end.

(** [addTask(task)] *)
Definition addTask (now : N) (l : TaskLiteral) (suffix : string)
    (m : AgentManager) : AgentManager :=
  let r := length (heap m) in
  let task := new_task l (generateTaskId now suffix) in
  let m1 := with_heap (heap m ++ [task]) m in
  with_taskQueue (taskQueue m1 ++ [r]) m1.

Fixpoint addTasks (now : N) (calls : list (TaskLiteral * string))
    (m : AgentManager) : AgentManager :=
  match calls with
  | [] => m
  | (l, suffix) :: calls' => addTasks now calls' (addTask now l suffix m)
  end.

(** [new AgentManager()]: the three tasks of [initializeTaskQueue()] are
    queued; nothing else happens before the first tick. *)
Definition AgentManager_new (now : N) (s1 s2 s3 : string) : AgentManager :=
  addTasks now
    [ (lit "Process Thesis Data" "data_processing" "high", s1);
      (lit "Generate Visualizations" "visualization" "medium", s2);
      (lit "Create Analysis Report" "report_generation" "low", s3) ]
    init_manager.

(** The callback of the interval of [startAgentMonitoring]; the first
    suspension of a call is always at a [delay], or there is none and the
    call ends in the microtask that follows. *)
Definition monitor_tick (now : N) (u : N) (m : AgentManager) : AgentManager :=
  run_microtasks now (processTaskQueue now u (updateAgentStatuses m)).

End Legacy.

(** ** The status poll of the analysis view

    [loadAnalysisProgress] fetches the agent progress and the task list and
    hands them to renderers that write the [innerHTML] of fixed elements of
    the page.  The two renderers of the task list and of the logs are
    embedded; the markup they produce is kept as a tree of elements. *)

(** The string functions of the platform that the renderers call. *)
Class Platform : Type := {
  toLowerCase : string -> string;
  toUpperCase : string -> string;
  (** [new Date(t).toLocaleTimeString()] *)
  toLocaleTimeString : string -> string
}.

#[local] Unset Elimination Schemes.
Inductive html : Type :=
  | Text (s : string)
  | Element (tag cls : string) (children : list html).
#[local] Set Elimination Schemes.

(** The number of [li] elements of a piece of markup. *)
Fixpoint count_li (h : html) : nat :=
  match h with
  | Text _ => 0
  | Element tag _ children =>
      (if bool_decide (tag = "li") then 1 else 0)
      + list_sum (map count_li children)
  end.

Definition rows (content : option (list html)) : nat :=
  match content with
  | Some hs => list_sum (map count_li hs)
  | None => 0
  end.

(** The two elements that the renderers look up with [getElementById], each
    with its current content, or [None] when the page has no such element. *)
Record Display : Type := mkDisplay {
  analysisTaskList : option (list html);
  analysisLogs : option (list html)
}.

(** A task of the [/api/tasks] response. *)
Record ServerTask : Type := mkServerTask {
  st_type : option string;
  st_id : option string;
  st_parameters : option (list (string * string))
}.

(** The [/api/tasks] response. *)
Record TaskData : Type := mkTaskData {
  td_active : option (list ServerTask);
  td_queued : option (list ServerTask);
  td_completed : option (list ServerTask)
}.

(** An entry of [recent_logs]. *)
Record LogItem : Type := mkLogItem {
  li_timestamp : string;
  li_level : option string;
  li_message : string
}.

(** The part of the [/api/agents/analysis/progress] response that the log
    renderer receives. *)
Record AgentData : Type := mkAgentData {
  recent_logs : option (list LogItem)
}.

(** [a || b] on values that are strings or missing. *)
Definition or_string (a b : option string) : option string :=
  match a with
  | Some s => if bool_decide (s = "") then b else a
  | None => b
  end.

(** [task.parameters?.key] *)
Definition parameter (t : ServerTask) (key : string) : option string :=
  match st_parameters t with
  | Some ps => assoc key ps
  | None => None
  end.

(** [['statistical_analysis', 'chart_generation'].includes(task.type)] *)
Definition is_analysis_task (t : ServerTask) : bool :=
  match st_type t with
  | Some ty => includes ty ["statistical_analysis"; "chart_generation"]
  | None => false
  end.

(** [l.slice(-n)] *)
Definition slice_last {A} (n : nat) (l : list A) : list A :=
  drop (length l - n) l.

(** The local function [renderTask] of [renderAnalysisTaskList]. *)
Definition renderTask (t : ServerTask) (statusLabel badgeClass : string) : html :=
  let datasetLabel :=
    match or_string (parameter t "dataset_type") None with
    | Some ds => [Element "span" "badge bg-secondary ms-2" [Text ds]]
    | None => []
    end in
  let description :=
    or_string (parameter t "cleaned_file")
      (or_string (parameter t "input_file") (st_id t)) in
  Element "li"
    "list-group-item bg-dark d-flex justify-content-between align-items-start"
    [ Element "div" "me-3"
        [ Element "div" ""
            (Element "strong" "" [Text (interpolate (st_type t))] :: datasetLabel);
          Element "small" "text-muted" [Text (interpolate description)] ];
      Element "span" ("badge " ++ badgeClass) [Text statusLabel] ].

Definition activeShown (td : TaskData) : list ServerTask :=
  filter (fun t => is_analysis_task t = true) (default [] (td_active td)).

Definition queuedShown (td : TaskData) : list ServerTask :=
  take 5 (filter (fun t => is_analysis_task t = true) (default [] (td_queued td))).

Definition completedShown (td : TaskData) : list ServerTask :=
  reverse (slice_last 5
    (filter (fun t => is_analysis_task t = true) (default [] (td_completed td)))).

(** The markup that [renderAnalysisTaskList] assigns to [innerHTML]. *)
Definition taskListMarkup (taskData : option TaskData) : list html :=
  match taskData with
  | None => [Element "p" "text-warning mb-0" [Text "Unable to load task queue."]]
  | Some td =>
      let section (ts : list ServerTask) (heading : list html) (ulClass : string)
                  (statusLabel badgeClass : string) : list html :=
        match ts with
        | [] => []
        | _ =>
            (heading ++
             [Element "ul" ulClass
                (map (fun t => renderTask t statusLabel badgeClass) ts)])%list
        end in
      let sections :=
        (section (activeShown td) [Element "h6" "text-info" [Text "Active"]]
           "list-group list-group-flush mb-3" "In Progress" "bg-info"
         ++ section (queuedShown td) [Element "h6" "text-warning" [Text "Queued"]]
              "list-group list-group-flush mb-3" "Queued" "bg-warning text-dark"
         ++ section (completedShown td)
              [Element "h6" "text-success" [Text "Recently Completed"]]
              "list-group list-group-flush" "Done" "bg-success")%list in
      match sections with
      | [] => [Element "p" "text-muted mb-0" [Text "No analysis tasks at the moment."]]
      | _ => sections
      end
  end.

(** [renderAnalysisTaskList(taskData)] *)
Definition renderAnalysisTaskList (taskData : option TaskData) (d : Display)
  : Display :=
  match analysisTaskList d with
  | None => d
  | Some _ => mkDisplay (Some (taskListMarkup taskData)) (analysisLogs d)
  end.

Section Logs.
Context `{Platform}.

(** The local function [levelClass] of [renderAnalysisLogs]. *)
Definition levelClass (level : option string) : string :=
  let l := toLowerCase (default "info" (or_string level (Some "info"))) in
  if bool_decide (l = "error") then "text-danger"
  else if bool_decide (l = "warning") then "text-warning"
  else if bool_decide (l = "success") then "text-success"
  else "text-info".

Definition logsShown (logs : list LogItem) : list LogItem :=
  reverse (slice_last 10 logs).

(** The list item that [renderAnalysisLogs] builds for a log entry. *)
Definition renderLog (l : LogItem) : html :=
  Element "li" "mb-2"
    [ Element "div" "d-flex justify-content-between"
        [ Element "small" "text-muted"
            [Text (toLocaleTimeString (li_timestamp l))];
          Element "small" (levelClass (li_level l))
            [Text (toUpperCase
                     (default "info" (or_string (li_level l) (Some "info"))))] ];
      Element "div" "" [Text (li_message l)] ].

(** The markup that [renderAnalysisLogs] assigns to [innerHTML]. *)
Definition logsMarkup (logs : list LogItem) : list html :=
  match logs with
  | [] => [Element "p" "text-muted mb-0" [Text "No recent logs."]]
  | _ => [Element "ul" "list-unstyled mb-0" (map renderLog (logsShown logs))]
  end.

(** [renderAnalysisLogs(logs)] *)
Definition renderAnalysisLogs (logs : list LogItem) (d : Display) : Display :=
  match analysisLogs d with
  | None => d
  | Some _ => mkDisplay (analysisTaskList d) (Some (logsMarkup logs))
  end.

(** What [loadAnalysisProgress] does with a pair of responses, as far as
    these two elements go: [agentData] and [taskData] are [None] when the
    request did not succeed. *)
Definition renderStatusPoll (agentData : option AgentData)
    (taskData : option TaskData) (d : Display) : Display :=
  renderAnalysisLogs
    (default [] (agentData ≫= recent_logs))
    (renderAnalysisTaskList taskData d).

End Logs.

(** ** Characters of a task id *)

Definition is_digit (c : ascii) : bool :=
  Nat.leb 48 (nat_of_ascii c) && Nat.leb (nat_of_ascii c) 57.

Fixpoint all_digits (s : string) : bool :=
  match s with
  | EmptyString => true
  | String c s' => is_digit c && all_digits s'
  end.

(** ** The invariants of the specification, in its words *)


(** A task, identified by its id, is in at most one of the pending sequence
    and the active map: the id of a pending task is not a key of the active
    map. *)
Definition spec_pending_or_active (m : AgentManager) : Prop :=
  forall r, r ∈ taskQueue m -> activeTasks m !! task_id (deref (heap m) r) = None.

(** The task objects of the active map. *)
Definition active_refs (m : AgentManager) : list ref :=
  (fun p => ai_task (snd p)) <$> map_to_list (activeTasks m).

(** ** A whole [executeTask] call

    The timers of the [delay]s of one call fire one after the other, each at
    its time and with what the statement after the [await] does; the timers
    left over when the call has settled belong to nobody. *)
Fixpoint resume_loop (now : N) (a : Agent) (t : Task) (s : Susp)
    (timers : list (N * Outcome)) : N * Agent * Susp :=
  match s, timers with
  | SLoop i, (now', o) :: timers' =>
      let '(a', s') := loop_resume now' a t i o in
      resume_loop now' a' t s' timers'
  | _, _ => (now, a, s)
  end.

(** [executeTask(task)] called at time [now], up to the point it has reached
    when the given timers have fired. *)
Definition executeTask_upto (now : N) (a : Agent) (r : ref) (t : Task)
    (timers : list (N * Outcome)) : N * Agent * Susp :=
  let '(a1, s1) := executeTask_begin now a r t in
  resume_loop now a1 t s1 timers.

(** The same call as seen by its caller: the agent once the call has
    returned, or [None] while it is suspended at a [delay]. *)
Definition executeTask (now : N) (a : Agent) (r : ref) (t : Task)
    (timers : list (N * Outcome)) : option Agent :=
  let '(fin, a2, s2) := executeTask_upto now a r t timers in
  match s2 with
  | SSettled err => Some (executeTask_finish fin a2 t err)
  | SLoop _ => None
  end.

(** The number of iterations of [for (let i = 0; i <= 100; i += step)]. *)
Definition iterations (k : AgentKind) : nat :=
  Z.to_nat (100 / step_size k) + 1.

(** Timers that all let the loop go on. *)
Definition normally (times : list N) : list (N * Outcome) :=
  (fun now => (now, Normal)) <$> times.

(** ** The simulated work in the older copy

    In [frontend/js/agents.js] the data agent runs the same plain loop as the
    other agents, in steps of 10, and has no [try]/[catch] of its own. *)
Module LegacyAgent.

Definition step_size (k : AgentKind) : Z :=
  match k with
  | KData => 10
  | KAnalysis => 15
  | KVisualization => 20
  | KReport => 25
  | KBase => 0
  end.

Definition step_message (k : AgentKind) (i : Z) : string :=
  match k with
  | KData => "Processing data... " ++ pretty i ++ "%"
  | KAnalysis => "Analyzing data... " ++ pretty i ++ "%"
  | KVisualization => "Creating visualizations... " ++ pretty i ++ "%"
  | KReport => "Generating report... " ++ pretty i ++ "%"
  | KBase => ""
  end.

(** The loop resumed after [await this.delay(..)] with loop counter [i]. *)
Definition loop_resume (now : N) (a : Agent) (i : Z) (o : Outcome) : Agent * Susp :=
  match o with
  | Throws msg => (log now (step_message (kind a) i) "info" a, SSettled (Some msg))
  | Normal =>
      let a1 := log now (step_message (kind a) i) "info" a in
      let i' := (i + step_size (kind a))%Z in
      if (i' <=? 100)%Z then (set_progress i' a1, SLoop i') else (a1, SSettled None)
  end.

Fixpoint resume_loop (now : N) (a : Agent) (s : Susp) (timers : list (N * Outcome))
  : N * Agent * Susp :=
  match s, timers with
  | SLoop i, (now', o) :: timers' =>
      let '(a', s') := loop_resume now' a i o in
      resume_loop now' a' s' timers'
  | _, _ => (now, a, s)
  end.

(** [executeTask(task)] with the timers that fire after the call. *)
Definition executeTask (now : N) (a : Agent) (r : ref) (t : Task)
    (timers : list (N * Outcome)) : option Agent :=
  let '(a1, s1) := Legacy.executeTask_begin now a r t in
  let '(fin, a2, s2) := resume_loop now a1 s1 timers in
  match s2 with
  | SSettled err => Some (executeTask_finish fin a2 t err)
  | SLoop _ => None
  end.

Definition iterations (k : AgentKind) : nat := Z.to_nat (100 / step_size k) + 1.

End LegacyAgent.

(** ** The queue between two states

    [fifo m m']: from [m] to [m'] tasks have been allocated, each new one
    appended to the pending queue, and tasks have been taken off the front of
    the queue; nothing else has happened to the queue. *)
Definition fifo (m m' : AgentManager) : Prop :=
  length (heap m) <= length (heap m')
  /\ exists k,
       k <= length (taskQueue m) + (length (heap m') - length (heap m))
       /\ taskQueue m'
          = drop k (taskQueue m
                    ++ seq (length (heap m)) (length (heap m') - length (heap m))).

(** ** Watched tasks *)

(** The values that the code assigns to the [status] of an agent. *)
Definition statuses : list string :=
  ["online"; "offline"; "busy"; "processing"; "error"].

(** Every status, in an agent or in the status map, is one that the code
    assigns, and every running watcher watches a key of the active map. *)
Record tracked (m : AgentManager) : Prop := mkTracked {
  tracked_agents : forall a, status (get (agents m) a) ∈ statuses;
  tracked_mirror : forall a, get (agentStatus m) a ∈ statuses;
  tracked_watchers : forall w, w ∈ watchers m -> is_Some (activeTasks m !! w_taskId w)
}.

(** The data agent after a form upload that succeeded while it had nothing to
    do: its status is ['processing'] and it executes no task. *)
Record frozen (m : AgentManager) : Prop := mkFrozen {
  frozen_status : status (get (agents m) data) = "processing";
  frozen_idle : forall c, c ∈ pending m -> co_agent c <> data
}.

(** What stays of a task object whatever happens to it. *)
Definition same_identity (t t' : Task) : Prop :=
  task_id t' = task_id t /\ task_name t' = task_name t /\ task_type t' = task_type t
  /\ task_props t' = task_props t /\ task_parameters t' = task_parameters t
  /\ task_status t' = task_status t
  /\ (task_progress t' = task_progress t \/ task_progress t' = JNumber 0).

(** The keys of the active map and the running watchers, across one of the
    operations of the manager. *)
Definition grows (m m' : AgentManager) : Prop :=
  (forall id, is_Some (activeTasks m !! id) -> is_Some (activeTasks m' !! id))
  /\ watchers m `prefix_of` watchers m'.

(** Across operations of the manager the heap only gets longer and the task
    objects keep their identity. *)
Definition keeps (m m' : AgentManager) : Prop :=
  length (heap m) <= length (heap m')
  /\ forall r, r < length (heap m) -> same_identity (deref (heap m) r) (deref (heap m') r).

(** ** The dashboard metrics *)

(** [Object.values(agentManager.agents)] *)
Definition agent_values (m : AgentManager) : list Agent :=
  get (agents m) <$> agentIds.

(** The [metrics] object of [updateDashboardMetrics()], whose values the
    function writes into the elements of the same names; [u] is the draw of
    [Math.random()]. *)
Record Metrics : Type := mkMetrics {
  totalSections : nat;
  totalPapers : nat;
  activeAgents : nat;
  completedTasks : nat
}.

Definition updateDashboardMetrics (u : N) (m : AgentManager) : Metrics :=
  mkMetrics 24 40
    (length (filter (fun a => status a = "online") (agent_values m)))
    (floor_random u 20 + 10).

(** ** The polling of the analysis view

    [AppController] keeps the handle of the interval that polls the progress
    of the analysis in [analysisProgressInterval].  [setInterval] returns
    positive integers; the intervals of the controller are numbered here in
    the order in which they are set, from 1. *)

(** The loads that the controller starts: the [load...Data()] method of a
    section, [loadAnalysisData()] again from the timer of [showSection], and
    [loadAnalysisProgress()]. *)
Inductive Request : Type :=
  | ReqDashboardData | ReqAgentsData | ReqAnalysisData | ReqReportsData | ReqSettingsData
  | ReqAnalysisDataAfter100ms
      (** [setTimeout(() => this.loadAnalysisData(), 100)] *)
  | ReqAnalysisProgress.

Record AppController : Type := mkApp {
  currentSection : string;
  (** [null], or the handle of the polling interval *)
  analysisProgressInterval : option nat;
  (** the intervals that have been set and not cleared *)
  intervals : list nat;
  (** the handle that the next [setInterval] returns *)
  nextInterval : nat;
  (** the loads started so far, the latest last *)
  requests : list Request
}.

(** [new AppController()], as far as these fields go. *)
Definition AppController_new : AppController :=
  mkApp "dashboard" None [] 1 [].

(** [if (this.analysisProgressInterval)] *)
Definition is_polling (c : AppController) : bool :=
  match analysisProgressInterval c with
  | Some h => negb (Nat.eqb h 0)
  | None => false
  end.

(** [startAnalysisProgressPolling()] *)
Definition startAnalysisProgressPolling (c : AppController) : AppController :=
  if is_polling c then c
  else
    mkApp (currentSection c) (Some (nextInterval c))
          (intervals c ++ [nextInterval c]) (S (nextInterval c))
          (requests c ++ [ReqAnalysisProgress]).

(** [stopAnalysisProgressPolling()] *)
Definition stopAnalysisProgressPolling (c : AppController) : AppController :=
  match analysisProgressInterval c with
  | Some h =>
      if is_polling c then
        mkApp (currentSection c) None (filter (fun h' => h' <> h) (intervals c))
              (nextInterval c) (requests c)
      else c
  | None => c
  end.

(** [loadSectionData(sectionName)] *)
Definition loadSectionData (sectionName : string) : list Request :=
  if bool_decide (sectionName = "dashboard") then [ReqDashboardData]
  else if bool_decide (sectionName = "agents") then [ReqAgentsData]
  else if bool_decide (sectionName = "analysis") then [ReqAnalysisData]
  else if bool_decide (sectionName = "reports") then [ReqReportsData]
  else if bool_decide (sectionName = "settings") then [ReqSettingsData]
  else [].

(** [showSection(sectionName)]; [present] tells whether the document has an
    element with that id. *)
Definition showSection (sectionName : string) (present : bool) (c : AppController)
  : AppController :=
  let c1 :=
    mkApp (if present then sectionName else currentSection c)
          (analysisProgressInterval c) (intervals c) (nextInterval c)
          (requests c ++ loadSectionData sectionName) in
  if bool_decide (sectionName = "analysis") then
    let c2 := startAnalysisProgressPolling c1 in
    mkApp (currentSection c2) (analysisProgressInterval c2) (intervals c2)
          (nextInterval c2) (requests c2 ++ [ReqAnalysisDataAfter100ms])
  else stopAnalysisProgressPolling c1.

(** [refreshAnalysis()] *)
Definition refreshAnalysis (c : AppController) : AppController :=
  startAnalysisProgressPolling
    (mkApp (currentSection c) (analysisProgressInterval c) (intervals c)
           (nextInterval c) (requests c ++ [ReqAnalysisData])).

(** [cleanup()] (the dashboard manager is not part of the embedding) *)
Definition cleanup (c : AppController) : AppController :=
  stopAnalysisProgressPolling c.

(** What the page can ask of the controller. *)
Inductive Navigation : Type :=
  | NavShowSection (sectionName : string) (present : bool)
  | NavRefreshAnalysis
  | NavCleanup.

Definition navigate (c : AppController) (n : Navigation) : AppController :=
  match n with
  | NavShowSection sectionName present => showSection sectionName present c
  | NavRefreshAnalysis => refreshAnalysis c
  | NavCleanup => cleanup c
  end.

(** The field holds the only interval that runs, if any; handles are
    positive. *)
Definition one_interval (c : AppController) : Prop :=
  0 < nextInterval c
  /\ match analysisProgressInterval c with
     | Some h => 0 < h < nextInterval c /\ intervals c = [h]
     | None => intervals c = []
     end.

(** ** The task panel of the application controller *)

(** The properties of a task of the [/api/tasks] response that the panel
    shows. *)
Record QueueTask : Type := mkQueueTask {
  qt_type : option string;
  qt_assigned_agent : option string
}.

Record QueueData : Type := mkQueueData {
  qd_active : option (list QueueTask);
  qd_queued : option (list QueueTask);
  qd_completed : option (list QueueTask)
}.

Module Controller.

(** The lookup of [status] in the object literal of badge classes. *)
Definition statusClass (status : string) : string :=
  default "bg-secondary"
    (assoc status
       [("In Progress", "bg-primary"); ("Queued", "bg-warning");
        ("Completed", "bg-success"); ("Failed", "bg-danger")]).

(** [createTaskElement(task, status)] *)
Definition createTaskElement (task : QueueTask) (status : string) : html :=
  Element "div" "task-item"
    (Element "div" "d-flex justify-content-between"
       [ Element "span" "" [Text (default "Unknown Task"
                                    (or_string (qt_type task) (Some "Unknown Task")))];
         Element "span" ("badge " ++ statusClass status) [Text status] ]
     :: match or_string (qt_assigned_agent task) None with
        | Some agent => [Element "small" "text-muted" [Text ("Agent: " ++ agent)]]
        | None => []
        end).

(** The children that [updateTaskQueue] appends to the emptied container. *)
Definition taskElements (tasks : QueueData) : list html :=
  (map (fun t => createTaskElement t "In Progress") (default [] (qd_active tasks))
   ++ map (fun t => createTaskElement t "Queued") (default [] (qd_queued tasks))
   ++ map (fun t => createTaskElement t "Completed")
          (slice_last 5 (default [] (qd_completed tasks))))%list.

(** [updateTaskQueue(tasks)]; the argument [queueContainer] is the content of
    the element with id [taskQueue], or [None] when the page has none. *)
Definition updateTaskQueue (tasks : QueueData) (queueContainer : option (list html))
  : option (list html) :=
  match queueContainer with
  | None => None
  | Some _ => Some (taskElements tasks)
  end.

End Controller.

(** ** The monitor of an analysis started by an upload *)

(** The answer to [fetch('/api/tasks/<id>/status')]. *)
Record TaskStatus : Type := mkTaskStatus {
  ts_status : option string;
  ts_progress : option Z
}.

Inductive StatusResponse : Type :=
  | StatusFailed
      (** the request or the parsing of its body throws *)
  | StatusNotOk
  | StatusOk (taskStatus : TaskStatus).

(** The variables that [checkProgress] closes over, and what it has done. *)
Record ProgressMonitor : Type := mkMonitor {
  (** the interval of [monitorAnalysisProgress] has not been cleared *)
  checking : bool;
  (** the content of the progress notification, once it is created *)
  progressNotification : option (list html);
  (** the timers set to remove the progress notification *)
  removals : nat;
  (** the notifications ['Analysis completed! ...'] shown *)
  completions : nat
}.

(** [monitorAnalysisProgress(taskId, filename)] before any answer. *)
Definition monitorAnalysisProgress : ProgressMonitor := mkMonitor true None 0 0.

(** [taskStatus.progress || 0] *)
Definition progress_or_0 (ts : TaskStatus) : Z := default 0%Z (ts_progress ts).

(** [taskStatus.status || 'unknown'] *)
Definition status_or_unknown (ts : TaskStatus) : string :=
  default "unknown" (or_string (ts_status ts) (Some "unknown")).

Definition progressMessage (filename : string) (ts : TaskStatus) : string :=
  let status := status_or_unknown ts in
  if bool_decide (status = "completed") then "✅ Analysis completed for " ++ filename ++ "!"
  else if bool_decide (status = "failed") then "❌ Analysis failed for " ++ filename
  else "Analyzing " ++ filename ++ "... " ++ pretty (progress_or_0 ts) ++ "%".

Definition progressMarkup (filename : string) (ts : TaskStatus) : list html :=
  (Text (progressMessage filename ts)
   :: (if bool_decide (status_or_unknown ts = "in_progress")
       then [Element "div" "progress mt-2" [Element "div" "progress-bar" []]]
       else [])
   ++ [Element "button" "btn-close" []])%list.

Definition finished (ts : TaskStatus) : bool :=
  bool_decide (status_or_unknown ts = "completed")
  || bool_decide (status_or_unknown ts = "failed").

(** What [checkProgress] does once its request for the task status is
    answered (the second request, for the progress of the agent, is only
    logged to the console). *)
Definition checkProgress (filename : string) (resp : StatusResponse)
    (mo : ProgressMonitor) : ProgressMonitor :=
  match resp with
  | StatusOk ts =>
      let content := Some (progressMarkup filename ts) in
      if finished ts then
        mkMonitor false content (S (removals mo))
          (if bool_decide (status_or_unknown ts = "completed")
           then S (completions mo) else completions mo)
      else mkMonitor (checking mo) content (removals mo) (completions mo)
  | _ => mo
  end.

(** The answers so far, in the order in which they were handled. *)
Definition checks (filename : string) (resps : list StatusResponse) : ProgressMonitor :=
  foldl (fun mo resp => checkProgress filename resp mo) monitorAnalysisProgress resps.

Definition reports_end (resp : StatusResponse) : bool :=
  match resp with
  | StatusOk ts => finished ts
  | _ => false
  end.

Definition reports_completed (resp : StatusResponse) : bool :=
  match resp with
  | StatusOk ts => bool_decide (status_or_unknown ts = "completed")
  | _ => false
  end.

(** ** The log panel of the agents

    The page has one element [agentLog]; [updateAgentLogUI] of every agent
    overwrites its content from the log of that agent. *)

Section AgentLog.
(** [new Date().toLocaleString()] at the time of the entry *)
Variable toLocaleString : N -> string.

Definition logEntryMarkup (a : Agent) (l : LogEntry) : html :=
  Element "div" ("log-entry log-" ++ level l)
    [ Element "span" "text-muted" [Text ("[" ++ toLocaleString (timestamp l) ++ "]")];
      Text (agent_name a ++ ": " ++ message l) ].

(** The markup that [updateAgentLogUI()] writes into the element [agentLog]. *)
Definition agentLogMarkup (a : Agent) : list html :=
  map (logEntryMarkup a) (slice_last 10 (logs a)).

(** [updateAgentLogUI()]; [logContainer] is the content of the element
    [agentLog], or [None] when the page has none. *)
Definition updateAgentLogUI (a : Agent) (logContainer : option (list html))
  : option (list html) :=
  match logContainer with
  | None => None
  | Some _ => Some (agentLogMarkup a)
  end.

(** The whole of [log(message, level)]: the entry is pushed, then the page is
    updated.  [logContainer] is the content of the one element [agentLog] of
    the page, which every agent writes to. *)
Definition log_shown (now : N) (msg lvl : string) (a : Agent)
    (logContainer : option (list html)) : Agent * option (list html) :=
  let a' := log now msg lvl a in
  (a', updateAgentLogUI a' logContainer).

(** A call [this.agents[agentId].log(message, level)] at a given time. *)
Record LogCall : Type := mkLogCall {
  lc_agent : AgentId;
  lc_time : N;
  lc_message : string;
  lc_level : string
}.

Definition lc_entry (c : LogCall) : LogEntry :=
  mkLog (lc_time c) (lc_message c) (lc_level c).

(** The agents of the manager and the content of the element [agentLog]. *)
Definition LogPage : Type := PerAgent Agent * option (list html).

Definition log_call (st : LogPage) (c : LogCall) : LogPage :=
  let '(a', shown) :=
    log_shown (lc_time c) (lc_message c) (lc_level c) (get (fst st) (lc_agent c))
              (snd st) in
  (put (lc_agent c) a' (fst st), shown).

Definition log_calls (st : LogPage) (cs : list LogCall) : LogPage :=
  foldl log_call st cs.

(** The entries that the calls [cs] push on the log of agent [a]. *)
Definition logged (a : AgentId) (cs : list LogCall) : list LogEntry :=
  lc_entry <$> filter (fun c => lc_agent c = a) cs.

End AgentLog.

(** ** The real-time switch of the dashboard manager

    [DashboardManager] refreshes the dashboard from an interval that a switch
    of the page turns on and off; [AppController.cleanup] ends it through
    [destroy()].  Only the fields of the switch are embedded. *)
Record DashboardManager : Type := mkDashboard {
  (** [null], or the handle of the refresh interval *)
  updateInterval : option nat;
  isRealTimeEnabled : bool;
  (** the intervals that the manager has set and not cleared *)
  refreshing : list nat;
  (** the handle that the next [setInterval] returns *)
  nextRefresh : nat
}.

(** [startRealTimeUpdates()] *)
Definition startRealTimeUpdates (d : DashboardManager) : DashboardManager :=
  if isRealTimeEnabled d then
    mkDashboard (Some (nextRefresh d)) (isRealTimeEnabled d)
                (refreshing d ++ [nextRefresh d]) (S (nextRefresh d))
  else d.

(** [stopRealTimeUpdates()] *)
Definition stopRealTimeUpdates (d : DashboardManager) : DashboardManager :=
  match updateInterval d with
  | Some h =>
      if negb (Nat.eqb h 0) then
        mkDashboard None (isRealTimeEnabled d)
                    (filter (fun h' => h' <> h) (refreshing d)) (nextRefresh d)
      else d
  | None => d
  end.

(** [toggleRealTimeUpdates()] *)
Definition toggleRealTimeUpdates (d : DashboardManager) : DashboardManager :=
  let d1 :=
    mkDashboard (updateInterval d) (negb (isRealTimeEnabled d))
                (refreshing d) (nextRefresh d) in
  if isRealTimeEnabled d1 then startRealTimeUpdates d1 else stopRealTimeUpdates d1.

(** [destroy()] *)
Definition destroy (d : DashboardManager) : DashboardManager :=
  stopRealTimeUpdates d.

(** [new DashboardManager()]: the field initialisers, then [init()], which
    starts the updates. *)
Definition DashboardManager_new : DashboardManager :=
  startRealTimeUpdates (mkDashboard None true [] 1).

Inductive Switch : Type :=
  | SwToggle
  | SwDestroy.

Definition switch (d : DashboardManager) (s : Switch) : DashboardManager :=
  match s with
  | SwToggle => toggleRealTimeUpdates d
  | SwDestroy => destroy d
  end.

(** The field holds the only refresh interval that runs, if any, and none
    runs while the switch is off. *)
Definition one_refresh (d : DashboardManager) : Prop :=
  0 < nextRefresh d
  /\ match updateInterval d with
     | Some h => 0 < h < nextRefresh d /\ refreshing d = [h] /\ isRealTimeEnabled d = true
     | None => refreshing d = []
     end.

(** ** Concrete runs used in the examples *)

(** A manager created at time 1000. *)
Definition manager1000 : AgentManager :=
  AgentManager_new 1000 "aaaaaaaaa" "bbbbbbbbb" "ccccccccc" 0 0 0.

(** A manager created at time 1000 when [Math.random()] gives the same
    suffix for each of the three initial tasks, after its first tick, which
    gives the first task to the data agent. *)
Definition same_suffix_tick : AgentManager :=
  run (AgentManager_new 1000 "aaaaaaaaa" "aaaaaaaaa" "aaaaaaaaa" 0 0 0)
      [ EvMonitor 3000 0 ].

(** The first tick gives the first task to the data agent, then a file is
    uploaded. *)
Definition tick_then_upload : list Event :=
  [ EvMonitor 3000 0;
    EvAddTasks 3500 [(uploadCSV_task "thesis.csv", "ddddddddd", 0%N)] ].

(** What happens to [manager1000] until time 6200, with every timer that
    falls in that period: the monitor interval (3000, 5000), the [delay]
    timers of the data agent (every 500 from 3500 to 6000, when it finishes)
    and of the visualization agent (every 600 from 5600), and the progress
    watchers (every 1000 from 4000 and from 6000).  The draws make every
    selection hit an agent that has the capability. *)
Definition until_6200 : list Event :=
  [ EvMonitor 3000 0;
    EvTimer 3500 0 Normal;
    EvTimer 4000 0 Normal; EvWatcher 4000 0;
    EvTimer 4500 0 Normal;
    EvTimer 5000 0 Normal; EvWatcher 5000 0; EvMonitor 5000 (2 ^ 52);
    EvTimer 5500 0 Normal;
    EvTimer 5600 1 Normal;
    EvTimer 6000 0 Normal; EvWatcher 6000 0; EvWatcher 6000 1;
    EvTimer 6200 0 Normal ].

(** The same run continued until time 7400: the visualization agent goes on,
    the monitor and both watchers tick at 7000. *)
Definition first_seconds : list Event :=
  (until_6200 ++
   [ EvTimer 6800 0 Normal;
     EvMonitor 7000 0; EvWatcher 7000 0; EvWatcher 7000 1;
     EvTimer 7400 0 Normal ])%list.

(** The same run when a file is uploaded at 6500, up to the monitor tick at
    7000 and before the watchers tick at 7000: the upload makes the third
    initial task leave the queue, and the tick gives the uploaded file to the
    data agent. *)
Definition upload_before_tick : list Event :=
  (until_6200 ++
   [ EvAddTasks 6500 [(uploadCSV_task "thesis.csv", "ddddddddd", 0%N)];
     EvTimer 6800 0 Normal;
     EvMonitor 7000 0 ])%list.

(** Three files are uploaded one after the other while the data agent, the
    only agent with the capability, is online; every draw selects the data
    agent. *)
Definition three_uploads : list Event :=
  [ EvAddTasks 7500 [(uploadCSV_task "a.csv", "ddddddddd", 0%N)];
    EvAddTasks 7600 [(uploadCSV_task "b.csv", "eeeeeeeee", 0%N)];
    EvAddTasks 7700 [(uploadCSV_task "c.csv", "fffffffff", 0%N)] ].



(** The older manager, created at time 1000, after its first tick, which
    gives the first task to the data agent. *)
Definition legacy1000 : AgentManager :=
  Legacy.monitor_tick 3000 0
    (Legacy.AgentManager_new 1000 "aaaaaaaaa" "bbbbbbbbb" "ccccccccc").

(** The first task of the initial queue, and a task of a type that the
    analysis agent lists without simulating it. *)
Definition thesis_task : Task :=
  new_task (lit "Process Thesis Data" "data_processing" "high") "task_1000_aaaaaaaaa".

Definition statistics_task : Task :=
  new_task (mkLit "Analyze thesis.csv" "statistical_analysis" []
              [("cleaned_file", "thesis_clean.csv")])
           "task_2000_bbbbbbbbb".


(** A file is uploaded through the form of the data agent at 7500, when the
    agent has finished its first task; the monitor ticks at 9000 and a file is
    then sent with [uploadCSV]. *)
Definition after_form_upload : list Event :=
  [ EvMonitor 9000 0;
    EvAddTasks 9500 [(uploadCSV_task "thesis.csv", "ddddddddd", 0%N)];
    EvMonitor 11000 0 ].

(** * Properties *)

(** ** Agents and their simulated work *)

Lemma includes_elem_of (x : string) (l : list string) :
  includes x l = true <-> x ∈ l.
Proof.
  unfold includes. rewrite existsb_exists. split.
  - intros (y & Hy & Heq). apply bool_decide_eq_true in Heq. subst y.
    by apply list_elem_of_In.
  - intros H. exists x. split; [by apply list_elem_of_In|].
    by apply bool_decide_eq_true.
Qed.

Lemma canHandleTask_true (a : Agent) (t : Task) :
  canHandleTask a t = true <-> task_type t ∈ capabilities a /\ status a = "online".
Proof.
  unfold canHandleTask. rewrite andb_true_iff, includes_elem_of.
  by rewrite bool_decide_eq_true.
Qed.

Lemma performTask_begin_shape (now : N) (a : Agent) (t : Task) :
  let r := performTask_begin now a t in
  kind (fst r) = kind a /\ capabilities (fst r) = capabilities a
  /\ currentTask (fst r) = currentTask a
  /\ (status (fst r) = status a \/ status (fst r) = "processing").
Proof.
  unfold performTask_begin.
  destruct (kind a) eqn:Hk; simpl; try case_bool_decide; simpl; rewrite ?Hk; auto.
Qed.

Lemma executeTask_begin_shape (now : N) (a : Agent) (r : ref) (t : Task) :
  let p := executeTask_begin now a r t in
  kind (fst p) = kind a /\ capabilities (fst p) = capabilities a
  /\ currentTask (fst p) = Some r /\ status (fst p) <> "online".
Proof.
  unfold executeTask_begin.
  match goal with |- context [performTask_begin now ?x t] =>
    destruct (performTask_begin_shape now x t) as (Hk & Hc & Hcur & Hs) end.
  cbv zeta. rewrite Hk, Hc, Hcur. simpl. repeat split.
  destruct Hs as [-> | ->]; simpl; discriminate.
Qed.

Lemma loop_resume_shape (now : N) (a : Agent) (t : Task) (i : Z) (o : Outcome) :
  let p := loop_resume now a t i o in
  kind (fst p) = kind a /\ capabilities (fst p) = capabilities a
  /\ currentTask (fst p) = currentTask a
  /\ (forall j, snd p = SLoop j -> status (fst p) = status a).
Proof.
  unfold loop_resume. destruct o as [|msg].
  - cbv zeta. destruct (_ <=? _)%Z; [simpl; auto|].
    destruct (kind a) eqn:Hk; simpl; repeat split; auto; discriminate.
  - destruct (kind a) eqn:Hk; simpl; repeat split; auto; discriminate.
Qed.

Lemma executeTask_finish_shape (now : N) (a : Agent) (t : Task) (err : option string) :
  let a' := executeTask_finish now a t err in
  kind a' = kind a /\ capabilities a' = capabilities a
  /\ currentTask a' = None /\ status a' = "online"
  /\ progress a' = match err with None => 100%Z | Some _ => 0%Z end.
Proof. destruct err; simpl; auto. Qed.

(** ** The per-key records *)

Lemma get_put {A} (k k' : AgentId) (x : A) (p : PerAgent A) :
  get (put k x p) k' = if decide (k = k') then x else get p k'.
Proof. destruct k, k'; reflexivity. Qed.

Lemma get_put_eq {A} (k : AgentId) (x : A) (p : PerAgent A) :
  get (put k x p) k = x.
Proof. rewrite get_put. by rewrite decide_True. Qed.

Lemma get_put_ne {A} (k k' : AgentId) (x : A) (p : PerAgent A) :
  k <> k' -> get (put k x p) k' = get p k'.
Proof. intros. rewrite get_put. by rewrite decide_False. Qed.

Lemma get_per_map {A B} (f : A -> B) (p : PerAgent A) (k : AgentId) :
  get (per_map f p) k = f (get p k).
Proof. by destruct k. Qed.

Lemma elem_of_agentIds (k : AgentId) : k ∈ agentIds.
Proof. unfold agentIds. destruct k; set_solver. Qed.

Lemma elem_of_availableAgents (m : AgentManager) (k : AgentId) :
  k ∈ availableAgents m <-> get (agentStatus m) k = "online".
Proof.
  unfold availableAgents. rewrite list_elem_of_filter.
  split; [tauto | auto using elem_of_agentIds].
Qed.

Lemma floor_random_lt (u : N) (n : nat) : 0 < n -> floor_random u n < n.
Proof.
  intros Hn. unfold floor_random.
  assert (H : ((u mod 2 ^ 53) * N.of_nat n / 2 ^ 53 < N.of_nat n)%N).
  { apply N.Div0.div_lt_upper_bound.
    assert (u mod 2 ^ 53 < 2 ^ 53)%N by (apply N.mod_lt; discriminate).
    nia. }
  lia.
Qed.

Lemma selectBestAgent_elem_of (available : list AgentId) (u : N) (k : AgentId) :
  selectBestAgent available u = Some k -> k ∈ available.
Proof. unfold selectBestAgent. intros H. by eapply list_elem_of_lookup_2. Qed.

Lemma selectBestAgent_is_Some (available : list AgentId) (u : N) :
  available <> [] -> is_Some (selectBestAgent available u).
Proof.
  intros Hne. unfold selectBestAgent. apply lookup_lt_is_Some.
  apply floor_random_lt. destruct available; [done | simpl; lia].
Qed.

(** ** What each operation of the manager changes *)

Lemma deref_app_l (h : list Task) (t : Task) (r : ref) :
  r < length h -> deref (h ++ [t]) r = deref h r.
Proof. intros H. unfold deref. by rewrite lookup_app_l. Qed.

Lemma deref_app_new (h : list Task) (t : Task) : deref (h ++ [t]) (length h) = t.
Proof. unfold deref. by rewrite list_lookup_middle. Qed.

Lemma length_modify (f : Task -> Task) (r : ref) (h : list Task) :
  length (modify f r h) = length h.
Proof. unfold modify. destruct (h !! r); [apply length_insert | done]. Qed.

Lemma deref_modify (f : Task -> Task) (r r' : ref) (h : list Task) :
  deref (modify f r h) r' = deref h r' \/ deref (modify f r h) r' = f (deref h r').
Proof.
  unfold modify, deref. destruct (h !! r) as [t|] eqn:Hr; [|by left].
  destruct (decide (r = r')) as [<-|Hne].
  - right. rewrite list_lookup_insert_eq by (by eapply lookup_lt_Some).
    by rewrite Hr.
  - left. by rewrite list_lookup_insert_ne.
Qed.

(** A field of a task that the update [f] leaves alone is unchanged
    everywhere in the heap. *)
Lemma deref_modify_field {A} (g : Task -> A) (f : Task -> Task) (r r' : ref)
    (h : list Task) :
  (forall t, g (f t) = g t) -> g (deref (modify f r h) r') = g (deref h r').
Proof.
  intros Hg. destruct (deref_modify f r r' h) as [-> | ->]; [done | apply Hg].
Qed.

Lemma assignTask_cases (now : N) (agentId : AgentId) (r : ref) (m : AgentManager) :
  (canHandleTask (get (agents m) agentId) (deref (heap m) r) = false
   /\ assignTask now agentId r m = m)
  \/ (canHandleTask (get (agents m) agentId) (deref (heap m) r) = true
      /\ exists a' s,
          executeTask_begin now (get (agents m) agentId) r (deref (heap m) r) = (a', s)
          /\ assignTask now agentId r m =
             mkManager (put agentId a' (agents m)) (taskQueue m)
               (<[task_id (deref (heap m) r) := mkActive agentId r now]> (activeTasks m))
               (agentStatus m) (heap m)
               (watchers m ++ [mkWatcher (nextHandle m) (task_id (deref (heap m) r)) agentId])
               (S (nextHandle m))
               (pending m ++ [mkCo agentId r s])).
Proof.
  unfold assignTask.
  destruct (canHandleTask _ _) eqn:Hc; [right | by left].
  split; [done|].
  destruct (executeTask_begin now (get (agents m) agentId) r (deref (heap m) r))
    as [a' s] eqn:He.
  exists a', s. split; reflexivity.
Qed.

Lemma processTaskQueue_cases (now u : N) (m : AgentManager) :
  processTaskQueue now u m = m
  \/ exists r rest agentId,
       taskQueue m = r :: rest
       /\ selectBestAgent (availableAgents m) u = Some agentId
       /\ processTaskQueue now u m = assignTask now agentId r (with_taskQueue rest m).
Proof.
  unfold processTaskQueue.
  destruct (taskQueue m) as [|r rest] eqn:Hq; [by left|].
  destruct (availableAgents m) as [|k av] eqn:Hav; [by left|].
  destruct (selectBestAgent_is_Some (k :: av) u) as [agentId Hsel]; [done|].
  right. exists r, rest, agentId. by rewrite Hsel.
Qed.

Lemma foldl_finish_co_fields (now : N) (cs : list Coroutine) (m : AgentManager) :
  let m' := foldl (finish_co now) m cs in
  taskQueue m' = taskQueue m /\ activeTasks m' = activeTasks m
  /\ agentStatus m' = agentStatus m /\ heap m' = heap m
  /\ watchers m' = watchers m /\ nextHandle m' = nextHandle m
  /\ pending m' = pending m.
Proof.
  revert m. induction cs as [|c cs IH]; intros m; simpl; [done|].
  destruct (IH (finish_co now m c)) as (H1 & H2 & H3 & H4 & H5 & H6 & H7).
  rewrite H1, H2, H3, H4, H5, H6, H7.
  unfold finish_co. by destruct (co_susp c).
Qed.

Lemma find_None_all {A} (f : A -> bool) (l : list A) :
  (forall x, x ∈ l -> f x = false) -> find f l = None.
Proof.
  induction l as [|x l IH]; intros H; simpl; [done|].
  rewrite (H x) by set_solver. apply IH. intros y Hy. apply H. set_solver.
Qed.

Lemma find_Some_elem {A} (f : A -> bool) (l : list A) (x : A) :
  find f l = Some x -> x ∈ l /\ f x = true.
Proof.
  intros H. apply find_some in H as [H1 H2]. split; [by apply list_elem_of_In | done].
Qed.

(** The agents after the microtasks: an agent whose call has settled runs the
    rest of [executeTask]; the others are untouched. *)
Lemma foldl_finish_co_agents (now : N) (cs : list Coroutine) (m : AgentManager)
    (a : AgentId) :
  NoDup (map co_agent cs) ->
  get (agents (foldl (finish_co now) m cs)) a =
    match find (fun c => bool_decide (co_agent c = a)) cs with
    | Some (mkCo _ r (SSettled err)) =>
        executeTask_finish now (get (agents m) a) (deref (heap m) r) err
    | _ => get (agents m) a
    end.
Proof.
  revert m. induction cs as [|c cs IH]; intros m Hnd; simpl; [done|].
  apply NoDup_cons in Hnd as [Hc Hnd].
  rewrite IH by done.
  case_bool_decide as Ha.
  - subst a.
    assert (find (fun c' => bool_decide (co_agent c' = co_agent c)) cs = None) as ->.
    { apply find_None_all. intros c' Hin. apply bool_decide_eq_false. intros Heq.
      apply Hc. rewrite <- Heq. apply list_elem_of_fmap. eauto. }
    destruct c as [ag r [i|err]]; simpl; [done|].
    by rewrite get_put_eq.
  - assert (Hsame : get (agents (finish_co now m c)) a = get (agents m) a).
    { unfold finish_co. destruct (co_susp c); [done|]. simpl.
      by rewrite get_put_ne. }
    assert (Hheap : heap (finish_co now m c) = heap m).
    { unfold finish_co. by destruct (co_susp c). }
    by rewrite Hsame, Hheap.
Qed.

(** ** The structural invariant is kept by every operation *)

Ltac fields :=
  cbn [agents taskQueue activeTasks agentStatus heap watchers nextHandle pending
       with_agents with_taskQueue with_activeTasks with_agentStatus with_heap
       with_watchers with_pending co_agent co_task co_susp
       ai_agentId ai_task ai_startTime] in *.

Ltac sound_inv H :=
  destruct H as [Hqa Haa Hpa Hnd Hqna Hqnp Hpnd Hbusy Hcur Hidle Hfix Hrep Hnoco Hown].

Lemma sound_weaken (b : bool) (m : AgentManager) : sound true m -> sound b m.
Proof.
  intros H. sound_inv H. constructor; auto.
Qed.

Lemma sound_init : sound true init_manager.
Proof.
  constructor; simpl.
  - intros r H. by apply elem_of_nil in H.
  - intros id ai H. by rewrite lookup_empty in H.
  - intros c H. by apply elem_of_nil in H.
  - constructor.
  - intros id ai H. by rewrite lookup_empty in H.
  - intros c H. by apply elem_of_nil in H.
  - constructor.
  - intros c H. by apply elem_of_nil in H.
  - intros c H. by apply elem_of_nil in H.
  - by intros [] _.
  - done.
  - done.
  - intros c H. by apply elem_of_nil in H.
  - intros id ai H. by rewrite lookup_empty in H.
Qed.

(** The queue gets a newly allocated task. *)
Lemma sound_push (b : bool) (m : AgentManager) (t : Task) :
  sound b m ->
  sound b (with_taskQueue (taskQueue m ++ [length (heap m)])
             (with_heap (heap m ++ [t]) m)).
Proof.
  intros H. sound_inv H. constructor; fields; try assumption.
  - intros r [Hr | Hr]%elem_of_app; rewrite length_app; simpl.
    + apply Hqa in Hr. lia.
    + apply list_elem_of_singleton in Hr. lia.
  - intros id ai H. rewrite length_app. apply Haa in H. simpl. lia.
  - intros c H. rewrite length_app. apply Hpa in H. simpl. lia.
  - apply NoDup_app. split_and!; [done | | apply NoDup_singleton].
    intros r Hr ->%list_elem_of_singleton. apply Hqa in Hr. lia.
  - intros id ai H [Hr | Hr]%elem_of_app.
    + by eapply Hqna.
    + apply list_elem_of_singleton in Hr. apply Haa in H. lia.
  - intros c H [Hr | Hr]%elem_of_app.
    + by eapply Hqnp.
    + apply list_elem_of_singleton in Hr. apply Hpa in H. lia.
  - intros id ai H. destruct (Hown id ai H) as [H1 H2]. split; [done|].
    rewrite deref_app_l; [done | by eapply Haa].
Qed.

(** The head of the queue is taken off. *)
Lemma sound_shift (b : bool) (m : AgentManager) (r : ref) (rest : list ref) :
  sound b m -> taskQueue m = r :: rest ->
  sound b (with_taskQueue rest m) /\ limbo r (with_taskQueue rest m).
Proof.
  intros H Hq. sound_inv H. rewrite Hq in *.
  apply NoDup_cons in Hnd as [Hr Hnd].
  split; constructor; fields; try assumption.
  - intros r' Hr'. by apply Hqa, list_elem_of_further.
  - intros id ai H Hin. eapply Hqna; [done | by apply list_elem_of_further].
  - intros c H Hin. eapply Hqnp; [done | by apply list_elem_of_further].
  - apply Hqa, list_elem_of_here.
  - intros id ai H <-. eapply Hqna; [done | apply list_elem_of_here].
  - intros c H <-. eapply Hqnp; [done | apply list_elem_of_here].
  - intros a Ha.
    destruct (decide (Exists (fun c => co_agent c = a) (pending m)))
      as [(c & Hc & <-)%Exists_exists | Hno].
    + rewrite (Hcur c Hc) in Ha. injection Ha as <-.
      eapply Hqnp; [done | apply list_elem_of_here].
    + rewrite Hidle in Ha; [done|].
      intros c Hc Heq. apply Hno, Exists_exists. eauto.
Qed.

(** An agent that is online has no suspended call. *)
Lemma online_no_co (m : AgentManager) (a : AgentId) :
  sound true m -> status (get (agents m) a) = "online" ->
  forall c, c ∈ pending m -> co_agent c <> a.
Proof.
  intros Hs Hon c Hc <-. by eapply (pending_busy _ _ Hs c).
Qed.

(** A task in limbo is handed to an agent that accepts it. *)
Lemma sound_start (now : N) (m : AgentManager) (agentId : AgentId) (r : ref)
    (a' : Agent) (s : Susp) :
  sound true m -> limbo r m ->
  canHandleTask (get (agents m) agentId) (deref (heap m) r) = true ->
  executeTask_begin now (get (agents m) agentId) r (deref (heap m) r) = (a', s) ->
  sound true
    (mkManager (put agentId a' (agents m)) (taskQueue m)
       (<[task_id (deref (heap m) r) := mkActive agentId r now]> (activeTasks m))
       (agentStatus m) (heap m)
       (watchers m ++ [mkWatcher (nextHandle m) (task_id (deref (heap m) r)) agentId])
       (S (nextHandle m))
       (pending m ++ [mkCo agentId r s])).
Proof.
  intros Hs [Hla Hlq Hlact Hlp _] [Hcap Hon]%canHandleTask_true Hbegin.
  pose proof (online_no_co m agentId Hs Hon) as Hfree.
  pose proof (executeTask_begin_shape now (get (agents m) agentId) r (deref (heap m) r))
    as Hshape.
  rewrite Hbegin in Hshape. simpl in Hshape.
  destruct Hshape as (Hkind & Hcaps & Hcurr & Hstat).
  assert (Hnrep : agentId <> report).
  { intros ->. rewrite (report_offline _ _ Hs) in Hon. discriminate. }
  sound_inv Hs. constructor; fields; try assumption.
  - intros id ai [[<- <-] | [_ H]]%lookup_insert_Some; [done | eauto].
  - intros c [H | ->%list_elem_of_singleton]%elem_of_app; [eauto | done].
  - intros id ai [[<- <-] | [_ H]]%lookup_insert_Some; [done | eauto].
  - intros c [H | ->%list_elem_of_singleton]%elem_of_app; [eauto | done].
  - rewrite fmap_app. apply NoDup_app. split_and!; [done | | apply NoDup_singleton].
    intros a (c & -> & Hc)%list_elem_of_fmap Heq%list_elem_of_singleton.
    by eapply Hfree.
  - intros c [H | ->%list_elem_of_singleton]%elem_of_app _.
    + rewrite get_put_ne by (intros Heq; by eapply Hfree). by apply Hbusy.
    + by rewrite get_put_eq.
  - intros c [H | ->%list_elem_of_singleton]%elem_of_app.
    + rewrite get_put_ne by (intros Heq; by eapply Hfree). by apply Hcur.
    + by rewrite get_put_eq.
  - intros a Ha.
    assert (agentId <> a).
    { intros <-. eapply (Ha (mkCo agentId r s)); [|done].
      apply elem_of_app. right. apply list_elem_of_here. }
    rewrite get_put_ne by done. apply Hidle.
    intros c Hc. apply Ha, elem_of_app. by left.
  - intros a. rewrite get_put. case_decide as Ha; [subst a|done].
    destruct (Hfix agentId) as [H1 H2]. by rewrite Hkind, Hcaps.
  - by rewrite get_put_ne.
  - intros c [H | ->%list_elem_of_singleton]%elem_of_app; [eauto | done].
  - intros id ai [[<- <-] | [_ H]]%lookup_insert_Some; [|eauto].
    fields. split; [done|]. destruct (Hfix agentId) as [_ <-]. done.
Qed.

Lemma sound_assignTask (now : N) (agentId : AgentId) (r : ref) (m : AgentManager) :
  sound true m -> limbo r m -> sound true (assignTask now agentId r m).
Proof.
  intros Hs Hl.
  destruct (assignTask_cases now agentId r m) as [[_ ->] | (Hc & a' & s & Hb & ->)];
    [done|].
  by eapply sound_start.
Qed.

Lemma sound_processTaskQueue (now u : N) (m : AgentManager) :
  sound true m -> sound true (processTaskQueue now u m).
Proof.
  intros Hs.
  destruct (processTaskQueue_cases now u m)
    as [-> | (r & rest & agentId & Hq & _ & ->)]; [done|].
  destruct (sound_shift true m r rest Hs Hq) as [Hs' Hl].
  by apply sound_assignTask.
Qed.

Lemma sound_addTask (now : N) (l : TaskLiteral) (suffix : string) (u : N)
    (m : AgentManager) :
  sound true m -> sound true (addTask now l suffix u m).
Proof.
  intros Hs. unfold addTask. apply sound_processTaskQueue.
  by apply (sound_push true m).
Qed.

Lemma sound_addTasks (now : N) (calls : list (TaskLiteral * string * N))
    (m : AgentManager) :
  sound true m -> sound true (addTasks now calls m).
Proof.
  revert m. induction calls as [|[[l s] u] calls IH]; intros m Hs; simpl; [done|].
  by apply IH, sound_addTask.
Qed.

Lemma sound_agentStatus (b : bool) (x : PerAgent string) (m : AgentManager) :
  sound b m -> sound b (with_agentStatus x m).
Proof. intros H. sound_inv H. constructor; fields; assumption. Qed.

Lemma sound_watchers (b : bool) (x : list Watcher) (n : nat) (m : AgentManager) :
  sound b m -> sound b (with_watchers x n m).
Proof. intros H. sound_inv H. constructor; fields; assumption. Qed.

Lemma sound_delete (b : bool) (id : string) (m : AgentManager) :
  sound b m -> sound b (with_activeTasks (delete id (activeTasks m)) m).
Proof.
  intros H. sound_inv H. constructor; fields; try assumption.
  - intros id' ai [_ H]%lookup_delete_Some. eauto.
  - intros id' ai [_ H]%lookup_delete_Some. eauto.
  - intros id' ai [_ H]%lookup_delete_Some. eauto.
Qed.

Lemma sound_modify (b : bool) (f : Task -> Task) (r : ref) (m : AgentManager) :
  (forall t, task_type (f t) = task_type t) ->
  sound b m -> sound b (with_heap (modify f r (heap m)) m).
Proof.
  intros Hf H. sound_inv H. constructor; fields; rewrite ?length_modify; try assumption.
  intros id ai H. rewrite (deref_modify_field task_type) by done. eauto.
Qed.

Lemma sound_watcher_tick (b : bool) (w : Watcher) (m : AgentManager) :
  sound b m -> sound b (watcher_tick w m).
Proof.
  intros Hs. unfold watcher_tick, clearInterval.
  destruct (activeTasks m !! w_taskId w) as [taskInfo|]; [|by apply sound_watchers].
  destruct (negb _); [by apply sound_watchers|].
  destruct (_ || _).
  - apply (sound_modify b); [done|]. apply (sound_delete b).
    apply sound_watchers. by apply (sound_modify b).
  - by apply (sound_modify b).
Qed.

Lemma sound_upload (b : bool) (now : N) (res : UploadResult) (m : AgentManager) :
  sound b m ->
  sound b (with_agents
             (put data (handleFileUpload_done now res (get (agents m) data)) (agents m)) m).
Proof.
  intros H.
  set (a' := handleFileUpload_done now res (get (agents m) data)).
  assert (Ha' : kind a' = kind (get (agents m) data)
                /\ capabilities a' = capabilities (get (agents m) data)
                /\ currentTask a' = currentTask (get (agents m) data)
                /\ (status a' = status (get (agents m) data) \/ status a' = "processing")).
  { subst a'. destruct res; simpl; auto. }
  clearbody a'. destruct Ha' as (Hk & Hc & Hcu & Hst).
  sound_inv H. constructor; fields; try assumption.
  - intros c Hc' Hw. rewrite get_put. case_decide as Hd; [|by apply Hbusy].
    destruct Hst as [-> | ->]; [|discriminate]. rewrite Hd. by apply Hbusy.
  - intros c Hc'. rewrite get_put. case_decide as Hd; [|by apply Hcur].
    rewrite Hcu, Hd. by apply Hcur.
  - intros a Ha. rewrite get_put. case_decide as Hd; [|by apply Hidle].
    rewrite Hcu, Hd. by apply Hidle.
  - intros a. rewrite get_put. case_decide as Hd; [|by apply Hfix].
    rewrite Hk, Hc, Hd. apply Hfix.
Qed.

(** Two suspended calls at different positions belong to different agents. *)
Lemma pending_positions (l : list Coroutine) (j k : nat) (c ck : Coroutine) :
  NoDup (co_agent <$> l) -> l !! k = Some ck -> l !! j = Some c -> j <> k ->
  co_agent c <> co_agent ck.
Proof.
  intros Hnd Hk Hj Hne Heq. apply Hne.
  eapply (NoDup_lookup _ j k (co_agent c) Hnd).
  - by rewrite list_lookup_fmap, Hj.
  - by rewrite list_lookup_fmap, Hk, Heq.
Qed.

Lemma elem_of_insert_co (l : list Coroutine) (k : nat) (ck x c : Coroutine) :
  NoDup (co_agent <$> l) -> l !! k = Some ck ->
  c ∈ <[k := x]> l -> c = x \/ (c ∈ l /\ co_agent c <> co_agent ck).
Proof.
  intros Hnd Hk [j Hj]%list_elem_of_lookup.
  apply list_lookup_insert_Some in Hj as [(_ & -> & _) | [Hne Hj]]; [by left|].
  right. split; [by eapply list_elem_of_lookup_2|].
  by eapply pending_positions.
Qed.

Lemma elem_of_insert_other (l : list Coroutine) (k : nat) (ck x c : Coroutine) :
  l !! k = Some ck -> c ∈ l -> co_agent c <> co_agent ck -> c ∈ <[k := x]> l.
Proof.
  intros Hk [j Hj]%list_elem_of_lookup Hne.
  apply list_elem_of_lookup. exists j. rewrite list_lookup_insert_ne; [done|].
  intros <-. rewrite Hk in Hj. by injection Hj as <-.
Qed.

(** A [delay] timer fires: the invariant survives, except that the agent may
    already be online while the end of its call is still queued. *)
Lemma sound_timer_fires (now : N) (k : nat) (o : Outcome) (m : AgentManager) :
  sound true m -> sound false (timer_fires now k o m).
Proof.
  intros Hs. unfold timer_fires.
  destruct (pending m !! k) as [[agentId r [i|err]]|] eqn:Hk;
    try by apply sound_weaken.
  pose proof (loop_resume_shape now (get (agents m) agentId) (deref (heap m) r) i o)
    as Hshape.
  destruct (loop_resume now (get (agents m) agentId) (deref (heap m) r) i o)
    as [a' s] eqn:Hres.
  simpl in Hshape. destruct Hshape as (Hkind & Hcaps & Hcurr & Hstat).
  assert (Hin : mkCo agentId r (SLoop i) ∈ pending m) by (by eapply list_elem_of_lookup_2).
  sound_inv Hs. constructor; fields; try assumption.
  - intros c [-> | [Hc _]]%(elem_of_insert_co _ _ _ _ _ Hpnd Hk); [|eauto].
    by apply (Hpa _ Hin).
  - intros c [-> | [Hc _]]%(elem_of_insert_co _ _ _ _ _ Hpnd Hk); [|eauto].
    by apply (Hqnp _ Hin).
  - rewrite list_fmap_insert. fields.
    rewrite list_insert_id; [done|]. by rewrite list_lookup_fmap, Hk.
  - intros c [-> | [Hc Hne]]%(elem_of_insert_co _ _ _ _ _ Hpnd Hk) Hw; fields.
    + rewrite get_put_eq. destruct s as [j|]; [|done].
      rewrite (Hstat j eq_refl). by apply (Hbusy _ Hin).
    + rewrite get_put_ne by (by intros ->). by apply Hbusy.
  - intros c [-> | [Hc Hne]]%(elem_of_insert_co _ _ _ _ _ Hpnd Hk); fields.
    + rewrite get_put_eq, Hcurr. by apply (Hcur _ Hin).
    + rewrite get_put_ne by (by intros ->). by apply Hcur.
  - intros a Ha.
    assert (agentId <> a).
    { intros <-. eapply (Ha (mkCo agentId r s)); [|done].
      apply list_elem_of_insert. by eapply lookup_lt_Some. }
    rewrite get_put_ne by done. apply Hidle. intros c Hc Heq.
    eapply (Ha c); [|done]. eapply elem_of_insert_other; [done..|].
    fields. congruence.
  - intros a. rewrite get_put. case_decide as Hd; [|by apply Hfix].
    rewrite Hkind, Hcaps, Hd. apply Hfix.
  - rewrite get_put_ne; [done|]. intros ->. by eapply (Hnoco _ Hin).
  - intros c [-> | [Hc _]]%(elem_of_insert_co _ _ _ _ _ Hpnd Hk); [|eauto].
    by apply (Hnoco _ Hin).
Qed.

Lemma find_co_unique (l : list Coroutine) (c : Coroutine) :
  NoDup (co_agent <$> l) -> c ∈ l ->
  find (fun c' => bool_decide (co_agent c' = co_agent c)) l = Some c.
Proof.
  induction l as [|x l IH]; intros Hnd Hin; [by apply elem_of_nil in Hin|].
  rewrite fmap_cons in Hnd. apply NoDup_cons in Hnd as [Hx Hnd]. simpl.
  apply elem_of_cons in Hin as [-> | Hin].
  - by rewrite bool_decide_eq_true_2.
  - rewrite bool_decide_eq_false_2; [by apply IH|].
    intros Heq. apply Hx. rewrite Heq. apply list_elem_of_fmap. eauto.
Qed.

Lemma find_co_None (l : list Coroutine) (a : AgentId) :
  (forall c, c ∈ l -> co_agent c <> a) ->
  find (fun c' => bool_decide (co_agent c' = a)) l = None.
Proof.
  intros H. apply find_None_all. intros c Hc. apply bool_decide_eq_false. eauto.
Qed.

(** The microtasks end every settled call and give back the full invariant. *)
Lemma sound_run_microtasks (b : bool) (now : N) (m : AgentManager) :
  sound b m -> sound true (run_microtasks now m).
Proof.
  intros Hs. unfold run_microtasks.
  destruct (foldl_finish_co_fields now (pending m) m) as (E1 & E2 & E3 & E4 & E5 & E6 & E7).
  sound_inv Hs.
  pose proof (fun a => foldl_finish_co_agents now (pending m) m a Hpnd) as Hag.
  constructor; fields; rewrite ?E1, ?E2, ?E4; try assumption.
  - intros c [_ Hc]%list_elem_of_filter. eauto.
  - intros c [_ Hc]%list_elem_of_filter. eauto.
  - eapply sublist_NoDup; [exact Hpnd|]. apply fmap_sublist, sublist_filter.
  - intros c [Hw Hc]%list_elem_of_filter _.
    rewrite Hag, (find_co_unique _ c Hpnd Hc).
    destruct c as [ag r [i|err]]; [|done]. apply (Hbusy _ Hc). by rewrite orb_true_r.
  - intros c [Hw Hc]%list_elem_of_filter.
    rewrite Hag, (find_co_unique _ c Hpnd Hc).
    destruct c as [ag r [i|err]]; [|done]. by apply (Hcur _ Hc).
  - intros a Ha. rewrite Hag.
    destruct (find _ (pending m)) as [[ag r [i|err]]|] eqn:Hf.
    + apply find_Some_elem in Hf as [Hin Heq%bool_decide_eq_true].
      exfalso. eapply (Ha _); [|exact Heq]. by apply list_elem_of_filter.
    + by destruct err.
    + apply Hidle. intros c Hc Heq.
      assert (Hf' := find_co_unique _ c Hpnd Hc). rewrite Heq in Hf'. congruence.
  - intros a. rewrite Hag.
    destruct (find _ (pending m)) as [[ag r [i|err]]|]; try apply Hfix.
    destruct (executeTask_finish_shape now (get (agents m) a) (deref (heap m) r) err)
      as (-> & -> & _). apply Hfix.
  - rewrite Hag, find_co_None; [done|]. intros c Hc. by apply Hnoco.
  - intros c [_ Hc]%list_elem_of_filter. eauto.
Qed.

Lemma sound_handle (ev : Event) (m : AgentManager) :
  sound true m -> sound false (handle ev m).
Proof.
  intros Hs. destruct ev as [now calls|now u|now h|now k o|now|now res]; simpl.
  - by apply sound_weaken, sound_addTasks.
  - apply sound_weaken, sound_processTaskQueue. by apply (sound_agentStatus true).
  - destruct (find _ _); apply sound_weaken; [by apply sound_watcher_tick | done].
  - by apply sound_timer_fires.
  - apply sound_weaken. by apply (sound_agentStatus true).
  - apply sound_weaken. by apply (sound_upload true).
Qed.

Lemma sound_step (m : AgentManager) (ev : Event) :
  sound true m -> sound true (step m ev).
Proof. intros Hs. unfold step. eapply sound_run_microtasks, sound_handle, Hs. Qed.

Lemma sound_run (m : AgentManager) (evs : list Event) :
  sound true m -> sound true (run m evs).
Proof.
  revert m. induction evs as [|ev evs IH]; intros m Hs; simpl; [done|].
  by apply IH, sound_step.
Qed.

Lemma reachable_sound (m : AgentManager) : reachable m -> sound true m.
Proof.
  induction 1; [|by apply sound_step].
  apply sound_step, sound_init.
Qed.

(** Between two macrotasks every suspended call waits for a timer. *)
Lemma reachable_waits (m : AgentManager) (c : Coroutine) :
  reachable m -> c ∈ pending m -> waits_for_timer c = true.
Proof.
  assert (H : forall m ev, c ∈ pending (step m ev) -> waits_for_timer c = true).
  { intros m' ev. unfold step, run_microtasks. fields.
    by intros [Hw _]%list_elem_of_filter. }
  destruct 1; apply H.
Qed.

Lemma reachable_run (m : AgentManager) (evs : list Event) :
  reachable m -> reachable (run m evs).
Proof.
  revert m. induction evs as [|ev evs IH]; intros m Hm; simpl; [done|].
  apply IH. by constructor.
Qed.

(** ** A task in limbo stays there *)

Lemma limbo_push (r : ref) (m : AgentManager) (t : Task) :
  limbo r m ->
  limbo r (with_taskQueue (taskQueue m ++ [length (heap m)])
             (with_heap (heap m ++ [t]) m)).
Proof.
  intros [Ha Hq Hact Hp Hc]. constructor; fields; try assumption.
  - rewrite length_app. lia.
  - intros [H | H%list_elem_of_singleton]%elem_of_app; [done | lia].
Qed.

Lemma limbo_assignTask (now : N) (agentId : AgentId) (r r' : ref) (m : AgentManager) :
  limbo r m -> r' <> r -> limbo r (assignTask now agentId r' m).
Proof.
  intros Hl Hne.
  destruct (assignTask_cases now agentId r' m) as [[_ ->] | (_ & a' & s & Hb & ->)];
    [done|].
  pose proof (executeTask_begin_shape now (get (agents m) agentId) r'
                (deref (heap m) r')) as Hshape.
  rewrite Hb in Hshape. simpl in Hshape. destruct Hshape as (_ & _ & Hcurr & _).
  destruct Hl as [Ha Hq Hact Hp Hc]. constructor; fields; try assumption.
  - intros id ai [[_ <-] | [_ H]]%lookup_insert_Some; [done | eauto].
  - intros c [H | ->%list_elem_of_singleton]%elem_of_app; [eauto | done].
  - intros a. rewrite get_put. case_decide; [|done]. rewrite Hcurr. congruence.
Qed.

Lemma limbo_processTaskQueue (now u : N) (r : ref) (m : AgentManager) :
  limbo r m -> limbo r (processTaskQueue now u m).
Proof.
  intros Hl.
  destruct (processTaskQueue_cases now u m)
    as [-> | (r' & rest & agentId & Hq & _ & ->)]; [done|].
  assert (r' <> r).
  { intros ->. apply (limbo_queue _ _ Hl). rewrite Hq. set_solver. }
  apply limbo_assignTask; [|done].
  destruct Hl as [Ha Hq' Hact Hp Hc]. constructor; fields; try assumption.
  rewrite Hq in Hq'. set_solver.
Qed.

Lemma limbo_addTasks (now : N) (calls : list (TaskLiteral * string * N)) (r : ref)
    (m : AgentManager) :
  limbo r m -> limbo r (addTasks now calls m).
Proof.
  revert m. induction calls as [|[[l s] u] calls IH]; intros m Hl; simpl; [done|].
  apply IH. unfold addTask. apply limbo_processTaskQueue.
  by apply (limbo_push r m).
Qed.

Lemma limbo_watcher_tick (w : Watcher) (r : ref) (m : AgentManager) :
  limbo r m -> limbo r (watcher_tick w m).
Proof.
  intros [Ha Hq Hact Hp Hc]. unfold watcher_tick, clearInterval.
  destruct (activeTasks m !! w_taskId w) as [taskInfo|]; [|by constructor].
  destruct (negb _); [by constructor|].
  destruct (_ || _); constructor; fields; rewrite ?length_modify; try assumption.
  intros id ai [_ H]%lookup_delete_Some. eauto.
Qed.

Lemma limbo_timer_fires (now : N) (k : nat) (o : Outcome) (r : ref)
    (m : AgentManager) :
  limbo r m -> limbo r (timer_fires now k o m).
Proof.
  intros Hl. unfold timer_fires.
  destruct (pending m !! k) as [[agentId r' [i|err]]|] eqn:Hk; try done.
  pose proof (loop_resume_shape now (get (agents m) agentId) (deref (heap m) r') i o)
    as Hshape.
  destruct (loop_resume now (get (agents m) agentId) (deref (heap m) r') i o)
    as [a' s] eqn:Hres.
  simpl in Hshape. destruct Hshape as (_ & _ & Hcurr & _).
  destruct Hl as [Ha Hq Hact Hp Hc]. constructor; fields; try assumption.
  - intros c [j Hj]%list_elem_of_lookup.
    apply list_lookup_insert_Some in Hj as [(_ & <- & _) | [_ Hj]].
    + apply (Hp (mkCo agentId r' (SLoop i))). by eapply list_elem_of_lookup_2.
    + apply Hp. by eapply list_elem_of_lookup_2.
  - intros a. rewrite get_put. case_decide as Hd; [|done]. rewrite Hcurr, Hd. apply Hc.
Qed.

Lemma foldl_finish_co_current (now : N) (cs : list Coroutine) (m : AgentManager)
    (r : ref) :
  (forall a, currentTask (get (agents m) a) <> Some r) ->
  forall a, currentTask (get (agents (foldl (finish_co now) m cs)) a) <> Some r.
Proof.
  revert m. induction cs as [|c cs IH]; intros m Hc; [done|].
  simpl. apply IH. intros a. unfold finish_co.
  destruct (co_susp c) as [i|err]; [done|]. fields.
  rewrite get_put. case_decide; [|done]. by destruct err.
Qed.

Lemma limbo_run_microtasks (now : N) (r : ref) (m : AgentManager) :
  limbo r m -> limbo r (run_microtasks now m).
Proof.
  intros [Ha Hq Hact Hp Hc]. unfold run_microtasks.
  destruct (foldl_finish_co_fields now (pending m) m) as (E1 & E2 & E3 & E4 & E5 & E6 & E7).
  constructor; fields; rewrite ?E1, ?E2, ?E4; try assumption.
  - intros c [_ H]%list_elem_of_filter. eauto.
  - by apply foldl_finish_co_current.
Qed.

Lemma limbo_handle (ev : Event) (r : ref) (m : AgentManager) :
  limbo r m -> limbo r (handle ev m).
Proof.
  intros Hl. destruct ev as [now calls|now u|now h|now k o|now|now res]; cbn [handle].
  - by apply limbo_addTasks.
  - apply limbo_processTaskQueue. destruct Hl. by constructor.
  - destruct (find _ _); [by apply limbo_watcher_tick | done].
  - by apply limbo_timer_fires.
  - destruct Hl. by constructor.
  - destruct Hl as [Ha Hq Hact Hp Hc]. constructor; fields; try assumption.
    intros a. rewrite get_put. case_decide as Hd; [|done].
    destruct res; apply Hc.
Qed.

Lemma limbo_later (r : ref) (m m' : AgentManager) :
  limbo r m -> later m m' -> limbo r m'.
Proof.
  intros Hl. induction 1; [done | by apply limbo_handle | by apply limbo_run_microtasks].
Qed.

Lemma later_step (m m' : AgentManager) (ev : Event) :
  later m m' -> later m (step m' ev).
Proof. intros H. unfold step. by apply later_microtasks, later_handle. Qed.

Lemma later_run (m m' : AgentManager) (evs : list Event) :
  later m m' -> later m (run m' evs).
Proof.
  revert m'. induction evs as [|ev evs IH]; intros m' H; simpl; [done|].
  by apply IH, later_step.
Qed.

(** ** Task ids in use *)

Lemma ids_ok_same (G : list string) (m m' : AgentManager) :
  taskQueue m' = taskQueue m -> activeTasks m' = activeTasks m -> heap m' = heap m ->
  ids_ok G m -> ids_ok G m'.
Proof.
  intros E1 E2 E3 [H1 H2 H3 H4].
  constructor; unfold pending_ids in *; rewrite ?E1, ?E2, ?E3; assumption.
Qed.

Lemma ids_ok_mono (G G' : list string) (m : AgentManager) :
  (forall g, g ∈ G -> g ∈ G') -> ids_ok G m -> ids_ok G' m.
Proof. intros HG [H1 H2 H3 H4]. constructor; auto. Qed.

Lemma ids_ok_init : ids_ok [] init_manager.
Proof.
  constructor; unfold pending_ids; simpl.
  - constructor.
  - intros id H. by apply elem_of_nil in H.
  - intros id H. by apply elem_of_nil in H.
  - intros id [x H]. by rewrite lookup_empty in H.
Qed.

Lemma pending_ids_push (b : bool) (m : AgentManager) (t : Task) :
  sound b m ->
  pending_ids (with_taskQueue (taskQueue m ++ [length (heap m)])
                 (with_heap (heap m ++ [t]) m))
  = (pending_ids m ++ [task_id t])%list.
Proof.
  intros Hs. unfold pending_ids. fields. rewrite fmap_app. simpl.
  rewrite deref_app_new. f_equal.
  apply list_fmap_ext. intros i r Hr.
  rewrite deref_app_l; [done|].
  apply (queue_alloc _ _ Hs). by eapply list_elem_of_lookup_2.
Qed.

Lemma ids_ok_push (b : bool) (G : list string) (m : AgentManager) (t : Task) :
  sound b m -> ids_ok G m -> task_id t ∉ G ->
  ids_ok (task_id t :: G)
    (with_taskQueue (taskQueue m ++ [length (heap m)]) (with_heap (heap m ++ [t]) m)).
Proof.
  intros Hs [H1 H2 H3 H4] Hg.
  constructor; rewrite ?(pending_ids_push b) by done; fields.
  - apply NoDup_app. split_and!; [done | | apply NoDup_singleton].
    intros id Hid ->%list_elem_of_singleton. auto.
  - intros id [Hid | ->%list_elem_of_singleton]%elem_of_app; [auto|].
    destruct (activeTasks m !! task_id t) eqn:E; [|done].
    exfalso. apply Hg, H4. by rewrite E.
  - intros id [Hid | ->%list_elem_of_singleton]%elem_of_app;
      [by apply list_elem_of_further, H3 | apply list_elem_of_here].
  - intros id Hid. by apply list_elem_of_further, H4.
Qed.

Lemma ids_ok_processTaskQueue (now u : N) (G : list string) (m : AgentManager) :
  ids_ok G m -> ids_ok G (processTaskQueue now u m).
Proof.
  intros Hok.
  destruct (processTaskQueue_cases now u m)
    as [-> | (r & rest & agentId & Hq & _ & ->)]; [done|].
  destruct Hok as [H1 H2 H3 H4]. unfold pending_ids in *. rewrite Hq in *.
  rewrite fmap_cons in *. apply NoDup_cons in H1 as [Hr Hnd].
  destruct (assignTask_cases now agentId r (with_taskQueue rest m))
    as [[_ ->] | (_ & a' & s & _ & ->)]; constructor; unfold pending_ids; fields;
    try assumption.
  - intros id Hid. by apply H2, list_elem_of_further.
  - intros id Hid. by apply H3, list_elem_of_further.
  - intros id Hid. rewrite lookup_insert_ne; [by apply H2, list_elem_of_further|].
    by intros <-.
  - intros id Hid. by apply H3, list_elem_of_further.
  - intros id [<- | [_ Hid]]%lookup_insert_is_Some.
    + apply H3, list_elem_of_here.
    + by apply H4.
Qed.

Lemma ids_ok_addTasks (now : N) (calls : list (TaskLiteral * string * N))
    (G : list string) (m : AgentManager) :
  sound true m -> ids_ok G m ->
  NoDup (call_ids now calls) -> (forall g, g ∈ call_ids now calls -> g ∉ G) ->
  ids_ok (call_ids now calls ++ G) (addTasks now calls m).
Proof.
  revert G m. induction calls as [|[[l s] u] calls IH]; intros G m Hs Hok Hnd Hfresh;
    simpl; [done|].
  unfold call_ids in Hnd, Hfresh. rewrite fmap_cons in Hnd, Hfresh. simpl in Hnd, Hfresh.
  apply NoDup_cons in Hnd as [Hg Hnd].
  eapply ids_ok_mono; [|apply (IH (generateTaskId now s :: G))].
  - unfold call_ids. rewrite ?fmap_cons. cbn [fst snd].
    intros g' [Hg' | [-> | Hg']%elem_of_cons]%elem_of_app.
    + apply list_elem_of_further, elem_of_app. by left.
    + apply list_elem_of_here.
    + apply list_elem_of_further, elem_of_app. by right.
  - by apply sound_addTask.
  - unfold addTask. apply ids_ok_processTaskQueue.
    apply (ids_ok_push true G m (new_task l (generateTaskId now s))); [done..|].
    apply Hfresh, list_elem_of_here.
  - done.
  - intros g Hin [-> | HG]%elem_of_cons; [done|].
    eapply Hfresh; [|done]. by apply list_elem_of_further.
Qed.

Lemma ids_ok_watcher_tick (G : list string) (w : Watcher) (m : AgentManager) :
  ids_ok G m -> ids_ok G (watcher_tick w m).
Proof.
  intros [H1 H2 H3 H4].
  assert (Hids : forall f g r r',
    (forall t, task_id (f t) = task_id t) -> (forall t, task_id (g t) = task_id t) ->
    (fun x => task_id (deref (modify g r' (modify f r (heap m))) x)) <$> taskQueue m
    = pending_ids m).
  { intros f g r r' Hf Hg. apply list_fmap_ext. intros i x _.
    by rewrite !(deref_modify_field task_id). }
  assert (Hids1 : forall f r, (forall t, task_id (f t) = task_id t) ->
    (fun x => task_id (deref (modify f r (heap m)) x)) <$> taskQueue m = pending_ids m).
  { intros f r Hf. apply list_fmap_ext. intros i x _.
    by rewrite !(deref_modify_field task_id). }
  unfold watcher_tick, clearInterval.
  destruct (activeTasks m !! w_taskId w) as [taskInfo|]; [|by constructor].
  destruct (negb _); [by constructor|].
  destruct (_ || _); constructor; unfold pending_ids; fields;
    rewrite ?Hids, ?Hids1 by done; try assumption.
  - intros id Hid. apply lookup_delete_None. auto.
  - intros id [x [_ Hid]%lookup_delete_Some]. apply H4. by rewrite Hid.
Qed.

Lemma ids_ok_step (ev : Event) (G : list string) (m : AgentManager) :
  sound true m -> ids_ok G m ->
  NoDup (event_ids ev) -> (forall g, g ∈ event_ids ev -> g ∉ G) ->
  ids_ok (event_ids ev ++ G) (step m ev).
Proof.
  intros Hs Hok Hnd Hfresh. unfold step.
  assert (Hh : ids_ok (event_ids ev ++ G) (handle ev m)).
  { destruct ev as [now calls|now u|now h|now k o|now|now res];
      cbn [handle event_ids app] in *.
    - by apply ids_ok_addTasks.
    - apply ids_ok_processTaskQueue. by apply (ids_ok_same G m).
    - destruct (find _ _); [by apply ids_ok_watcher_tick | done].
    - unfold timer_fires. destruct (pending m !! k) as [[agentId r [i|err]]|]; try done.
      destruct (loop_resume _ _ _ _ _). by apply (ids_ok_same G m).
    - by apply (ids_ok_same G m).
    - by apply (ids_ok_same G m). }
  unfold run_microtasks.
  destruct (foldl_finish_co_fields (event_time ev) (pending (handle ev m)) (handle ev m))
    as (E1 & E2 & E3 & E4 & E5 & E6 & E7).
  by apply (ids_ok_same _ (handle ev m)).
Qed.

Lemma ids_ok_run (evs : list Event) (G : list string) (m : AgentManager) :
  sound true m -> ids_ok G m ->
  NoDup (run_ids evs) -> (forall g, g ∈ run_ids evs -> g ∉ G) ->
  ids_ok (run_ids evs ++ G) (run m evs).
Proof.
  revert G m. induction evs as [|ev evs IH]; intros G m Hs Hok Hnd Hfresh; [done|].
  unfold run_ids in *. rewrite fmap_cons in *. simpl in Hnd, Hfresh. simpl.
  apply NoDup_app in Hnd as (Hnd1 & Hdisj & Hnd2).
  eapply ids_ok_mono; [|apply (IH (event_ids ev ++ G)%list)].
  - intros g [Hg | [Hg | Hg]%elem_of_app]%elem_of_app.
    + apply elem_of_app. left. apply elem_of_app. by right.
    + apply elem_of_app. left. apply elem_of_app. by left.
    + apply elem_of_app. by right.
  - by apply sound_step.
  - apply ids_ok_step; [done..|]. intros g Hg. apply Hfresh, elem_of_app. by left.
  - done.
  - intros g Hg [Hin | Hin]%elem_of_app.
    + by eapply Hdisj.
    + eapply Hfresh; [|done]. apply elem_of_app. by right.
Qed.

(** ** Reachable states *)

Lemma run_snoc (m : AgentManager) (evs : list Event) (ev : Event) :
  run m (evs ++ [ev]) = step (run m evs) ev.
Proof. unfold run. by rewrite foldl_app. Qed.

Lemma reachable_as_run (m : AgentManager) :
  reachable m <->
  exists now s1 s2 s3 u1 u2 u3 evs, m = run (AgentManager_new now s1 s2 s3 u1 u2 u3) evs.
Proof.
  split.
  - induction 1 as [now s1 s2 s3 u1 u2 u3 | m ev _ IH].
    + by exists now, s1, s2, s3, u1, u2, u3, [].
    + destruct IH as (now & s1 & s2 & s3 & u1 & u2 & u3 & evs & ->).
      exists now, s1, s2, s3, u1, u2, u3, (evs ++ [ev])%list. by rewrite run_snoc.
  - intros (now & s1 & s2 & s3 & u1 & u2 & u3 & evs & ->).
    apply reachable_run. constructor.
Qed.

Lemma with_pending_id (m : AgentManager) : with_pending (pending m) m = m.
Proof. by destruct m. Qed.

(** With no settled call there is no microtask to run. *)
Lemma run_microtasks_idle (now : N) (m : AgentManager) :
  (forall c, c ∈ pending m -> waits_for_timer c = true) -> run_microtasks now m = m.
Proof.
  intros Hw. unfold run_microtasks.
  assert (Hfold : forall cs m0, (forall c, c ∈ cs -> waits_for_timer c = true) ->
                    foldl (finish_co now) m0 cs = m0).
  { induction cs as [|c cs IH]; intros m0 Hcs; simpl; [done|].
    assert (Hc : waits_for_timer c = true) by (apply Hcs; set_solver).
    unfold finish_co at 2. unfold waits_for_timer in Hc.
    destruct (co_susp c); [|done]. apply IH. intros c' Hc'. apply Hcs. set_solver. }
  rewrite Hfold by done.
  assert (Hfil : forall cs : list Coroutine, (forall c, c ∈ cs -> waits_for_timer c = true) ->
                   filter (fun c => waits_for_timer c = true) cs = cs).
  { induction cs as [|c cs IH]; intros Hcs; [done|].
    rewrite filter_cons_True by (apply Hcs; set_solver).
    f_equal. apply IH. intros c' Hc'. apply Hcs. set_solver. }
  rewrite Hfil by done. apply with_pending_id.
Qed.

(** No agent other than the report agent lists ['report_generation']. *)
Lemma report_generation_owner (a : AgentId) :
  "report_generation" ∈ capabilities (get (agents init_manager) a) -> a = report.
Proof.
  destruct a; [| | |done]; simpl; intros H;
    repeat (apply elem_of_cons in H as [H | H]; [discriminate|]);
    by apply elem_of_nil in H.
Qed.

(** The completion test of the watcher reads [status] and [progress] from
    the value stored in [agentStatus], which is a string: the test never
    succeeds, so a tick never removes an entry of the active map and never
    writes the status of a task. *)
Lemma watcher_tick_inert (w : Watcher) (m : AgentManager) :
  activeTasks (watcher_tick w m) = activeTasks m
  /\ forall r, task_status (deref (heap (watcher_tick w m)) r)
               = task_status (deref (heap m) r).
Proof.
  unfold watcher_tick, clearInterval.
  destruct (activeTasks m !! w_taskId w) as [taskInfo|]; [|done].
  destruct (negb _); [done|].
  assert (Hs : strict_eq (get_prop (JString (get (agentStatus m) (w_agentId w))) "status")
                 (JString "idle") = false) by reflexivity.
  assert (Hp : strict_eq (get_prop (JString (get (agentStatus m) (w_agentId w))) "progress")
                 (JNumber 100) = false) by reflexivity.
  rewrite Hs, Hp. cbn [orb]. fields. split; [done|]. intros r.
  by apply (deref_modify_field task_status).
Qed.

(** ** Periodic dispatch *)

Lemma run_microtasks_fields (now : N) (m : AgentManager) :
  taskQueue (run_microtasks now m) = taskQueue m
  /\ activeTasks (run_microtasks now m) = activeTasks m
  /\ heap (run_microtasks now m) = heap m
  /\ agentStatus (run_microtasks now m) = agentStatus m
  /\ watchers (run_microtasks now m) = watchers m.
Proof.
  unfold run_microtasks. fields.
  destruct (foldl_finish_co_fields now (pending m) m) as (E1 & E2 & E3 & E4 & E5 & _).
  by rewrite E1, E2, E3, E4, E5.
Qed.

Lemma floor_random_one (u : N) : floor_random u 1 = 0.
Proof. pose proof (floor_random_lt u 1). lia. Qed.

(** When exactly one agent is online in the status map, it is the eligible
    set. *)
Lemma availableAgents_only (m : AgentManager) (a : AgentId) :
  (forall a', get (agentStatus m) a' = "online" <-> a' = a) ->
  availableAgents m = [a].
Proof.
  intros H. unfold availableAgents, agentIds.
  assert (Hyes : get (agentStatus m) a = "online") by (by apply H).
  assert (Hno : forall a', a' <> a -> get (agentStatus m) a' <> "online").
  { intros a' Hne Hon. by apply Hne, H. }
  destruct a;
    repeat (first [ rewrite filter_cons_True by assumption
                  | rewrite filter_cons_False by (apply Hno; discriminate) ]);
    reflexivity.
Qed.

Lemma availableAgents_none (m : AgentManager) :
  (forall a, get (agentStatus m) a <> "online") -> availableAgents m = [].
Proof.
  intros H. destruct (availableAgents m) as [|a av] eqn:Hav; [done|].
  exfalso. apply (H a), elem_of_availableAgents. rewrite Hav. apply list_elem_of_here.
Qed.

Lemma limbo_intro (r : ref) (m : AgentManager) :
  r < length (heap m) -> r ∉ taskQueue m -> r ∉ active_refs m ->
  r ∉ co_task <$> pending m ->
  (forall a, currentTask (get (agents m) a) <> Some r) ->
  limbo r m.
Proof.
  intros Ha Hq Hact Hp Hc. constructor; try assumption.
  - intros id ai H <-. apply Hact. unfold active_refs.
    apply list_elem_of_fmap. exists (id, ai). split; [done|].
    by apply elem_of_map_to_list.
  - intros c H <-. apply Hp, list_elem_of_fmap. eauto.
Qed.

(** ** A step that throws *)




(** ** Enqueueing *)

Lemma pretty_N_char_digit (x : N) : is_digit (pretty_N_char x) = true.
Proof. unfold pretty_N_char. by repeat case_match. Qed.

Lemma pretty_N_go_digits (x : N) (s : string) :
  all_digits s = true -> all_digits (pretty_N_go x s) = true.
Proof.
  revert s. induction (N.lt_wf_0 x) as [x _ IH]; intros s Hs.
  destruct (decide (0 < x)%N) as [Hx|Hx].
  - rewrite pretty_N_go_step by done. apply IH.
    + by apply N.div_lt.
    + simpl. by rewrite pretty_N_char_digit.
  - assert (x = 0%N) as -> by lia. by rewrite pretty_N_go_0.
Qed.

Lemma pretty_N_digits (x : N) : all_digits (pretty x) = true.
Proof.
  unfold pretty, pretty_N. case_decide; [done|]. by apply pretty_N_go_digits.
Qed.

(** A run of digits followed by an underscore can be read back in one way
    only. *)
Lemma digits_then_underscore (d1 d2 s1 s2 : string) :
  all_digits d1 = true -> all_digits d2 = true ->
  d1 +:+ String "_" s1 = d2 +:+ String "_" s2 -> d1 = d2 /\ s1 = s2.
Proof.
  revert d2. induction d1 as [|c d1 IH]; intros [|c' d2] H1 H2 Heq; simpl in *.
  - by injection Heq as ->.
  - injection Heq as <- _. by apply andb_true_iff in H2 as [H2 _].
  - injection Heq as -> _. by apply andb_true_iff in H1 as [H1 _].
  - injection Heq as -> Heq.
    apply andb_true_iff in H1 as [_ H1]. apply andb_true_iff in H2 as [_ H2].
    by destruct (IH d2 H1 H2 Heq) as [-> ->].
Qed.

Lemma generateTaskId_inj (now now' : N) (suffix suffix' : string) :
  generateTaskId now' suffix' = generateTaskId now suffix ->
  now' = now /\ suffix' = suffix.
Proof.
  unfold generateTaskId. intros Heq. simpl in Heq.
  injection Heq as Heq.
  apply digits_then_underscore in Heq as [Hn ->]; [|apply pretty_N_digits..].
  split; [|done]. by apply (inj pretty).
Qed.

Lemma heap_processTaskQueue (now u : N) (m : AgentManager) :
  heap (processTaskQueue now u m) = heap m.
Proof.
  destruct (processTaskQueue_cases now u m)
    as [-> | (r & rest & agentId & _ & _ & ->)]; [done|].
  by destruct (assignTask_cases now agentId r (with_taskQueue rest m))
    as [[_ ->] | (_ & a' & s & _ & ->)].
Qed.

Lemma taskQueue_processTaskQueue (now u : N) (m : AgentManager) :
  taskQueue (processTaskQueue now u m)
  = if decide (availableAgents m = []) then taskQueue m else tail (taskQueue m).
Proof.
  unfold processTaskQueue.
  destruct (taskQueue m) as [|r rest] eqn:Hq.
  { rewrite Hq. by case_decide. }
  destruct (availableAgents m) as [|k av] eqn:Hk.
  { by rewrite decide_True. }
  rewrite decide_False by done.
  destruct (selectBestAgent_is_Some (k :: av) u) as [agentId ->]; [done|].
  by destruct (assignTask_cases now agentId r (with_taskQueue rest m))
    as [[_ ->] | (_ & a' & s & _ & ->)].
Qed.

(** ** The status poll *)

Lemma list_sum_cons (x : nat) (l : list nat) : list_sum (x :: l) = x + list_sum l.
Proof. reflexivity. Qed.

Lemma count_li_renderTask (t : ServerTask) (statusLabel badgeClass : string) :
  count_li (renderTask t statusLabel badgeClass) = 1.
Proof.
  unfold renderTask.
  destruct (or_string (parameter t "dataset_type") None); reflexivity.
Qed.

Lemma rows_renderTask (ts : list ServerTask) (statusLabel badgeClass : string) :
  list_sum (map count_li (map (fun t => renderTask t statusLabel badgeClass) ts))
  = length ts.
Proof.
  induction ts as [|t ts IH]; [done|].
  rewrite !map_cons, list_sum_cons, count_li_renderTask, IH. done.
Qed.

Lemma length_slice_last {A} (n : nat) (l : list A) :
  length (slice_last n l) = min n (length l).
Proof. unfold slice_last. rewrite length_drop. lia. Qed.

Lemma rows_taskListMarkup (taskData : option TaskData) :
  list_sum (map count_li (taskListMarkup taskData))
  = match taskData with
    | Some td =>
        length (activeShown td) + length (queuedShown td) + length (completedShown td)
    | None => 0
    end.
Proof.
  destruct taskData as [td|]; [|done]. unfold taskListMarkup.
  destruct (activeShown td) as [|a la] eqn:Ha;
    destruct (queuedShown td) as [|q lq] eqn:Hq;
    destruct (completedShown td) as [|c lc] eqn:Hc;
    cbn [app]; rewrite ?map_cons, ?list_sum_cons;
    repeat match goal with
    | |- context [count_li (Element "ul" ?c ?r)] =>
        change (count_li (Element "ul" c r)) with (0 + list_sum (map count_li r))
    | |- context [count_li (Element "h6" ?c ?r)] =>
        change (count_li (Element "h6" c r)) with 0
    | |- context [count_li (Element "p" ?c ?r)] =>
        change (count_li (Element "p" c r)) with 0
    end;
    rewrite ?map_cons, ?list_sum_cons, ?rows_renderTask, ?count_li_renderTask;
    cbn [length map list_sum fold_right]; lia.
Qed.

(** * The properties stated by the specification *)

(** C1 (the code departs from it).  The data agent finishes its task at time
    6000 (progress 100, status ['online']), the monitor refreshes the status
    map at 7000, and the watcher of the task ticks at 6000 and 7000; at 7400
    the task is nevertheless still in the active map, not marked completed,
    and its watcher is still running: its later ticks change nothing. *)
Theorem C1_watcher_does_not_complete_task :
  progress (get (agents (run manager1000 first_seconds)) data) = 100%Z
  /\ status (get (agents (run manager1000 first_seconds)) data) = "online"
  /\ get (agentStatus (run manager1000 first_seconds)) data = "online"
  /\ activeTasks (run manager1000 first_seconds) !! "task_1000_aaaaaaaaa"
     = Some (mkActive data 0 3000)
  /\ task_status (deref (heap (run manager1000 first_seconds)) 0) = JUndefined
  /\ watchers (run manager1000 first_seconds)
     = [mkWatcher 0 "task_1000_aaaaaaaaa" data;
        mkWatcher 1 "task_1000_bbbbbbbbb" visualization]
  /\ step (run manager1000 first_seconds) (EvWatcher 8000 0)
     = run manager1000 first_seconds.
Proof.
  split_and!; vm_compute; reflexivity.
Qed.

(** C2. When the dispatcher has taken the head of the queue and the agent it
    selected fails the [canHandleTask] check, the only effect is that the
    task has left the queue; from then on, whatever the manager does, the
    task object is never in the pending queue again, never in the active map,
    never the task of a suspended execution and never the current task of an
    agent.  The hypothesis [sound true m] holds in every state in which
    [processTaskQueue] is called (lemmas [reachable_sound],
    [sound_agentStatus], [sound_push], [sound_addTasks]). *)
Theorem C2_failed_assignment_drops_task (now u : N) (m : AgentManager)
    (r : ref) (rest : list ref) (agentId : AgentId) :
  sound true m ->
  taskQueue m = r :: rest ->
  selectBestAgent (availableAgents m) u = Some agentId ->
  canHandleTask (get (agents m) agentId) (deref (heap m) r) = false ->
  processTaskQueue now u m = with_taskQueue rest m
  /\ forall m', later (processTaskQueue now u m) m' -> limbo r m'.
Proof.
  intros Hs Hq Hsel Hcan.
  assert (Heq : processTaskQueue now u m = with_taskQueue rest m).
  { unfold processTaskQueue. rewrite Hq.
    destruct (availableAgents m) as [|k av] eqn:Hav.
    { unfold selectBestAgent in Hsel. by rewrite lookup_nil in Hsel. }
    rewrite Hsel. unfold assignTask. fields. by rewrite Hcan. }
  split; [done|]. intros m' Hlater. rewrite Heq in Hlater.
  eapply limbo_later; [|done]. by apply (sound_shift true m r rest).
Qed.

Lemma C2_witness :
  let m := updateAgentStatuses (AgentManager_new 1000 "aaaaaaaaa" "bbbbbbbbb" "ccccccccc" 0 0 0) in
  processTaskQueue 3000 (2 ^ 52) m = with_taskQueue [1; 2] m
  /\ limbo 0 (run (processTaskQueue 3000 (2 ^ 52) m) [EvMonitor 5000 0; EvTimer 5600 0 Normal]).
Proof.
  intros m.
  destruct (C2_failed_assignment_drops_task 3000 (2 ^ 52) m 0 [1; 2] analysis)
    as [H1 H2].
  - apply (sound_agentStatus true), reachable_sound, reach_new.
  - reflexivity.
  - vm_compute. reflexivity.
  - vm_compute. reflexivity.
  - split; [exact H1|]. apply H2, later_run, later_now.
Defined.

(** C3. [canHandleTask(task)] is true exactly when the type of the task is
    among the capabilities of the agent and the status of the agent is
    ['online']; hence it is false for every agent whose status is not
    ['online'], whatever its capabilities.  The method has the same text in
    both copies of the script; its embedding is a function to [bool] that
    returns no state, which is its purity. *)
Theorem C3_canHandleTask_iff (a : Agent) (t : Task) :
  (canHandleTask a t = true <-> task_type t ∈ capabilities a /\ status a = "online")
  /\ (status a <> "online" -> canHandleTask a t = false).
Proof.
  split; [apply canHandleTask_true|].
  intros Hoff. apply not_true_is_false. by intros [_ Hon]%canHandleTask_true.
Qed.

Lemma C3_witness :
  status ReportAgent <> "online"
  /\ task_type (new_task (lit "Create Analysis Report" "report_generation" "low") "task_1_x")
       ∈ capabilities ReportAgent
  /\ canHandleTask ReportAgent
       (new_task (lit "Create Analysis Report" "report_generation" "low") "task_1_x")
     = false.
Proof.
  split; [discriminate|]. split; [apply list_elem_of_here|].
  apply (proj2 (C3_canHandleTask_iff ReportAgent _)). discriminate.
Defined.




(** C5 (as amended).  In every state reached by the manager no task object
    is both in the pending queue and in an entry of the active map; and, as
    long as [generateTaskId] has not returned the same id twice, no id of a
    pending task is a key of the active map. *)
Theorem C5_pending_and_active_disjoint (now : N) (s1 s2 s3 : string)
    (u1 u2 u3 : N) (evs : list Event) :
  let m := run (AgentManager_new now s1 s2 s3 u1 u2 u3) evs in
  (forall r id ai, r ∈ taskQueue m -> activeTasks m !! id = Some ai -> ai_task ai <> r)
  /\ (NoDup (generateTaskId now s1 :: generateTaskId now s2 :: generateTaskId now s3
               :: run_ids evs) ->
      spec_pending_or_active m).
Proof.
  intros m. split.
  - assert (Hs : sound true m) by (apply sound_run, sound_step, sound_init).
    intros r id ai Hr Hact <-. by eapply (queue_not_active _ _ Hs).
  - intros Hnd r Hr.
    pose proof (ids_ok_run
      (EvAddTasks now (initializeTaskQueue s1 s2 s3 u1 u2 u3) :: evs) [] init_manager
      sound_init ids_ok_init) as Hok.
    unfold run_ids in Hok. rewrite fmap_cons in Hok. simpl in Hok.
    specialize (Hok Hnd). apply (ids_not_active _ _ (Hok ltac:(set_solver))).
    unfold pending_ids. apply list_elem_of_fmap. by exists r.
Qed.

Lemma C5_witness :
  NoDup (generateTaskId 1000 "aaaaaaaaa" :: generateTaskId 1000 "bbbbbbbbb"
           :: generateTaskId 1000 "ccccccccc" :: run_ids tick_then_upload)
  /\ 3 ∈ taskQueue (run manager1000 tick_then_upload)
  /\ activeTasks (run manager1000 tick_then_upload)
       !! task_id (deref (heap (run manager1000 tick_then_upload)) 3) = None.
Proof.
  assert (Hnd : NoDup (generateTaskId 1000 "aaaaaaaaa" :: generateTaskId 1000 "bbbbbbbbb"
                         :: generateTaskId 1000 "ccccccccc" :: run_ids tick_then_upload)).
  { apply (bool_decide_unpack _). vm_compute. exact I. }
  assert (Hin : 3 ∈ taskQueue (run manager1000 tick_then_upload)).
  { vm_compute. apply list_elem_of_further, list_elem_of_here. }
  split; [exact Hnd|]. split; [exact Hin|].
  exact (proj2 (C5_pending_and_active_disjoint 1000 "aaaaaaaaa" "bbbbbbbbb" "ccccccccc"
                  0 0 0 tick_then_upload) Hnd 3 Hin).
Defined.

(** C5, as stated, fails: [generateTaskId] builds an id from the time and a
    random suffix and nothing keeps it from returning the same id again.  The
    three tasks of the constructor are created at time 1000 with the same
    suffix; the first tick records the first of them in the active map under
    that id, which is also the id of the two tasks still pending. *)
Lemma C5_counterexample :
  reachable same_suffix_tick
  /\ taskQueue same_suffix_tick = [1; 2]
  /\ task_id (deref (heap same_suffix_tick) 1) = "task_1000_aaaaaaaaa"
  /\ activeTasks same_suffix_tick !! "task_1000_aaaaaaaaa" = Some (mkActive data 0 3000)
  /\ ~ spec_pending_or_active same_suffix_tick.
Proof.
  assert (Hq : taskQueue same_suffix_tick = [1; 2]) by (vm_compute; reflexivity).
  assert (Hid : task_id (deref (heap same_suffix_tick) 1) = "task_1000_aaaaaaaaa")
    by (vm_compute; reflexivity).
  assert (Hact : activeTasks same_suffix_tick !! "task_1000_aaaaaaaaa"
                 = Some (mkActive data 0 3000)) by (vm_compute; reflexivity).
  split; [apply reachable_run, reach_new|].
  split; [exact Hq|]. split; [exact Hid|]. split; [exact Hact|].
  intros H. specialize (H 1). rewrite Hq, Hid, Hact in H.
  specialize (H (list_elem_of_here _ _)). discriminate.
Qed.




(** C7 (as amended).  [addTask] gives the new task object the id
    ['task_' + time + '_' + suffix], and different pairs of a time and a
    suffix give different ids; the object is appended to the end of the
    pending sequence.  In the script that has the progress watcher, the call
    then runs a dispatch cycle itself: [addTask] is the [addTask] of the older
    copy followed by [processTaskQueue], so that, when the status map shows an
    agent online, the head of the sequence has already been dequeued when the
    call returns.  In the older copy [addTask] stops after appending. *)
Theorem C7_enqueue_then_dispatch (now : N) (l : TaskLiteral) (suffix : string)
    (u : N) (m : AgentManager) :
  deref (heap (addTask now l suffix u m)) (length (heap m))
    = new_task l ("task_" ++ pretty now ++ "_" ++ suffix)
  /\ (forall now' suffix',
        generateTaskId now' suffix' = generateTaskId now suffix ->
        now' = now /\ suffix' = suffix)
  /\ taskQueue (Legacy.addTask now l suffix m) = (taskQueue m ++ [length (heap m)])%list
  /\ activeTasks (Legacy.addTask now l suffix m) = activeTasks m
  /\ agents (Legacy.addTask now l suffix m) = agents m
  /\ addTask now l suffix u m = processTaskQueue now u (Legacy.addTask now l suffix m)
  /\ (availableAgents m <> [] ->
        taskQueue (addTask now l suffix u m) = tail (taskQueue m ++ [length (heap m)]))
  /\ (availableAgents m = [] ->
        addTask now l suffix u m = Legacy.addTask now l suffix m).
Proof.
  split_and!; try reflexivity.
  - unfold addTask. rewrite heap_processTaskQueue. fields. apply deref_app_new.
  - intros now' suffix'. apply generateTaskId_inj.
  - intros Hav. change (addTask now l suffix u m)
      with (processTaskQueue now u (Legacy.addTask now l suffix m)).
    rewrite taskQueue_processTaskQueue.
    change (availableAgents (Legacy.addTask now l suffix m)) with (availableAgents m).
    by rewrite decide_False.
  - intros Hav. change (addTask now l suffix u m)
      with (processTaskQueue now u (Legacy.addTask now l suffix m)).
    unfold processTaskQueue.
    change (availableAgents (Legacy.addTask now l suffix m)) with (availableAgents m).
    rewrite Hav. by destruct (taskQueue _).
Qed.

Lemma C7_witness :
  availableAgents (run manager1000 first_seconds) <> []
  /\ taskQueue (run manager1000 first_seconds) = []
  /\ taskQueue (addTask 7500 (uploadCSV_task "thesis.csv") "ddddddddd" 0
                  (run manager1000 first_seconds)) = [].
Proof.
  assert (Hav : availableAgents (run manager1000 first_seconds) <> []).
  { vm_compute. discriminate. }
  assert (Hq : taskQueue (run manager1000 first_seconds) = []).
  { vm_compute. reflexivity. }
  destruct (C7_enqueue_then_dispatch 7500 (uploadCSV_task "thesis.csv") "ddddddddd" 0
              (run manager1000 first_seconds)) as (_ & _ & _ & _ & _ & _ & H7 & _).
  split; [exact Hav|]. split; [exact Hq|].
  rewrite (H7 Hav), Hq. reflexivity.
Defined.

(** C7, as stated, fails for the older copy: its status map shows three
    agents online and a task is already pending, yet [addTask] returns with
    the pending sequence only extended and the active map untouched; the
    dispatch cycle that the claim expects in the same call would have dequeued
    the head. *)
Lemma C7_counterexample :
  availableAgents legacy1000 = [data; analysis; visualization]
  /\ taskQueue legacy1000 = [1; 2]
  /\ taskQueue (Legacy.addTask 3200 (lit "Initialize Data Pipeline" "data_processing" "high")
                  "ddddddddd" legacy1000) = [1; 2; 3]
  /\ activeTasks (Legacy.addTask 3200 (lit "Initialize Data Pipeline" "data_processing" "high")
                    "ddddddddd" legacy1000) = activeTasks legacy1000
  /\ taskQueue (Legacy.processTaskQueue 3200 (2 ^ 53 - 1)
                  (Legacy.addTask 3200 (lit "Initialize Data Pipeline" "data_processing" "high")
                     "ddddddddd" legacy1000)) = [2; 3].
Proof.
  split_and!; vm_compute; reflexivity.
Qed.

(** C8 (as amended).  Every dispatch cycle dequeues at most the head of the
    pending sequence, so that tasks leave it in their order, one per cycle.
    A periodic dispatch cycle refreshes the status map first: an agent whose
    own status is not ['online'] is not eligible in that cycle and is left as
    it is; if no agent is online nothing is dequeued; and if exactly one
    agent is online and it supports the type of the head, the head is
    recorded in the active map under that agent. *)
Theorem C8_periodic_dispatch_in_order (m : AgentManager) (now u : N) :
  reachable m ->
  (forall now' u' m',
     taskQueue (processTaskQueue now' u' m') = taskQueue m'
     \/ taskQueue (processTaskQueue now' u' m') = tail (taskQueue m'))
  /\ (taskQueue (step m (EvMonitor now u)) = taskQueue m
      \/ exists r, taskQueue m = r :: taskQueue (step m (EvMonitor now u)))
  /\ (forall a, status (get (agents m) a) <> "online" ->
        (a ∉ availableAgents (updateAgentStatuses m))
        /\ get (agents (step m (EvMonitor now u))) a = get (agents m) a)
  /\ ((forall a, status (get (agents m) a) <> "online") ->
        taskQueue (step m (EvMonitor now u)) = taskQueue m)
  /\ (forall a r rest,
        taskQueue m = r :: rest ->
        (forall a', status (get (agents m) a') = "online" <-> a' = a) ->
        task_type (deref (heap m) r) ∈ capabilities (get (agents m) a) ->
        taskQueue (step m (EvMonitor now u)) = rest
        /\ activeTasks (step m (EvMonitor now u))
           = <[task_id (deref (heap m) r) := mkActive a r now]> (activeTasks m)).
Proof.
  intros Hreach. pose proof (reachable_sound m Hreach) as Hs.
  unfold step. cbn [handle event_time].
  set (m1 := updateAgentStatuses m).
  assert (Hs1 : sound true m1) by (by apply (sound_agentStatus true)).
  assert (Hmirror : forall a, get (agentStatus m1) a = status (get (agents m) a)).
  { intros a. unfold m1, updateAgentStatuses. fields. by rewrite get_per_map. }
  destruct (run_microtasks_fields now (processTaskQueue now u m1)) as (Eq & Ea & _).
  rewrite Eq, Ea. split_and!.
  - intros now' u' m'. rewrite taskQueue_processTaskQueue. case_decide; auto.
  - destruct (processTaskQueue_cases now u m1)
      as [-> | (r & rest & agentId & Hq & _ & ->)]; [by left|].
    right. exists r.
    destruct (assignTask_cases now agentId r (with_taskQueue rest m1))
      as [[_ ->] | (_ & a' & s & _ & ->)]; exact Hq.
  - intros a Hoff. split.
    { rewrite elem_of_availableAgents, Hmirror. done. }
    pose proof (sound_processTaskQueue now u m1 Hs1) as Hs2.
    unfold run_microtasks. fields.
    rewrite (foldl_finish_co_agents now _ _ a (pending_nodup _ _ Hs2)).
    assert (Hwait : forall c, c ∈ pending m1 -> waits_for_timer c = true).
    { intros c Hc. by apply (reachable_waits m _ Hreach). }
    destruct (processTaskQueue_cases now u m1)
      as [-> | (r & rest & agentId & Hq & Hsel & ->)].
    + destruct (find _ _) as [[ag r [i|err]]|] eqn:Hf; try done.
      apply find_Some_elem in Hf as [Hin _]. by apply Hwait in Hin.
    + assert (Hne : agentId <> a).
      { intros ->. apply selectBestAgent_elem_of, elem_of_availableAgents in Hsel.
        by rewrite Hmirror in Hsel. }
      destruct (assignTask_cases now agentId r (with_taskQueue rest m1))
        as [[_ ->] | (_ & a' & s & _ & ->)]; fields.
      * destruct (find _ _) as [[ag r' [i|err]]|] eqn:Hf; try done.
        apply find_Some_elem in Hf as [Hin _]. by apply Hwait in Hin.
      * rewrite get_put_ne by done.
        destruct (find _ _) as [[ag r' [i|err]]|] eqn:Hf; try done.
        apply find_Some_elem in Hf as [Hin Hag%bool_decide_eq_true].
        apply elem_of_app in Hin as [Hin | Hin%list_elem_of_singleton].
        -- by apply Hwait in Hin.
        -- injection Hin as -> _ _. done.
  - intros Hnone. unfold processTaskQueue.
    rewrite availableAgents_none by (intros a; rewrite Hmirror; apply Hnone).
    by destruct (taskQueue m1).
  - intros a r rest Hq Honly Hcap.
    unfold processTaskQueue. change (taskQueue m1) with (taskQueue m). rewrite Hq.
    rewrite (availableAgents_only m1 a) by (intros a'; rewrite Hmirror; apply Honly).
    unfold selectBestAgent. rewrite floor_random_one. cbn [lookup list_lookup length].
    destruct (assignTask_cases now a r (with_taskQueue rest m1))
      as [[Hcan _] | (_ & a' & s & _ & ->)]; [|done].
    exfalso. apply not_true_iff_false in Hcan. apply Hcan, canHandleTask_true.
    split; [exact Hcap | by apply Honly].
Qed.

Lemma C8_witness :
  reachable manager1000
  /\ status (get (agents manager1000) report) <> "online"
  /\ get (agents (step manager1000 (EvMonitor 3000 0))) report
     = get (agents manager1000) report.
Proof.
  assert (Hr : reachable manager1000) by apply reach_new.
  assert (Hoff : status (get (agents manager1000) report) <> "online") by discriminate.
  destruct (C8_periodic_dispatch_in_order manager1000 3000 0 Hr) as (_ & _ & H2 & _).
  split; [exact Hr|]. split; [exact Hoff|]. exact (proj2 (H2 report Hoff)).
Defined.

(** C8, as stated, fails: the data agent is online and is the only agent that
    supports ['data_processing']; three such tasks are enqueued one after the
    other.  The first is started; the second and the third are dequeued at
    once, offered to the agent that has just become busy, and lost: they are
    neither pending nor active afterwards, and never will be. *)
Lemma C8_counterexample :
  status (get (agents (run manager1000 first_seconds)) data) = "online"
  /\ taskQueue (run manager1000 first_seconds) = []
  /\ taskQueue (run (run manager1000 first_seconds) three_uploads) = []
  /\ active_refs (run (run manager1000 first_seconds) three_uploads) = [3; 0; 1]
  /\ task_name (deref (heap (run (run manager1000 first_seconds) three_uploads)) 4)
     = "Upload: b.csv"
  /\ task_name (deref (heap (run (run manager1000 first_seconds) three_uploads)) 5)
     = "Upload: c.csv"
  /\ (forall m', later (run (run manager1000 first_seconds) three_uploads) m' ->
        limbo 4 m' /\ limbo 5 m').
Proof.
  split_and!; try (vm_compute; reflexivity).
  assert (H4 : limbo 4 (run (run manager1000 first_seconds) three_uploads)).
  { apply limbo_intro.
    - vm_compute. lia.
    - vm_compute. apply not_elem_of_nil.
    - apply (bool_decide_unpack _). vm_compute. exact I.
    - apply (bool_decide_unpack _). vm_compute. exact I.
    - intros []; vm_compute; discriminate. }
  assert (H5 : limbo 5 (run (run manager1000 first_seconds) three_uploads)).
  { apply limbo_intro.
    - vm_compute. lia.
    - vm_compute. apply not_elem_of_nil.
    - apply (bool_decide_unpack _). vm_compute. exact I.
    - apply (bool_decide_unpack _). vm_compute. exact I.
    - intros []; vm_compute; discriminate. }
  intros m' Hl. split; by eapply limbo_later.
Qed.

Section StatusPoll.
Context `{Platform}.

Lemma rows_renderLog (ls : list LogItem) :
  list_sum (map count_li (map renderLog ls)) = length ls.
Proof.
  induction ls as [|l ls IH]; [done|].
  rewrite !map_cons, list_sum_cons, IH. reflexivity.
Qed.

Lemma rows_logsMarkup (logs : list LogItem) :
  list_sum (map count_li (logsMarkup logs)) = min 10 (length logs).
Proof.
  destruct logs as [|l logs]; [done|]. unfold logsMarkup.
  rewrite map_cons, list_sum_cons.
  change (count_li (Element "ul" "list-unstyled mb-0"
                      (map renderLog (logsShown (l :: logs)))))
    with (0 + list_sum (map count_li (map renderLog (logsShown (l :: logs))))).
  rewrite rows_renderLog. unfold logsShown.
  rewrite length_reverse, length_slice_last. simpl. lia.
Qed.

(** C9. Rendering a pair of responses a second time leaves the two elements
    exactly as the first rendering left them; the task list shows one row
    for each task that the response selects (the active ones, the first five
    queued ones, the last five completed ones) and the log list one row for
    each of the last ten log entries, however often the same responses are
    rendered. *)
Theorem C9_status_poll_idempotent (agentData : option AgentData)
    (taskData : option TaskData) (d : Display) :
  renderStatusPoll agentData taskData (renderStatusPoll agentData taskData d)
  = renderStatusPoll agentData taskData d
  /\ rows (analysisTaskList
             (renderStatusPoll agentData taskData (renderStatusPoll agentData taskData d)))
     = match analysisTaskList d, taskData with
       | Some _, Some td =>
           length (activeShown td) + length (queuedShown td)
           + length (completedShown td)
       | _, _ => 0
       end
  /\ rows (analysisLogs
             (renderStatusPoll agentData taskData (renderStatusPoll agentData taskData d)))
     = match analysisLogs d with
       | Some _ => min 10 (length (default [] (agentData ≫= recent_logs)))
       | None => 0
       end.
Proof.
  assert (Hidem : renderStatusPoll agentData taskData
                    (renderStatusPoll agentData taskData d)
                  = renderStatusPoll agentData taskData d).
  { unfold renderStatusPoll, renderAnalysisLogs, renderAnalysisTaskList.
    by destruct d as [[tl|] [lg|]]. }
  rewrite Hidem. split; [done|].
  unfold renderStatusPoll, renderAnalysisLogs, renderAnalysisTaskList.
  destruct d as [[tl|] [lg|]]; cbn [analysisTaskList analysisLogs rows];
    rewrite ?rows_taskListMarkup, ?rows_logsMarkup; by destruct taskData.
Qed.

End StatusPoll.

(** C10. The report agent is created ['offline'] and stays so in every
    reachable state; no agent can then handle a task of type
    ['report_generation'], no entry of the active map ever holds such a task,
    and a periodic dispatch cycle that finds one at the head of the queue
    either leaves it queued (no agent is online) or drops it. *)
Theorem C10_report_generation_never_assigned (m : AgentManager) :
  reachable m ->
  status (get (agents m) report) = "offline"
  /\ (forall a t, task_type t = "report_generation" ->
        canHandleTask (get (agents m) a) t = false)
  /\ (forall id ai, activeTasks m !! id = Some ai ->
        task_type (deref (heap m) (ai_task ai)) <> "report_generation")
  /\ (forall now u r rest,
        taskQueue m = r :: rest ->
        task_type (deref (heap m) r) = "report_generation" ->
        step m (EvMonitor now u) = updateAgentStatuses m
        \/ step m (EvMonitor now u) = with_taskQueue rest (updateAgentStatuses m)).
Proof.
  intros Hreach. pose proof (reachable_sound m Hreach) as Hs.
  assert (Hcan : forall a t, task_type t = "report_generation" ->
                   canHandleTask (get (agents m) a) t = false).
  { intros a t Ht. apply not_true_is_false. intros [Hcap Hon]%canHandleTask_true.
    rewrite Ht in Hcap. destruct (agents_fixed _ _ Hs a) as [_ Hcaps].
    rewrite Hcaps in Hcap. apply report_generation_owner in Hcap as ->.
    rewrite (report_offline _ _ Hs) in Hon. discriminate. }
  split_and!.
  - apply (report_offline _ _ Hs).
  - exact Hcan.
  - intros id ai Hact Ht. destruct (active_owner _ _ Hs id ai Hact) as [Hne Hcap].
    rewrite Ht in Hcap. by apply report_generation_owner in Hcap.
  - intros now u r rest Hq Ht. unfold step. cbn [handle event_time].
    set (m1 := updateAgentStatuses m).
    assert (Hidle : forall m2, pending m2 = pending m -> run_microtasks now m2 = m2).
    { intros m2 Hp. apply run_microtasks_idle. rewrite Hp. intros c Hc.
      by eapply reachable_waits. }
    destruct (processTaskQueue_cases now u m1)
      as [-> | (r' & rest' & agentId & Hq' & _ & ->)].
    + left. by apply Hidle.
    + right. change (taskQueue m1) with (taskQueue m) in Hq'.
      rewrite Hq in Hq'. injection Hq' as <- <-.
      subst m1. unfold assignTask, updateAgentStatuses. fields.
      rewrite (Hcan agentId _ Ht). by apply Hidle.
Qed.

Lemma C10_witness :
  reachable manager1000
  /\ status (get (agents manager1000) report) = "offline"
  /\ step manager1000 (EvMonitor 3000 0) <> manager1000.
Proof.
  pose proof (C10_report_generation_never_assigned manager1000
                (reach_new 1000 "aaaaaaaaa" "bbbbbbbbb" "ccccccccc" 0 0 0))
    as (H1 & _ & _ & _).
  split; [apply reach_new|]. split; [exact H1|].
  intros H. apply (f_equal taskQueue) in H. vm_compute in H. discriminate.
Defined.

(** * Further properties of the code *)

(** ** A whole [executeTask] call *)

Lemma step_size_pos (k : AgentKind) : k <> KBase -> (0 < step_size k)%Z.
Proof. by destruct k. Qed.

Lemma main_type_not_base (k : AgentKind) (ty : string) :
  Some ty = main_type k -> k <> KBase.
Proof. by destruct k. Qed.

(** A loop that has room for [length times] more iterations is still
    suspended after that many timers. *)
Lemma resume_loop_normally (times : list N) (now : N) (a : Agent) (t : Task) (i : Z) :
  kind a <> KBase ->
  (i + step_size (kind a) * Z.of_nat (length times) <= 100)%Z ->
  exists fin a',
    resume_loop now a t (SLoop i) (normally times) =
      (fin, a', SLoop (i + step_size (kind a) * Z.of_nat (length times)))
    /\ fin = default now (last times)
    /\ kind a' = kind a /\ capabilities a' = capabilities a
    /\ status a' = status a /\ currentTask a' = currentTask a
    /\ (times <> [] -> progress a' = (i + step_size (kind a) * Z.of_nat (length times))%Z)
    /\ (times = [] -> a' = a)
    /\ length (logs a') = length (logs a) + length times.
Proof.
  intros Hk. revert now a i Hk.
  induction times as [|n times IH]; intros now a i Hk Hroom.
  - exists now, a. simpl. rewrite Z.mul_0_r, Z.add_0_r. split_and!; try done.
  - pose proof (step_size_pos _ Hk) as Hpos.
    cbn [normally fmap list_fmap resume_loop]. fold (normally times).
    unfold loop_resume. cbv zeta.
    assert (Hle : (i + step_size (kind a) <=? 100)%Z = true).
    { apply Z.leb_le. cbn [length] in Hroom. nia. }
    rewrite Hle.
    set (a1 := set_progress (i + step_size (kind a))
                 (log n (step_message (kind a) t i) "info" a)).
    assert (Hk1 : kind a1 = kind a) by reflexivity.
    destruct (IH n a1 (i + step_size (kind a))%Z) as (fin & a' & Hres & Hfin & Hk' & Hc' & Hs' & Hcur' & Hp' & Hnil & Hl').
    { by rewrite Hk1. }
    { rewrite Hk1. cbn [length] in Hroom. lia. }
    exists fin, a'. rewrite Hres, Hk1.
    assert (Harith : (i + step_size (kind a) + step_size (kind a) * Z.of_nat (length times)
                      = i + step_size (kind a) * Z.of_nat (length (n :: times)))%Z).
    { cbn [length]. lia. }
    rewrite Harith. split_and!; try done.
    + rewrite Hfin. rewrite last_cons. by destruct (last times).
    + intros _. destruct times as [|n' times'].
      * rewrite (Hnil eq_refl). subst a1. cbn [progress set_progress length]. lia.
      * rewrite Hp' by done. rewrite Hk1. exact Harith.
    + rewrite Hl'. subst a1. cbn [logs set_progress log]. rewrite length_app.
      cbn [length]. lia.
Qed.

Lemma resume_loop_snoc (timers : list (N * Outcome)) (n : N) (o : Outcome)
    (now : N) (a : Agent) (t : Task) (s : Susp) :
  resume_loop now a t s (timers ++ [(n, o)])
  = match resume_loop now a t s timers with
    | (fin, a', SLoop i) => let '(a'', s') := loop_resume n a' t i o in (n, a'', s')
    | other => other
    end.
Proof.
  revert now a s. induction timers as [|[n0 o0] timers IH]; intros now a s.
  - cbn [app resume_loop]. destruct s as [i|err]; [|done].
    destruct (loop_resume n a t i o) as [a' [j|e]]; reflexivity.
  - cbn [app resume_loop]. destruct s as [i|err]; [|done].
    destruct (loop_resume n0 a t i o0) as [a' s']. apply IH.
Qed.

Lemma iterations_bounds (k : AgentKind) :
  k <> KBase ->
  (step_size k * Z.of_nat (iterations k - 1) <= 100
   /\ 100 < step_size k * Z.of_nat (iterations k))%Z.
Proof. destruct k; try done; intros _; vm_compute; split; congruence. Qed.

Lemma executeTask_begin_main (now : N) (a : Agent) (r : ref) (t : Task) :
  Some (task_type t) = main_type (kind a) ->
  exists a1,
    executeTask_begin now a r t = (a1, SLoop 0)
    /\ kind a1 = kind a /\ capabilities a1 = capabilities a
    /\ status a1 <> "online" /\ currentTask a1 = Some r /\ progress a1 = 0%Z
    /\ length (logs a1) = length (logs a) + (if decide (kind a = KData) then 2 else 1).
Proof.
  intros Hty. unfold executeTask_begin, performTask_begin. cbv zeta.
  cbn [kind log set_progress set_currentTask set_status].
  destruct (kind a) eqn:Hk; try discriminate;
    rewrite bool_decide_eq_true_2 by done;
    eexists; (split; [reflexivity|]);
    cbn [kind capabilities status currentTask progress logs log set_progress
         set_currentTask set_status];
    rewrite ?length_app; cbn [length]; split_and!; try done;
    try (case_decide; try done; lia).
Qed.

(** X1. [executeTask] on a task of the type that the agent simulates, when
    no step fails: as long as fewer timers have fired than the loop has
    iterations the call is suspended, the progress of the agent is the step
    times the number of timers that have fired, its status is not
    ['online'] and the task is its current task; once as many timers have
    fired as the loop has iterations the call has returned, the agent is
    ['online'] with progress 100 and no current task, and its log has one
    entry for each iteration besides the entries of the start and of the end
    (two more of each for the data agent). *)
Theorem X1_executeTask_runs_to_completion (now : N) (a : Agent) (r : ref) (t : Task)
    (times : list N) :
  Some (task_type t) = main_type (kind a) ->
  (length times < iterations (kind a) ->
     executeTask now a r t (normally times) = None
     /\ exists fin a',
          executeTask_upto now a r t (normally times)
            = (fin, a', SLoop (step_size (kind a) * Z.of_nat (length times)))
          /\ progress a' = (step_size (kind a) * Z.of_nat (length times))%Z
          /\ status a' <> "online" /\ currentTask a' = Some r)
  /\ (length times = iterations (kind a) ->
      exists a',
        executeTask now a r t (normally times) = Some a'
        /\ status a' = "online" /\ progress a' = 100%Z /\ currentTask a' = None
        /\ kind a' = kind a /\ capabilities a' = capabilities a
        /\ length (logs a')
           = length (logs a) + iterations (kind a) + 2
             + (if decide (kind a = KData) then 2 else 0)).
Proof.
  intros Hty. pose proof (main_type_not_base _ _ Hty) as Hk.
  destruct (executeTask_begin_main now a r t Hty)
    as (a1 & Hb & Hk1 & Hc1 & Hs1 & Hcur1 & Hp1 & Hl1).
  pose proof (iterations_bounds _ Hk) as [Hlo Hhi].
  pose proof (step_size_pos _ Hk) as Hpos.
  split.
  - intros Hlen.
    destruct (resume_loop_normally times now a1 t 0) as (fin & a' & Hres & _ & Hk' & _ & Hs' & Hcur' & Hp' & Hnil & _).
    { by rewrite Hk1. }
    { rewrite Hk1. nia. }
    rewrite Hk1, Z.add_0_l in Hres, Hp'.
    unfold executeTask, executeTask_upto. rewrite Hb, Hres. split; [done|].
    exists fin, a'. split_and!; try done.
    + destruct times as [|n times']; [|by apply Hp'].
      rewrite (Hnil eq_refl), Hp1. simpl. lia.
    + by rewrite Hs'.
    + by rewrite Hcur'.
  - intros Hlen.
    assert (Hsplit : exists times0 n, times = (times0 ++ [n])%list
                                 /\ length times0 = iterations (kind a) - 1).
    { destruct (decide (times = [])) as [->|Hne].
      { unfold iterations in Hlen. simpl in Hlen. lia. }
      destruct (exists_last Hne) as (times0 & n & ->).
      exists times0, n. split; [done|]. rewrite length_app in Hlen. simpl in Hlen. lia. }
    destruct Hsplit as (times0 & n & -> & Hlen0).
    destruct (resume_loop_normally times0 now a1 t 0) as (fin & a' & Hres & _ & Hk' & Hc' & Hs' & Hcur' & Hp' & Hnil & Hl').
    { by rewrite Hk1. }
    { rewrite Hk1, Hlen0. lia. }
    rewrite Hk1, Z.add_0_l in Hres, Hp'.
    assert (Hprog : progress a' = (step_size (kind a) * Z.of_nat (length times0))%Z).
    { destruct times0 as [|n0 times0']; [|by apply Hp'].
      rewrite (Hnil eq_refl), Hp1. simpl. lia. }
    unfold executeTask, executeTask_upto. rewrite Hb.
    unfold normally. rewrite fmap_app. cbn [fmap list_fmap]. fold (normally times0).
    rewrite resume_loop_snoc, Hres.
    unfold loop_resume. cbv zeta. rewrite Hk', Hk1.
    assert (Hgt : (step_size (kind a) * Z.of_nat (length times0) + step_size (kind a) <=? 100)%Z
                  = false).
    { apply Z.leb_gt. rewrite Hlen0.
      replace (Z.of_nat (iterations (kind a))) with (Z.of_nat (iterations (kind a) - 1) + 1)%Z in Hhi
        by (unfold iterations; lia).
      lia. }
    rewrite Hgt.
    destruct (kind a) eqn:Hkind; try done;
      eexists; (split; [reflexivity|]);
      cbn [executeTask_finish kind capabilities status currentTask progress logs log
           set_progress set_currentTask set_status];
      rewrite ?length_app; cbn [length];
      rewrite Hl', Hl1, Hlen0, ?Hc', ?Hc1;
      (split_and!; try done; try congruence;
       try (repeat case_decide; try done; unfold iterations; simpl; lia)).
Qed.

Lemma X1_witness :
  Some (task_type thesis_task) = main_type (kind DataAgent)
  /\ exists a',
       executeTask 3000 DataAgent 0 thesis_task
         (normally [3500; 4000; 4500; 5000; 5500; 6000]%N) = Some a'
       /\ status a' = "online" /\ progress a' = 100%Z /\ currentTask a' = None.
Proof.
  assert (H : Some (task_type thesis_task) = main_type (kind DataAgent)) by reflexivity.
  split; [exact H|].
  destruct (proj2 (X1_executeTask_runs_to_completion 3000 DataAgent 0 thesis_task
                     [3500; 4000; 4500; 5000; 5500; 6000]%N H) eq_refl)
    as (a' & H1 & H2 & H3 & H4 & _).
  exists a'. auto.
Defined.

(** X2. A task whose type is not the one that the agent simulates (each
    subclass lists three types and simulates one) is executed without any
    work and without any delay: [executeTask] returns in the microtask that
    follows the call, whatever timers fire afterwards, with the agent
    ['online'], progress 100, no current task, and the two log entries of the
    start and of the completion. *)
Theorem X2_executeTask_other_type_does_no_work (now : N) (a : Agent) (r : ref) (t : Task)
    (timers : list (N * Outcome)) :
  kind a <> KBase ->
  Some (task_type t) <> main_type (kind a) ->
  exists a',
    executeTask now a r t timers = Some a'
    /\ status a' = "online" /\ progress a' = 100%Z /\ currentTask a' = None
    /\ logs a' = (logs a ++ [mkLog now ("Starting task: " ++ task_name t) "info";
                             mkLog now ("Completed task: " ++ task_name t) "info"])%list.
Proof.
  intros Hk Hty. unfold executeTask, executeTask_upto, executeTask_begin, performTask_begin.
  cbv zeta. cbn [kind log set_progress set_currentTask set_status].
  destruct (kind a) eqn:Hkind; try done;
    rewrite bool_decide_eq_false_2 by done;
    (destruct timers as [|[n o] timers]; cbn [resume_loop]);
    eexists; (split; [reflexivity|]);
    cbn [executeTask_finish status progress currentTask logs log set_progress
         set_currentTask set_status];
    rewrite <- ?app_assoc; done.
Qed.

Lemma X2_witness :
  kind AnalysisAgent <> KBase
  /\ Some (task_type statistics_task) <> main_type (kind AnalysisAgent)
  /\ canHandleTask AnalysisAgent statistics_task = true
  /\ exists a',
       executeTask 2000 AnalysisAgent 1 statistics_task [] = Some a'
       /\ status a' = "online" /\ progress a' = 100%Z.
Proof.
  assert (H1 : kind AnalysisAgent <> KBase) by discriminate.
  assert (H2 : Some (task_type statistics_task) <> main_type (kind AnalysisAgent))
    by discriminate.
  split; [exact H1|]. split; [exact H2|]. split; [reflexivity|].
  destruct (X2_executeTask_other_type_does_no_work 2000 AnalysisAgent 1 statistics_task [] H1 H2)
    as (a' & E & Hs & Hp & _).
  exists a'. auto.
Defined.





(** ** The constructor and the periodic dispatch *)

Lemma addTask_nobody_online (now : N) (l : TaskLiteral) (suffix : string) (u : N)
    (m : AgentManager) :
  availableAgents m = [] ->
  addTask now l suffix u m = Legacy.addTask now l suffix m.
Proof.
  intros Hav. unfold addTask, Legacy.addTask, processTaskQueue. cbv zeta.
  change (availableAgents (with_taskQueue _ (with_heap _ m))) with (availableAgents m).
  rewrite Hav. by destruct (taskQueue _).
Qed.

(** X4. [new AgentManager()] dispatches nothing: [init()] has just filled
    the status map with ['offline'], so the dispatch cycle that each of the
    three [addTask] calls of [initializeTaskQueue()] runs finds no agent
    online.  The three tasks are pending in the order of the calls, no task is
    active, no agent has been touched, and the state is the one that the
    constructor of the older copy builds. *)
Theorem X4_constructor_dispatches_nothing (now : N) (s1 s2 s3 : string) (u1 u2 u3 : N) :
  let m := AgentManager_new now s1 s2 s3 u1 u2 u3 in
  taskQueue m = [0; 1; 2]
  /\ heap m = [ new_task (lit "Process Thesis Data" "data_processing" "high")
                  (generateTaskId now s1);
                new_task (lit "Generate Visualizations" "visualization" "medium")
                  (generateTaskId now s2);
                new_task (lit "Create Analysis Report" "report_generation" "low")
                  (generateTaskId now s3) ]
  /\ activeTasks m = ∅ /\ pending m = [] /\ watchers m = []
  /\ agents m = agents init_manager
  /\ availableAgents m = []
  /\ m = Legacy.AgentManager_new now s1 s2 s3.
Proof.
  intros m.
  assert (Hm : m = Legacy.AgentManager_new now s1 s2 s3).
  { subst m. unfold AgentManager_new, step, Legacy.AgentManager_new, initializeTaskQueue.
    cbn [handle event_time addTasks Legacy.addTasks].
    rewrite !addTask_nobody_online by reflexivity.
    apply run_microtasks_idle. intros c Hc. by apply elem_of_nil in Hc. }
  rewrite Hm. split_and!; reflexivity.
Qed.

(** X5. The periodic dispatch cycle refreshes the status map before it
    selects, so the agent it draws is really ['online']; the head of the
    queue leaves the queue in any case, and what happens to it depends only
    on the capabilities of the agent drawn: if they include the type of the
    task, the task is recorded in the active map under that agent and a
    progress watcher is started; if not, the only effect of the cycle is that
    the task has left the queue. *)
Theorem X5_periodic_dispatch_outcome (m : AgentManager) (now u : N) (r : ref)
    (rest : list ref) (a : AgentId) :
  reachable m ->
  taskQueue m = r :: rest ->
  selectBestAgent (availableAgents (updateAgentStatuses m)) u = Some a ->
  status (get (agents m) a) = "online"
  /\ taskQueue (step m (EvMonitor now u)) = rest
  /\ (task_type (deref (heap m) r) ∈ capabilities (get (agents m) a) ->
      activeTasks (step m (EvMonitor now u))
      = <[task_id (deref (heap m) r) := mkActive a r now]> (activeTasks m)
      /\ watchers (step m (EvMonitor now u))
         = (watchers m ++ [mkWatcher (nextHandle m) (task_id (deref (heap m) r)) a])%list)
  /\ ((task_type (deref (heap m) r) ∉ capabilities (get (agents m) a)) ->
      step m (EvMonitor now u) = with_taskQueue rest (updateAgentStatuses m)).
Proof.
  intros Hreach Hq Hsel.
  set (m1 := updateAgentStatuses m).
  assert (Hon : status (get (agents m) a) = "online").
  { apply selectBestAgent_elem_of, elem_of_availableAgents in Hsel.
    unfold updateAgentStatuses in Hsel. fields. by rewrite get_per_map in Hsel. }
  assert (Hproc : processTaskQueue now u m1 = assignTask now a r (with_taskQueue rest m1)).
  { unfold processTaskQueue. change (taskQueue m1) with (taskQueue m). rewrite Hq.
    fold m1 in Hsel. destruct (availableAgents m1) as [|k av] eqn:Hav; [done|].
    by rewrite Hsel. }
  unfold step. cbn [handle event_time]. fold m1.
  destruct (run_microtasks_fields now (processTaskQueue now u m1)) as (Eq & Ea & _ & _ & Ew).
  rewrite Eq, Ea, Ew, Hproc. clear Eq Ea Ew.
  destruct (assignTask_cases now a r (with_taskQueue rest m1))
    as [[Hcan Heq] | (Hcan & a' & s & _ & Heq)]; rewrite Heq; fields.
  - apply not_true_iff_false in Hcan. rewrite canHandleTask_true in Hcan.
    split_and!; try done.
    + intros Hcap. exfalso. apply Hcan. by split.
    + intros _. apply run_microtasks_idle. intros c Hc.
      by apply (reachable_waits m c Hreach).
  - apply canHandleTask_true in Hcan as [Hcap _]. split_and!; done.
Qed.

Lemma X5_witness :
  reachable manager1000
  /\ taskQueue manager1000 = [0; 1; 2]
  /\ selectBestAgent (availableAgents (updateAgentStatuses manager1000)) (2 ^ 52)
     = Some analysis
  /\ (task_type (deref (heap manager1000) 0)
        ∉ capabilities (get (agents manager1000) analysis))
  /\ step manager1000 (EvMonitor 3000 (2 ^ 52))
     = with_taskQueue [1; 2] (updateAgentStatuses manager1000).
Proof.
  assert (Hr : reachable manager1000) by apply reach_new.
  assert (Hq : taskQueue manager1000 = [0; 1; 2]) by reflexivity.
  assert (Hsel : selectBestAgent (availableAgents (updateAgentStatuses manager1000)) (2 ^ 52)
                 = Some analysis) by (vm_compute; reflexivity).
  assert (Hno : task_type (deref (heap manager1000) 0)
                  ∉ capabilities (get (agents manager1000) analysis)).
  { apply (bool_decide_unpack _). vm_compute. exact I. }
  destruct (X5_periodic_dispatch_outcome manager1000 3000 (2 ^ 52) 0 [1; 2] analysis Hr Hq Hsel)
    as (_ & _ & _ & H).
  split; [exact Hr|]. split; [exact Hq|]. split; [exact Hsel|]. split; [exact Hno|].
  exact (H Hno).
Defined.

(** ** The older copy: a whole [executeTask] call *)








(** ** A [delay] timer that fires *)

Lemma timer_fires_at (now : N) (k : nat) (o : Outcome) (m : AgentManager)
    (a : AgentId) (r : ref) (i : Z) :
  pending m !! k = Some (mkCo a r (SLoop i)) ->
  timer_fires now k o m
  = with_pending
      (<[k := mkCo a r (snd (loop_resume now (get (agents m) a) (deref (heap m) r) i o))]>
         (pending m))
      (with_agents
         (put a (fst (loop_resume now (get (agents m) a) (deref (heap m) r) i o))
              (agents m)) m).
Proof.
  intros Hk. unfold timer_fires. rewrite Hk.
  by destruct (loop_resume now (get (agents m) a) (deref (heap m) r) i o).
Qed.

(** Taking the one settled call out of a list of calls that otherwise all
    wait for a timer. *)
Lemma filter_insert_settled (l : list Coroutine) (k : nat) (x : Coroutine) :
  k < length l -> waits_for_timer x = false ->
  (forall j c, l !! j = Some c -> j <> k -> waits_for_timer c = true) ->
  filter (fun c => waits_for_timer c = true) (<[k := x]> l) = delete k l.
Proof.
  revert k. induction l as [|c l IH]; intros k Hk Hx Hl; [simpl in Hk; lia|].
  destruct k as [|k]; simpl.
  - rewrite filter_cons_False by (by rewrite Hx).
    clear IH Hk. induction l as [|c' l IH]; [done|].
    rewrite filter_cons_True by (by apply (Hl 1 c')).
    f_equal. apply IH. intros [|j] c'' Hj Hne; [done|].
    by apply (Hl (S (S j)) c'').
  - rewrite filter_cons_True by (by apply (Hl 0 c)).
    f_equal. apply IH; [simpl in Hk; lia | done|].
    intros j c' Hj Hne. apply (Hl (S j) c'); [done | lia].
Qed.

(** X7. A [delay] timer of a suspended [executeTask] call that fires, when
    the step after it does not fail, changes the agent of that call and
    nothing else: queue, active map, task objects and the other agents are
    as before.  If the loop goes on, the message of the step is logged, the
    progress of the agent is the next value of the loop counter and the call
    waits for its next timer; if the loop is over, the call ends in the
    microtask that follows: it is no longer suspended, the agent is
    ['online'] with progress 100 and no current task, and the last entry of
    its log is the completion of the task. *)
Theorem X7_delay_timer_advances_one_agent (m : AgentManager) (now : N) (k : nat)
    (a : AgentId) (r : ref) (i : Z) :
  reachable m ->
  pending m !! k = Some (mkCo a r (SLoop i)) ->
  taskQueue (step m (EvTimer now k Normal)) = taskQueue m
  /\ activeTasks (step m (EvTimer now k Normal)) = activeTasks m
  /\ heap (step m (EvTimer now k Normal)) = heap m
  /\ (forall a', a' <> a ->
        get (agents (step m (EvTimer now k Normal))) a' = get (agents m) a')
  /\ ((i + step_size (kind (get (agents m) a)) <= 100)%Z ->
      pending (step m (EvTimer now k Normal))
      = <[k := mkCo a r (SLoop (i + step_size (kind (get (agents m) a))))]> (pending m)
      /\ get (agents (step m (EvTimer now k Normal))) a
         = set_progress (i + step_size (kind (get (agents m) a)))
             (log now (step_message (kind (get (agents m) a)) (deref (heap m) r) i)
                  "info" (get (agents m) a)))
  /\ ((100 < i + step_size (kind (get (agents m) a)))%Z ->
      pending (step m (EvTimer now k Normal)) = delete k (pending m)
      /\ status (get (agents (step m (EvTimer now k Normal))) a) = "online"
      /\ progress (get (agents (step m (EvTimer now k Normal))) a) = 100%Z
      /\ currentTask (get (agents (step m (EvTimer now k Normal))) a) = None
      /\ last (logs (get (agents (step m (EvTimer now k Normal))) a))
         = Some (mkLog now ("Completed task: " ++ task_name (deref (heap m) r)) "info")).
Proof.
  intros Hreach Hk. pose proof (reachable_sound m Hreach) as Hs.
  pose proof (sound_timer_fires now k Normal m Hs) as Hs1.
  assert (Hlt : k < length (pending m)) by (by eapply lookup_lt_Some).
  assert (Hothers : forall j c, pending m !! j = Some c -> k <> j ->
                      waits_for_timer c = true /\ co_agent c <> a).
  { intros j c Hj Hne. split.
    - apply (reachable_waits m c Hreach). by eapply list_elem_of_lookup_2.
    - apply (pending_positions (pending m) j k c (mkCo a r (SLoop i))
               (pending_nodup _ _ Hs)); [done | done|]. by intros ->. }
  unfold step. cbn [handle event_time].
  destruct (run_microtasks_fields now (timer_fires now k Normal m)) as (Eq & Ea & Eh & _).
  rewrite Eq, Ea, Eh. clear Eq Ea Eh.
  revert Hs1. rewrite (timer_fires_at now k Normal m a r i Hk). intros Hs1.
  set (ag := get (agents m) a) in *. set (t := deref (heap m) r) in *.
  split_and!; try reflexivity.
  - intros a' Hne. unfold run_microtasks. fields.
    rewrite (foldl_finish_co_agents now _ _ a' (pending_nodup _ _ Hs1)). fields.
    rewrite get_put_ne by done.
    destruct (find _ _) as [[ag' r' [j|err]]|] eqn:Hf; try done.
    apply find_Some_elem in Hf as [Hin Heq%bool_decide_eq_true]. cbn in Heq. subst ag'.
    apply list_elem_of_lookup in Hin as [j Hj].
    apply list_lookup_insert_Some in Hj as [(_ & Hj & _) | [Hjk Hj]].
    + injection Hj as Hj _. congruence.
    + by destruct (Hothers j _ Hj Hjk) as [Hw _].
  - intros Hle. apply Z.leb_le in Hle.
    unfold loop_resume. cbv zeta. fold ag. rewrite Hle. cbn [fst snd].
    rewrite run_microtasks_idle.
    + fields. split; [done|]. by rewrite get_put_eq.
    + fields. intros c [j Hj]%list_elem_of_lookup.
      apply list_lookup_insert_Some in Hj as [(_ & <- & _) | [Hjk Hj]]; [done|].
      by destruct (Hothers j c Hj Hjk).
  - intros Hgt. apply Z.leb_gt in Hgt.
    assert (Hres : exists a1,
              loop_resume now ag t i Normal = (a1, SSettled None)
              /\ last (logs (executeTask_finish now a1 t None))
                 = Some (mkLog now ("Completed task: " ++ task_name t) "info")).
    { unfold loop_resume. cbv zeta. rewrite Hgt.
      destruct (kind ag); eexists; (split; [reflexivity|]);
        cbn [executeTask_finish logs log set_progress set_currentTask set_status];
        by rewrite last_snoc. }
    destruct Hres as (a1 & Hres & Hlast). revert Hs1. rewrite Hres. cbn [fst snd].
    intros Hs1. unfold run_microtasks.
    pose proof (foldl_finish_co_agents now _
                  (with_pending (<[k := mkCo a r (SSettled None)]> (pending m))
                     (with_agents (put a a1 (agents m)) m))
                  a (pending_nodup _ _ Hs1)) as Hag.
    pose proof (find_co_unique _ (mkCo a r (SSettled None)) (pending_nodup _ _ Hs1)) as Hf.
    fields. rewrite Hag, Hf by (by apply list_elem_of_insert).
    rewrite get_put_eq. fold t.
    destruct (executeTask_finish_shape now a1 t None) as (_ & _ & Hcur & Hst & Hp).
    split_and!; try done.
    apply filter_insert_settled; [done | done|].
    intros j c Hj Hjk. apply (Hothers j c Hj). by intros ->.
Qed.

Lemma X7_witness :
  reachable (run manager1000 first_seconds)
  /\ pending (run manager1000 first_seconds) !! 0 = Some (mkCo visualization 1 (SLoop 80))
  /\ progress (get (agents (step (run manager1000 first_seconds) (EvTimer 8000 0 Normal)))
                 visualization) = 100%Z
  /\ status (get (agents (step (run manager1000 first_seconds) (EvTimer 8000 0 Normal)))
               visualization) = "busy".
Proof.
  assert (Hr : reachable (run manager1000 first_seconds)) by apply reachable_run, reach_new.
  assert (Hk : pending (run manager1000 first_seconds) !! 0
               = Some (mkCo visualization 1 (SLoop 80))) by (vm_compute; reflexivity).
  destruct (X7_delay_timer_advances_one_agent _ 8000 0 visualization 1 80 Hr Hk)
    as (_ & _ & _ & _ & Hgo & _).
  split; [exact Hr|]. split; [exact Hk|].
  assert (Hle : (80 + step_size (kind (get (agents (run manager1000 first_seconds))
                                         visualization)) <= 100)%Z) by (vm_compute; congruence).
  destruct (Hgo Hle) as [_ ->]. split; reflexivity.
Defined.

(** ** Selection, metrics and ownership *)

(** Every index of a list of at most four agents is hit by some draw. *)
Lemma floor_random_hits (n i : nat) :
  i < n -> n <= 4 -> exists u, floor_random u n = i.
Proof.
  intros Hi Hn.
  exists ((N.of_nat i * 2 ^ 53 + N.of_nat n - 1) / N.of_nat n)%N.
  destruct n as [|[|[|[|[|n]]]]]; try lia;
    destruct i as [|[|[|[|i]]]]; try lia; vm_compute; reflexivity.
Qed.

Lemma length_availableAgents (m : AgentManager) : length (availableAgents m) <= 4.
Proof.
  unfold availableAgents.
  etrans; [apply length_filter|]. done.
Qed.

(** X8. [selectBestAgent] draws among the agents that the status map shows
    ['online'] and looks at nothing else: whatever it returns is shown
    ['online'], every agent shown ['online'] is returned for some value of
    [Math.random()] whatever the task, and it returns nothing only when no
    agent is shown ['online']. *)
Theorem X8_selectBestAgent_any_online_agent (m : AgentManager) (a : AgentId) :
  (forall u, selectBestAgent (availableAgents m) u = Some a ->
     get (agentStatus m) a = "online")
  /\ (get (agentStatus m) a = "online" ->
      exists u, selectBestAgent (availableAgents m) u = Some a)
  /\ (forall u, selectBestAgent (availableAgents m) u = None <-> availableAgents m = []).
Proof.
  split_and!.
  - intros u Hsel. by apply elem_of_availableAgents, (selectBestAgent_elem_of _ u).
  - intros Hon. apply elem_of_availableAgents, list_elem_of_lookup in Hon as [i Hi].
    destruct (floor_random_hits (length (availableAgents m)) i) as [u Hu].
    + by eapply lookup_lt_Some.
    + apply length_availableAgents.
    + exists u. unfold selectBestAgent. by rewrite Hu.
  - intros u. split.
    + intros Hnone. destruct (availableAgents m) as [|k av] eqn:Hav; [done|].
      destruct (selectBestAgent_is_Some (k :: av) u) as [x Hx]; [done|]. congruence.
    + intros ->. reflexivity.
Qed.

Lemma activeAgents_count (u : N) (m : AgentManager) :
  activeAgents (updateDashboardMetrics u m)
  = length (filter (fun a => status (get (agents m) a) = "online") agentIds).
Proof.
  unfold updateDashboardMetrics, agent_values, agentIds. cbn [activeAgents fmap list_fmap].
  rewrite !filter_cons, !filter_nil.
  repeat case_decide; reflexivity.
Qed.

(** X9. The metrics of [updateDashboardMetrics()], in every state that the
    manager reaches: [activeAgents], the number of agents whose status is
    ['online'], and the number of tasks being executed never sum to more
    than 3 (the report agent is neither online nor executing); and
    [completedTasks] is a random number from 10 to 29. *)
Theorem X9_dashboard_metrics_bounds (now : N) (s1 s2 s3 : string) (u1 u2 u3 : N)
    (evs : list Event) (u : N) :
  let m := run (AgentManager_new now s1 s2 s3 u1 u2 u3) evs in
  activeAgents (updateDashboardMetrics u m) + length (pending m) <= 3
  /\ 10 <= completedTasks (updateDashboardMetrics u m) <= 29.
Proof.
  intros m.
  assert (Hs : sound true m) by (apply sound_run, sound_step, sound_init).
  split.
  - rewrite activeAgents_count.
    set (on := filter (fun a => status (get (agents m) a) = "online") agentIds).
    rewrite <- (length_fmap co_agent (pending m)), <- length_app.
    apply (submseteq_length _ [data; analysis; visualization]).
    apply NoDup_submseteq.
    + apply NoDup_app. split_and!.
      * apply NoDup_filter. unfold agentIds. apply (bool_decide_unpack _). by vm_compute.
      * intros a [Hon _]%list_elem_of_filter [c [-> Hc]]%list_elem_of_fmap.
        by apply (pending_busy _ _ Hs c Hc).
      * apply (pending_nodup _ _ Hs).
    + intros a Ha.
      assert (Hne : a <> report).
      { intros ->. apply elem_of_app in Ha as [[Hon _]%list_elem_of_filter | [c [Hc Hin]]%list_elem_of_fmap].
        - rewrite (report_offline _ _ Hs) in Hon. discriminate.
        - by apply (report_no_co _ _ Hs c Hin). }
      destruct a; try done;
        repeat first [apply list_elem_of_here | apply list_elem_of_further].
  - cbn [completedTasks updateDashboardMetrics].
    pose proof (floor_random_lt u 20). lia.
Qed.

(** X10. In every state that the manager reaches a task that is being
    executed is not in the pending queue, and the current task of an agent
    is a task object of the heap that is not pending and that a suspended
    [executeTask] call of that agent is executing. *)
Theorem X10_executing_task_is_not_pending (now : N) (s1 s2 s3 : string) (u1 u2 u3 : N)
    (evs : list Event) :
  let m := run (AgentManager_new now s1 s2 s3 u1 u2 u3) evs in
  (forall c, c ∈ pending m -> (co_task c ∉ taskQueue m) /\ co_task c < length (heap m))
  /\ (forall a r, currentTask (get (agents m) a) = Some r ->
        (r ∉ taskQueue m) /\ r < length (heap m)
        /\ exists s, mkCo a r s ∈ pending m).
Proof.
  intros m.
  assert (Hs : sound true m) by (apply sound_run, sound_step, sound_init).
  split.
  - intros c Hc. split; [by apply (queue_not_pending _ _ Hs) | by apply (pending_alloc _ _ Hs)].
  - intros a r Hcur.
    destruct (decide (a ∈ co_agent <$> pending m)) as [Hin | Hnot].
    + apply list_elem_of_fmap in Hin as ([a' r' s] & -> & Hc).
      pose proof (pending_current _ _ Hs _ Hc) as Hcur'. cbn [co_agent co_task] in *.
      rewrite Hcur in Hcur'. injection Hcur' as ->.
      split_and!.
      * apply (queue_not_pending _ _ Hs _ Hc).
      * apply (pending_alloc _ _ Hs _ Hc).
      * by exists s.
    + rewrite (idle_current _ _ Hs a) in Hcur; [done|].
      intros c Hc <-. apply Hnot, list_elem_of_fmap. eauto.
Qed.

(** X11. In every state that the manager reaches, an entry of the active
    map records an agent other than the report agent, whose capabilities
    include the type of the task of the entry, and a task object of the
    heap. *)
Theorem X11_active_entries_have_capable_owners (now : N) (s1 s2 s3 : string) (u1 u2 u3 : N)
    (evs : list Event) (id : string) (ai : ActiveInfo) :
  let m := run (AgentManager_new now s1 s2 s3 u1 u2 u3) evs in
  activeTasks m !! id = Some ai ->
  ai_agentId ai <> report
  /\ task_type (deref (heap m) (ai_task ai))
       ∈ capabilities (get (agents m) (ai_agentId ai))
  /\ ai_task ai < length (heap m)
  /\ kind (get (agents m) (ai_agentId ai))
     = kind (get (agents init_manager) (ai_agentId ai)).
Proof.
  intros m Hact.
  assert (Hs : sound true m) by (apply sound_run, sound_step, sound_init).
  destruct (active_owner _ _ Hs id ai Hact) as [Hne Hcap].
  destruct (agents_fixed _ _ Hs (ai_agentId ai)) as [Hk Hc].
  split_and!; try done.
  - by rewrite Hc.
  - by apply (active_alloc _ _ Hs id).
Qed.

Lemma X11_witness :
  activeTasks (run manager1000 upload_before_tick) !! "task_6500_ddddddddd"
  = Some (mkActive data 3 7000)
  /\ task_type (deref (heap (run manager1000 upload_before_tick)) 3)
       ∈ capabilities (get (agents (run manager1000 upload_before_tick)) data).
Proof.
  assert (H : activeTasks (run manager1000 upload_before_tick) !! "task_6500_ddddddddd"
              = Some (mkActive data 3 7000)) by (vm_compute; reflexivity).
  split; [exact H|].
  exact (proj1 (proj2 (X11_active_entries_have_capable_owners 1000 "aaaaaaaaa" "bbbbbbbbb"
                         "ccccccccc" 0 0 0 upload_before_tick "task_6500_ddddddddd"
                         (mkActive data 3 7000) H))).
Defined.

(** ** The pending queue *)

Lemma fifo_refl (m : AgentManager) : fifo m m.
Proof.
  split; [done|]. exists 0. rewrite Nat.sub_diag. simpl. rewrite app_nil_r.
  split; [lia | done].
Qed.

Lemma fifo_same (m m' : AgentManager) :
  heap m' = heap m \/ length (heap m') = length (heap m) ->
  taskQueue m' = taskQueue m -> fifo m m'.
Proof.
  intros Hh Hq. assert (Hl : length (heap m') = length (heap m)).
  { destruct Hh as [-> | ->]; done. }
  split; [lia|]. exists 0. rewrite Hl, Nat.sub_diag, Hq. simpl. rewrite app_nil_r.
  split; [lia | done].
Qed.

Lemma fifo_trans (m1 m2 m3 : AgentManager) : fifo m1 m2 -> fifo m2 m3 -> fifo m1 m3.
Proof.
  intros [Hl1 (k1 & Hk1 & Hq1)] [Hl2 (k2 & Hk2 & Hq2)].
  split; [lia|]. exists (k1 + k2).
  set (n1 := length (heap m2) - length (heap m1)) in *.
  set (n2 := length (heap m3) - length (heap m2)) in *.
  assert (Hlen2 : length (taskQueue m2) = length (taskQueue m1) + n1 - k1).
  { rewrite Hq1, length_drop, length_app, length_seq. lia. }
  replace (length (heap m3) - length (heap m1)) with (n1 + n2) by lia.
  split; [lia|].
  rewrite Hq2, Hq1.
  replace (length (heap m2)) with (length (heap m1) + n1) by lia.
  rewrite seq_app, app_assoc.
  rewrite <- (drop_app_le _ (seq (length (heap m1) + n1) n2))
    by (rewrite length_app, length_seq; lia).
  by rewrite drop_drop.
Qed.

Lemma fifo_push (m : AgentManager) (t : Task) :
  fifo m (with_taskQueue (taskQueue m ++ [length (heap m)])
            (with_heap (heap m ++ [t]) m)).
Proof.
  split; fields; rewrite length_app; simpl; [lia|].
  exists 0. split; [lia|].
  replace (length (heap m) + 1 - length (heap m)) with 1 by lia. done.
Qed.

Lemma fifo_processTaskQueue (now u : N) (m : AgentManager) :
  fifo m (processTaskQueue now u m).
Proof.
  split; rewrite heap_processTaskQueue; [done|].
  rewrite Nat.sub_diag. simpl. rewrite app_nil_r, taskQueue_processTaskQueue.
  case_decide.
  - exists 0. split; [lia | done].
  - destruct (taskQueue m) as [|r rest].
    + exists 0. split; [lia | done].
    + exists 1. split; [simpl; lia | done].
Qed.

Lemma fifo_addTasks (now : N) (calls : list (TaskLiteral * string * N))
    (m : AgentManager) :
  fifo m (addTasks now calls m).
Proof.
  revert m. induction calls as [|[[l s] u] calls IH]; intros m; simpl.
  - apply fifo_refl.
  - eapply fifo_trans; [|apply IH]. unfold addTask.
    eapply fifo_trans; [apply (fifo_push m)|apply fifo_processTaskQueue].
Qed.

Lemma fifo_watcher_tick (w : Watcher) (m : AgentManager) : fifo m (watcher_tick w m).
Proof.
  apply fifo_same; unfold watcher_tick, clearInterval;
    destruct (activeTasks m !! w_taskId w); try (by (left + idtac));
    destruct (negb _); try (by (left + idtac));
    destruct (_ || _); fields; rewrite ?length_modify; auto.
Qed.

Lemma fifo_handle (ev : Event) (m : AgentManager) : fifo m (handle ev m).
Proof.
  destruct ev as [now calls|now u|now h|now k o|now|now res]; cbn [handle].
  - apply fifo_addTasks.
  - eapply fifo_trans; [|apply fifo_processTaskQueue]. by apply fifo_same; [left|].
  - destruct (find _ _); [apply fifo_watcher_tick | apply fifo_refl].
  - unfold timer_fires.
    destruct (pending m !! k) as [[a r [i|e]]|]; try apply fifo_refl.
    destruct (loop_resume _ _ _ _ _). by apply fifo_same; [left|].
  - by apply fifo_same; [left|].
  - by apply fifo_same; [left|].
Qed.

Lemma fifo_step (m : AgentManager) (ev : Event) : fifo m (step m ev).
Proof.
  eapply fifo_trans; [apply (fifo_handle ev)|]. unfold step.
  destruct (run_microtasks_fields (event_time ev) (handle ev m)) as (Hq & _ & Hh & _).
  by apply fifo_same; [left|].
Qed.

Lemma fifo_run (m : AgentManager) (evs : list Event) : fifo m (run m evs).
Proof.
  revert m. induction evs as [|ev evs IH]; intros m; simpl; [apply fifo_refl|].
  eapply fifo_trans; [apply fifo_step | apply IH].
Qed.

(** X12. The pending queue is a FIFO in every state that the manager
    reaches: it holds exactly the most recently created tasks, in the order
    of their creation; and whatever happens next, the queue afterwards is the
    old queue followed by the tasks created meanwhile, in the order of their
    creation, less some tasks at its front. *)
Theorem X12_pending_queue_is_fifo (now : N) (s1 s2 s3 : string) (u1 u2 u3 : N)
    (evs evs' : list Event) :
  let m := run (AgentManager_new now s1 s2 s3 u1 u2 u3) evs in
  (exists k, k <= length (heap m) /\ taskQueue m = seq k (length (heap m) - k))
  /\ exists k,
       taskQueue (run m evs')
       = drop k (taskQueue m
                 ++ seq (length (heap m)) (length (heap (run m evs')) - length (heap m))).
Proof.
  intros m. split.
  - assert (H : fifo init_manager m).
    { eapply fifo_trans; [apply fifo_step | apply fifo_run]. }
    destruct H as [_ (k & Hk & Hq)]. simpl in Hq, Hk. rewrite Nat.sub_0_r in Hq, Hk.
    exists k. split; [done|]. by rewrite Hq, drop_seq.
  - destruct (fifo_run m evs') as [_ (k & _ & Hq)]. by exists k.
Qed.

(** ** Watched tasks *)

Ltac tracked_inv H := destruct H as [Hag Hmi Hwa].

Ltac in_statuses :=
  unfold statuses; repeat first [apply list_elem_of_here | apply list_elem_of_further].

Lemma statuses_nonempty (s : string) : s ∈ statuses -> truthy (JString s) = true.
Proof.
  unfold statuses. intros H.
  repeat (apply elem_of_cons in H as [-> | H]; [reflexivity|]).
  by apply elem_of_nil in H.
Qed.

Lemma tracked_init : tracked init_manager.
Proof.
  constructor.
  - intros []; simpl; in_statuses.
  - intros []; simpl; in_statuses.
  - intros w H. by apply elem_of_nil in H.
Qed.

Lemma executeTask_begin_status (now : N) (a : Agent) (r : ref) (t : Task) :
  status (fst (executeTask_begin now a r t)) ∈ statuses.
Proof.
  unfold executeTask_begin, performTask_begin, statuses. cbv zeta.
  cbn [kind log set_progress set_currentTask set_status].
  destruct (kind a); try case_bool_decide; cbn; in_statuses.
Qed.

Lemma loop_resume_status (now : N) (a : Agent) (t : Task) (i : Z) (o : Outcome) :
  status a ∈ statuses -> status (fst (loop_resume now a t i o)) ∈ statuses.
Proof.
  intros Ha. unfold loop_resume, statuses. destruct o as [|msg].
  - cbv zeta. destruct (_ <=? _)%Z; [done|]. destruct (kind a); cbn; try done; in_statuses.
  - destruct (kind a); cbn; try done; in_statuses.
Qed.

Lemma tracked_assignTask (now : N) (agentId : AgentId) (r : ref) (m : AgentManager) :
  tracked m -> tracked (assignTask now agentId r m).
Proof.
  intros H.
  destruct (assignTask_cases now agentId r m) as [[_ ->] | (_ & a' & s & Hb & ->)];
    [done|].
  pose proof (executeTask_begin_status now (get (agents m) agentId) r (deref (heap m) r))
    as Hst. rewrite Hb in Hst. simpl in Hst.
  tracked_inv H. constructor; fields; try assumption.
  - intros a. rewrite get_put. by case_decide.
  - intros w [Hw | ->%list_elem_of_singleton]%elem_of_app; simpl.
    + destruct (decide (task_id (deref (heap m) r) = w_taskId w)) as [->|Hne].
      * rewrite lookup_insert_eq. eauto.
      * rewrite lookup_insert_ne by done. by apply Hwa.
    + rewrite lookup_insert_eq. eauto.
Qed.

Lemma tracked_processTaskQueue (now u : N) (m : AgentManager) :
  tracked m -> tracked (processTaskQueue now u m).
Proof.
  intros H.
  destruct (processTaskQueue_cases now u m)
    as [-> | (r & rest & agentId & _ & _ & ->)]; [done|].
  apply tracked_assignTask. tracked_inv H. by constructor.
Qed.

Lemma tracked_addTasks (now : N) (calls : list (TaskLiteral * string * N))
    (m : AgentManager) :
  tracked m -> tracked (addTasks now calls m).
Proof.
  revert m. induction calls as [|[[l s] u] calls IH]; intros m H; simpl; [done|].
  apply IH. unfold addTask. apply tracked_processTaskQueue.
  tracked_inv H. by constructor.
Qed.

Lemma tracked_updateAgentStatuses (m : AgentManager) :
  tracked m -> tracked (updateAgentStatuses m).
Proof.
  intros H. tracked_inv H. constructor; fields; try assumption.
  intros a. unfold updateAgentStatuses. fields. rewrite get_per_map. apply Hag.
Qed.

(** A tick of a running watcher, in a tracked state, writes the progress
    [0] into its task and does nothing else. *)
Lemma watcher_tick_tracked (w : Watcher) (m : AgentManager) :
  tracked m -> w ∈ watchers m ->
  exists ai,
    activeTasks m !! w_taskId w = Some ai
    /\ watcher_tick w m
       = with_heap (modify (set_task_progress (JNumber 0)) (ai_task ai) (heap m)) m.
Proof.
  intros H Hw. tracked_inv H.
  destruct (Hwa w Hw) as [ai Hai]. exists ai. split; [done|].
  unfold watcher_tick. rewrite Hai.
  rewrite (statuses_nonempty _ (Hmi (w_agentId w))). reflexivity.
Qed.

Lemma tracked_handle (ev : Event) (m : AgentManager) :
  tracked m -> tracked (handle ev m).
Proof.
  intros H. destruct ev as [now calls|now u|now h|now k o|now|now res]; cbn [handle].
  - by apply tracked_addTasks.
  - by apply tracked_processTaskQueue, tracked_updateAgentStatuses.
  - destruct (find _ _) as [w|] eqn:Hf; [|done].
    apply find_Some_elem in Hf as [Hw _].
    destruct (watcher_tick_tracked w m H Hw) as (ai & _ & ->).
    tracked_inv H. by constructor.
  - unfold timer_fires.
    destruct (pending m !! k) as [[a r [i|e]]|]; try done.
    pose proof (loop_resume_status now (get (agents m) a) (deref (heap m) r) i o) as Hst.
    destruct (loop_resume _ _ _ _ _) as [a' s]. simpl in Hst.
    tracked_inv H. constructor; fields; try assumption.
    intros a0. rewrite get_put. case_decide; [by apply Hst | done].
  - by apply tracked_updateAgentStatuses.
  - tracked_inv H. constructor; fields; try assumption.
    intros a. rewrite get_put. case_decide; [|done].
    destruct res; cbn [handleFileUpload_done status set_status log];
      [in_statuses | apply (Hag data) ..].
Qed.

Lemma foldl_finish_co_status (now : N) (cs : list Coroutine) (m : AgentManager) :
  (forall a, status (get (agents m) a) ∈ statuses) ->
  forall a, status (get (agents (foldl (finish_co now) m cs)) a) ∈ statuses.
Proof.
  revert m. induction cs as [|c cs IH]; intros m Hm; [done|].
  simpl. apply IH. intros a. unfold finish_co.
  destruct (co_susp c) as [i|err]; [done|]. fields.
  rewrite get_put. case_decide; [|done].
  destruct err; cbn; in_statuses.
Qed.

Lemma tracked_run_microtasks (now : N) (m : AgentManager) :
  tracked m -> tracked (run_microtasks now m).
Proof.
  intros H. tracked_inv H.
  destruct (run_microtasks_fields now m) as (E1 & E2 & E3 & E4 & E5).
  constructor; rewrite ?E2, ?E4, ?E5; try assumption.
  unfold run_microtasks. fields. by apply foldl_finish_co_status.
Qed.

Lemma tracked_step (m : AgentManager) (ev : Event) : tracked m -> tracked (step m ev).
Proof. intros H. by apply tracked_run_microtasks, tracked_handle. Qed.

Lemma reachable_tracked (m : AgentManager) : reachable m -> tracked m.
Proof.
  induction 1; [|by apply tracked_step]. apply tracked_step, tracked_init.
Qed.

Lemma grows_refl (m : AgentManager) : grows m m.
Proof. split; [done | reflexivity]. Qed.

Lemma grows_trans (m1 m2 m3 : AgentManager) : grows m1 m2 -> grows m2 m3 -> grows m1 m3.
Proof. intros [H1 H2] [H3 H4]. split; [auto | by etrans]. Qed.

Lemma grows_same (m m' : AgentManager) :
  activeTasks m' = activeTasks m -> watchers m' = watchers m -> grows m m'.
Proof. intros Ha Hw. unfold grows. rewrite Ha, Hw. split; [done | reflexivity]. Qed.

Lemma grows_assignTask (now : N) (agentId : AgentId) (r : ref) (m : AgentManager) :
  grows m (assignTask now agentId r m).
Proof.
  destruct (assignTask_cases now agentId r m) as [[_ ->] | (_ & a' & s & _ & ->)];
    [apply grows_refl|].
  split; fields.
  - intros id Hid. destruct (decide (task_id (deref (heap m) r) = id)) as [->|Hne].
    + rewrite lookup_insert_eq. eauto.
    + by rewrite lookup_insert_ne.
  - by apply prefix_app_r.
Qed.

Lemma grows_processTaskQueue (now u : N) (m : AgentManager) :
  grows m (processTaskQueue now u m).
Proof.
  destruct (processTaskQueue_cases now u m)
    as [-> | (r & rest & agentId & _ & _ & ->)]; [apply grows_refl|].
  eapply grows_trans; [|apply grows_assignTask]. by apply grows_same.
Qed.

Lemma grows_addTasks (now : N) (calls : list (TaskLiteral * string * N))
    (m : AgentManager) :
  grows m (addTasks now calls m).
Proof.
  revert m. induction calls as [|[[l s] u] calls IH]; intros m; simpl;
    [apply grows_refl|].
  eapply grows_trans; [|apply IH]. unfold addTask.
  eapply grows_trans; [|apply grows_processTaskQueue]. by apply grows_same.
Qed.

Lemma grows_handle (ev : Event) (m : AgentManager) :
  tracked m -> grows m (handle ev m).
Proof.
  intros H. destruct ev as [now calls|now u|now h|now k o|now|now res]; cbn [handle].
  - apply grows_addTasks.
  - eapply grows_trans; [|apply grows_processTaskQueue]. by apply grows_same.
  - destruct (find _ _) as [w|] eqn:Hf; [|apply grows_refl].
    apply find_Some_elem in Hf as [Hw _].
    destruct (watcher_tick_tracked w m H Hw) as (ai & _ & ->). by apply grows_same.
  - unfold timer_fires.
    destruct (pending m !! k) as [[a r [i|e]]|]; try apply grows_refl.
    destruct (loop_resume _ _ _ _ _). by apply grows_same.
  - by apply grows_same.
  - by apply grows_same.
Qed.

Lemma grows_step (m : AgentManager) (ev : Event) : tracked m -> grows m (step m ev).
Proof.
  intros H. eapply grows_trans; [by apply (grows_handle ev)|]. unfold step.
  destruct (run_microtasks_fields (event_time ev) (handle ev m)) as (_ & Ha & _ & _ & Hw).
  by apply grows_same.
Qed.

(** X13. Nothing is ever removed: from a state that the manager has
    reached onwards, every key of the active map stays a key of the active
    map, every progress watcher that runs keeps running (watchers are only
    added, at the end of the list), and every running watcher watches a key
    of the active map. *)
Theorem X13_active_map_only_grows (now : N) (s1 s2 s3 : string) (u1 u2 u3 : N)
    (evs evs' : list Event) :
  let m := run (AgentManager_new now s1 s2 s3 u1 u2 u3) evs in
  (forall id, is_Some (activeTasks m !! id) -> is_Some (activeTasks (run m evs') !! id))
  /\ watchers m `prefix_of` watchers (run m evs')
  /\ (forall w, w ∈ watchers m -> is_Some (activeTasks m !! w_taskId w)).
Proof.
  intros m.
  assert (Hr : reachable m) by apply reachable_run, reach_new.
  assert (Hg : grows m (run m evs')).
  { clearbody m. revert m Hr. induction evs' as [|ev evs' IH]; intros m Hr; simpl.
    - apply grows_refl.
    - eapply grows_trans; [apply grows_step, reachable_tracked, Hr|].
      apply IH. by constructor. }
  destruct Hg as [Hg1 Hg2]. split_and!; try done.
  apply (tracked_watchers _ (reachable_tracked m Hr)).
Qed.

(** ** A data agent frozen by an upload *)

Lemma frozen_cannot (m : AgentManager) (t : Task) :
  frozen m -> canHandleTask (get (agents m) data) t = false.
Proof.
  intros [Hst _]. apply not_true_is_false. intros [_ Hon]%canHandleTask_true.
  rewrite Hst in Hon. discriminate.
Qed.

Lemma frozen_assignTask (now : N) (agentId : AgentId) (r : ref) (m : AgentManager) :
  frozen m -> frozen (assignTask now agentId r m).
Proof.
  intros Hf.
  destruct (assignTask_cases now agentId r m) as [[_ ->] | (Hcan & a' & s & _ & ->)];
    [done|].
  assert (Hne : agentId <> data).
  { intros ->. by rewrite frozen_cannot in Hcan. }
  destruct Hf as [Hst Hidle]. constructor; fields.
  - by rewrite get_put_ne.
  - intros c [Hc | ->%list_elem_of_singleton]%elem_of_app; [by apply Hidle | done].
Qed.

Lemma frozen_processTaskQueue (now u : N) (m : AgentManager) :
  frozen m -> frozen (processTaskQueue now u m).
Proof.
  intros Hf.
  destruct (processTaskQueue_cases now u m)
    as [-> | (r & rest & agentId & _ & _ & ->)]; [done|].
  apply frozen_assignTask. destruct Hf. by constructor.
Qed.

Lemma frozen_addTasks (now : N) (calls : list (TaskLiteral * string * N))
    (m : AgentManager) :
  frozen m -> frozen (addTasks now calls m).
Proof.
  revert m. induction calls as [|[[l s] u] calls IH]; intros m Hf; simpl; [done|].
  apply IH. unfold addTask. apply frozen_processTaskQueue. destruct Hf. by constructor.
Qed.

Lemma frozen_watcher_tick (w : Watcher) (m : AgentManager) :
  frozen m -> frozen (watcher_tick w m).
Proof.
  intros [Hst Hidle]. unfold watcher_tick, clearInterval.
  destruct (activeTasks m !! w_taskId w); [|by constructor].
  destruct (negb _); [by constructor|].
  destruct (_ || _); by constructor.
Qed.

Lemma frozen_handle (ev : Event) (m : AgentManager) : frozen m -> frozen (handle ev m).
Proof.
  intros Hf. destruct ev as [now calls|now u|now h|now k o|now|now res]; cbn [handle].
  - by apply frozen_addTasks.
  - apply frozen_processTaskQueue. destruct Hf. by constructor.
  - destruct (find _ _); [by apply frozen_watcher_tick | done].
  - unfold timer_fires.
    destruct (pending m !! k) as [[a r [i|e]]|] eqn:Hk; try done.
    destruct (loop_resume _ _ _ _ _) as [a' s].
    destruct Hf as [Hst Hidle].
    assert (Hne : a <> data).
    { apply (Hidle (mkCo a r (SLoop i))). by eapply list_elem_of_lookup_2. }
    constructor; fields.
    + by rewrite get_put_ne.
    + intros c [j Hj]%list_elem_of_lookup.
      apply list_lookup_insert_Some in Hj as [(_ & <- & _) | [_ Hj]]; [done|].
      apply Hidle. by eapply list_elem_of_lookup_2.
  - destruct Hf. by constructor.
  - destruct Hf as [Hst Hidle]. constructor; fields; [|done].
    rewrite get_put_eq. by destruct res.
Qed.

Lemma foldl_finish_co_other (now : N) (cs : list Coroutine) (m : AgentManager)
    (a : AgentId) :
  (forall c, c ∈ cs -> co_agent c <> a) ->
  get (agents (foldl (finish_co now) m cs)) a = get (agents m) a.
Proof.
  revert m. induction cs as [|c cs IH]; intros m Hcs; [done|].
  simpl. rewrite IH by (intros c' Hc'; apply Hcs; by apply list_elem_of_further).
  unfold finish_co. destruct (co_susp c); [done|]. fields.
  apply get_put_ne, Hcs, list_elem_of_here.
Qed.

Lemma frozen_run_microtasks (now : N) (m : AgentManager) :
  frozen m -> frozen (run_microtasks now m).
Proof.
  intros [Hst Hidle]. unfold run_microtasks. constructor; fields.
  - by rewrite foldl_finish_co_other.
  - intros c [_ Hc]%list_elem_of_filter. by apply Hidle.
Qed.

Lemma frozen_later (m m' : AgentManager) : frozen m -> later m m' -> frozen m'.
Proof.
  intros Hf. induction 1; [done | by apply frozen_handle | by apply frozen_run_microtasks].
Qed.

(** X14. When an upload through the form of the data agent succeeds while
    the agent executes no task, [handleFileUpload] sets its status to
    ['processing'], and nothing sets it back: in every later state the status
    is still ['processing'], the agent executes no task, [canHandleTask] is
    false for every task and [assignTask] gives it nothing. *)
Theorem X14_successful_upload_freezes_data_agent (m m' : AgentManager) (now : N)
    (file : string) :
  (forall c, c ∈ pending m -> co_agent c <> data) ->
  later (handle (EvUpload now (UploadSuccess file)) m) m' ->
  status (get (agents m') data) = "processing"
  /\ (forall c, c ∈ pending m' -> co_agent c <> data)
  /\ (forall t, canHandleTask (get (agents m') data) t = false)
  /\ (forall now' r, assignTask now' data r m' = m').
Proof.
  intros Hidle Hlater.
  assert (Hf : frozen m').
  { eapply frozen_later; [|exact Hlater]. constructor; cbn [handle]; fields; [|done].
    by rewrite get_put_eq. }
  split_and!.
  - apply (frozen_status _ Hf).
  - apply (frozen_idle _ Hf).
  - intros t. by apply frozen_cannot.
  - intros now' r. unfold assignTask. by rewrite frozen_cannot.
Qed.

Lemma X14_witness :
  (forall c, c ∈ pending (run manager1000 first_seconds) -> co_agent c <> data)
  /\ status (get (agents (run (step (run manager1000 first_seconds)
                                 (EvUpload 7500 (UploadSuccess "thesis.csv")))
                            after_form_upload)) data) = "processing"
  /\ taskQueue (run (step (run manager1000 first_seconds)
                       (EvUpload 7500 (UploadSuccess "thesis.csv")))
                  after_form_upload) = [].
Proof.
  assert (Hidle : forall c, c ∈ pending (run manager1000 first_seconds) -> co_agent c <> data).
  { intros c Hc. vm_compute in Hc.
    apply list_elem_of_singleton in Hc. by subst c. }
  split; [exact Hidle|]. split; [|vm_compute; reflexivity].
  apply (X14_successful_upload_freezes_data_agent (run manager1000 first_seconds) _
           7500 "thesis.csv" Hidle).
  apply later_run, later_microtasks, later_now.
Defined.

(** ** The identity of task objects *)

Lemma same_identity_refl (t : Task) : same_identity t t.
Proof. unfold same_identity. auto 10. Qed.

Lemma same_identity_trans (t1 t2 t3 : Task) :
  same_identity t1 t2 -> same_identity t2 t3 -> same_identity t1 t3.
Proof.
  unfold same_identity.
  intros (A1 & A2 & A3 & A4 & A5 & A6 & A7) (B1 & B2 & B3 & B4 & B5 & B6 & B7).
  split_and!; try congruence. destruct B7 as [B7 | B7]; [|by right].
  rewrite B7. exact A7.
Qed.

Lemma keeps_refl (m : AgentManager) : keeps m m.
Proof. split; [done|]. intros r _. apply same_identity_refl. Qed.

Lemma keeps_trans (m1 m2 m3 : AgentManager) : keeps m1 m2 -> keeps m2 m3 -> keeps m1 m3.
Proof.
  intros [H1 H2] [H3 H4]. split; [lia|]. intros r Hr.
  eapply same_identity_trans; [by apply H2 | apply H4; lia].
Qed.

Lemma keeps_same (m m' : AgentManager) : heap m' = heap m -> keeps m m'.
Proof. intros Hh. unfold keeps. rewrite Hh. split; [done|]. intros r _. apply same_identity_refl. Qed.

Lemma keeps_progress (m : AgentManager) (r : ref) :
  keeps m (with_heap (modify (set_task_progress (JNumber 0)) r (heap m)) m).
Proof.
  split; fields; [by rewrite length_modify|]. intros r' _.
  destruct (deref_modify (set_task_progress (JNumber 0)) r r' (heap m)) as [-> | ->].
  - apply same_identity_refl.
  - unfold same_identity. cbn. auto 10.
Qed.

(** What a tick of a watcher does to the task objects, in any state. *)
Lemma heap_watcher_tick (w : Watcher) (m : AgentManager) :
  heap (watcher_tick w m) = heap m
  \/ exists r, heap (watcher_tick w m) = modify (set_task_progress (JNumber 0)) r (heap m).
Proof.
  unfold watcher_tick, clearInterval.
  destruct (activeTasks m !! w_taskId w) as [ai|]; [|by left].
  destruct (negb _); [by left|].
  right. exists (ai_task ai). reflexivity.
Qed.

Lemma keeps_handle (ev : Event) (m : AgentManager) : keeps m (handle ev m).
Proof.
  destruct ev as [now calls|now u|now h|now k o|now|now res]; cbn [handle].
  - revert m. induction calls as [|[[l s] u] calls IH]; intros m; simpl; [apply keeps_refl|].
    eapply keeps_trans; [|apply IH]. unfold addTask.
    split; rewrite heap_processTaskQueue; fields.
    + rewrite length_app. lia.
    + intros r Hr. rewrite deref_app_l by done. apply same_identity_refl.
  - apply keeps_same. by rewrite heap_processTaskQueue.
  - destruct (find _ _) as [w|]; [|apply keeps_refl].
    destruct (heap_watcher_tick w m) as [Hh | [r Hh]]; [by apply keeps_same|].
    destruct (keeps_progress m r) as [H1 H2]. fields.
    split; rewrite Hh; done.
  - unfold timer_fires.
    destruct (pending m !! k) as [[a r [i|e]]|]; try apply keeps_refl.
    destruct (loop_resume _ _ _ _ _). by apply keeps_same.
  - by apply keeps_same.
  - by apply keeps_same.
Qed.

Lemma keeps_later (m m' : AgentManager) : later m m' -> keeps m m'.
Proof.
  induction 1 as [|m' ev _ IH|m' now _ IH]; [apply keeps_refl| |].
  - eapply keeps_trans; [exact IH | apply keeps_handle].
  - eapply keeps_trans; [exact IH|]. apply keeps_same.
    by destruct (run_microtasks_fields now m') as (_ & _ & -> & _).
Qed.

(** X15. A task object stays in the heap and keeps its id, name, type,
    other properties, parameters and status whatever the manager does later;
    its [progress] is either what it was or the number 0 (the only value that
    a progress watcher ever writes). *)
Theorem X15_task_objects_keep_their_identity (m m' : AgentManager) (r : ref) :
  later m m' -> r < length (heap m) ->
  r < length (heap m')
  /\ task_id (deref (heap m') r) = task_id (deref (heap m) r)
  /\ task_name (deref (heap m') r) = task_name (deref (heap m) r)
  /\ task_type (deref (heap m') r) = task_type (deref (heap m) r)
  /\ task_props (deref (heap m') r) = task_props (deref (heap m) r)
  /\ task_parameters (deref (heap m') r) = task_parameters (deref (heap m) r)
  /\ task_status (deref (heap m') r) = task_status (deref (heap m) r)
  /\ (task_progress (deref (heap m') r) = task_progress (deref (heap m) r)
      \/ task_progress (deref (heap m') r) = JNumber 0).
Proof.
  intros Hl Hr. destruct (keeps_later m m' Hl) as [H1 H2].
  split; [lia|]. apply (H2 r Hr).
Qed.

Lemma X15_witness :
  later manager1000 (run manager1000 first_seconds)
  /\ 0 < length (heap manager1000)
  /\ task_name (deref (heap (run manager1000 first_seconds)) 0) = "Process Thesis Data"
  /\ task_progress (deref (heap (run manager1000 first_seconds)) 0) = JNumber 0.
Proof.
  assert (Hl : later manager1000 (run manager1000 first_seconds))
    by apply later_run, later_now.
  assert (Hr : 0 < length (heap manager1000)) by (vm_compute; lia).
  split; [exact Hl|]. split; [exact Hr|].
  destruct (X15_task_objects_keep_their_identity manager1000 _ 0 Hl Hr)
    as (_ & _ & Hname & _).
  split; [by rewrite Hname | vm_compute; reflexivity].
Defined.

(** ** The controller, the monitor of an analysis and the log panel *)

Lemma one_interval_polling (c : AppController) :
  one_interval c -> is_polling c = bool_decide (is_Some (analysisProgressInterval c)).
Proof.
  unfold one_interval, is_polling. intros [_ H].
  destruct (analysisProgressInterval c) as [h|].
  - destruct H as [[Hh _] _]. rewrite bool_decide_eq_true_2 by eauto.
    destruct h; [lia | done].
  - rewrite bool_decide_eq_false_2; [done|]. by intros [? ?].
Qed.

Lemma one_interval_start (c : AppController) :
  one_interval c ->
  one_interval (startAnalysisProgressPolling c)
  /\ is_Some (analysisProgressInterval (startAnalysisProgressPolling c)).
Proof.
  intros Hc. unfold startAnalysisProgressPolling.
  rewrite (one_interval_polling c Hc). case_bool_decide as Hp; [done|].
  destruct Hc as [Hn H].
  destruct (analysisProgressInterval c) as [h|]; [exfalso; eauto|].
  split; [|by eexists]. unfold one_interval. cbn. rewrite H. split; [lia|].
  split; [lia | done].
Qed.

Lemma one_interval_stop (c : AppController) :
  one_interval c ->
  one_interval (stopAnalysisProgressPolling c)
  /\ analysisProgressInterval (stopAnalysisProgressPolling c) = None.
Proof.
  intros Hc. unfold stopAnalysisProgressPolling.
  rewrite (one_interval_polling c Hc).
  destruct (analysisProgressInterval c) as [h|] eqn:Hi; [|done].
  rewrite bool_decide_eq_true_2 by eauto.
  destruct Hc as [Hn H]. rewrite Hi in H.
  destruct H as [_ ->]. split; [|done]. unfold one_interval. cbn.
  split; [done|]. rewrite decide_False by (intros Hne; by apply Hne). done.
Qed.

Lemma one_interval_fields (c : AppController) (s : string) (l : list Request) :
  one_interval c ->
  one_interval (mkApp s (analysisProgressInterval c) (intervals c) (nextInterval c) l).
Proof. done. Qed.

Lemma one_interval_navigate (c : AppController) (n : Navigation) :
  one_interval c -> one_interval (navigate c n).
Proof.
  intros Hc. destruct n as [s p| |]; cbn [navigate].
  - unfold showSection. cbv zeta. case_bool_decide.
    + apply one_interval_fields, one_interval_start. by apply one_interval_fields.
    + apply one_interval_stop. by apply one_interval_fields.
  - apply one_interval_start. by apply one_interval_fields.
  - by apply one_interval_stop.
Qed.

(** X16. Whatever the navigation since the controller was created, at most
    one polling interval runs, and it is the one whose handle the controller
    holds; after [showSection(s)] the polling runs exactly when [s] is
    ['analysis']; it runs after [refreshAnalysis()]; no interval is left after
    [cleanup()]; and starting the polling twice is starting it once. *)
Theorem X16_at_most_one_polling_interval (navs : list Navigation) :
  let c := foldl navigate AppController_new navs in
  intervals c = match analysisProgressInterval c with Some h => [h] | None => [] end
  /\ (forall s p, is_Some (analysisProgressInterval (showSection s p c)) <-> s = "analysis")
  /\ is_Some (analysisProgressInterval (refreshAnalysis c))
  /\ analysisProgressInterval (cleanup c) = None
  /\ intervals (cleanup c) = []
  /\ startAnalysisProgressPolling (startAnalysisProgressPolling c)
     = startAnalysisProgressPolling c.
Proof.
  intros c.
  assert (Hc : one_interval c).
  { subst c. induction navs as [|n navs IH] using rev_ind.
    - split; [simpl; lia | done].
    - rewrite foldl_app. simpl. by apply one_interval_navigate. }
  clearbody c. split_and!.
  - destruct Hc as [_ H]. by destruct (analysisProgressInterval c) as [h|]; [destruct H|].
  - intros s p. unfold showSection. cbv zeta.
    set (c1 := mkApp (if p then s else currentSection c) (analysisProgressInterval c)
                     (intervals c) (nextInterval c) (requests c ++ loadSectionData s)).
    assert (Hc1 : one_interval c1) by (by apply one_interval_fields).
    case_bool_decide as Hs.
    + cbn [analysisProgressInterval]. split; [done|]. intros _.
      apply (one_interval_start c1 Hc1).
    + rewrite (proj2 (one_interval_stop c1 Hc1)). split; [by intros [? ?] | done].
  - apply one_interval_start. by apply one_interval_fields.
  - apply (one_interval_stop c Hc).
  - destruct (one_interval_stop c Hc) as [[_ H] Hnone]. unfold cleanup.
    by rewrite Hnone in H.
  - destruct (one_interval_start c Hc) as [Hc' Hsome].
    unfold startAnalysisProgressPolling at 1.
    rewrite (one_interval_polling _ Hc'). by rewrite bool_decide_eq_true_2.
Qed.

Lemma length_taskElements (tasks : QueueData) :
  length (Controller.taskElements tasks)
  = length (default [] (qd_active tasks)) + length (default [] (qd_queued tasks))
    + min 5 (length (default [] (qd_completed tasks))).
Proof.
  unfold Controller.taskElements.
  rewrite !length_app, !length_map, length_slice_last. lia.
Qed.

(** X17. [updateTaskQueue] of the application controller replaces the
    content of the task panel: what an earlier call wrote does not survive,
    and a page without the panel is left alone.  The panel then holds one item
    for each active task, each queued task and each of the last five completed
    tasks of the response, so at most five more items than there are active
    and queued tasks, and its last five items are the last five completed
    tasks, in their order. *)
Theorem X17_updateTaskQueue_replaces_panel (tasks tasks' : QueueData)
    (queueContainer : option (list html)) :
  Controller.updateTaskQueue tasks (Controller.updateTaskQueue tasks' queueContainer)
  = Controller.updateTaskQueue tasks queueContainer
  /\ (Controller.updateTaskQueue tasks queueContainer = None <-> queueContainer = None)
  /\ (forall items, Controller.updateTaskQueue tasks queueContainer = Some items ->
        length items
        = length (default [] (qd_active tasks)) + length (default [] (qd_queued tasks))
          + min 5 (length (default [] (qd_completed tasks)))
        /\ length items <= length (default [] (qd_active tasks))
                           + length (default [] (qd_queued tasks)) + 5
        /\ forall completed older,
             qd_completed tasks = Some (older ++ completed)%list ->
             length completed = 5 ->
             drop (length items - 5) items
             = map (fun t => Controller.createTaskElement t "Completed") completed).
Proof.
  split_and!.
  - by destruct queueContainer.
  - by destruct queueContainer.
  - intros items Hitems. destruct queueContainer as [old|]; [|done].
    injection Hitems as <-. rewrite length_taskElements. split; [done|]. split; [lia|].
    intros completed older Hq Hlen. unfold Controller.taskElements.
    rewrite Hq. cbn [default from_option id]. unfold slice_last.
    rewrite length_app, Hlen.
    replace (length older + 5 - 5) with (length older) by lia.
    rewrite drop_app_length.
    replace (5 `min` (length older + 5)) with 5 by lia.
    rewrite Nat.add_sub, app_assoc.
    apply drop_app_length'. by rewrite length_app, !length_map.
Qed.

Lemma checkProgress_checking (filename : string) (resp : StatusResponse)
    (mo : ProgressMonitor) :
  checking (checkProgress filename resp mo) = checking mo && negb (reports_end resp).
Proof.
  destruct resp as [| |ts]; cbn [checkProgress reports_end negb];
    rewrite ?andb_true_r; try done.
  destruct (finished ts); cbn [checking negb]; by rewrite ?andb_true_r, ?andb_false_r.
Qed.

Lemma foldl_checking (filename : string) (resps : list StatusResponse)
    (mo : ProgressMonitor) :
  checking (foldl (fun mo resp => checkProgress filename resp mo) mo resps)
  = checking mo && forallb (fun resp => negb (reports_end resp)) resps.
Proof.
  revert mo. induction resps as [|resp resps IH]; intros mo; simpl.
  - by rewrite andb_true_r.
  - by rewrite IH, checkProgress_checking, andb_assoc.
Qed.

Lemma foldl_completions (filename : string) (resps : list StatusResponse)
    (mo : ProgressMonitor) :
  completions (foldl (fun mo resp => checkProgress filename resp mo) mo resps)
  = completions mo + length (filter (fun resp => reports_completed resp = true) resps).
Proof.
  revert mo. induction resps as [|resp resps IH]; intros mo; simpl; [lia|].
  rewrite IH, filter_cons. destruct resp as [| |ts]; cbn [checkProgress reports_completed].
  - rewrite decide_False by done. lia.
  - rewrite decide_False by done. lia.
  - unfold finished. case_bool_decide as Hc; cbn [orb completions].
    + rewrite decide_True by done. simpl. lia.
    + rewrite decide_False by done. destruct (bool_decide _); simpl; lia.
Qed.

(** X18. The monitor started after an upload keeps polling exactly as long as
    no answer has reported the status ['completed'] or ['failed']: an answer
    that is missing or not ok changes nothing, so that monitoring never ends
    while the server cannot be reached.  One completion notice is shown for
    each answer that reports ['completed'].  An answer that is ok sets the
    content of the progress notification, which has a progress bar exactly
    when the status reported is ['in_progress']. *)
Theorem X18_monitoring_stops_only_at_an_end (filename : string)
    (resps : list StatusResponse) :
  checking (checks filename resps)
  = forallb (fun resp => negb (reports_end resp)) resps
  /\ completions (checks filename resps)
     = length (filter (fun resp => reports_completed resp = true) resps)
  /\ checks filename (resps ++ [StatusFailed]) = checks filename resps
  /\ checks filename (resps ++ [StatusNotOk]) = checks filename resps
  /\ forall ts,
       progressNotification (checks filename (resps ++ [StatusOk ts]))
       = Some (progressMarkup filename ts)
       /\ (status_or_unknown ts = "in_progress" <->
           Element "div" "progress mt-2" [Element "div" "progress-bar" []]
             ∈ progressMarkup filename ts).
Proof.
  unfold checks. split_and!.
  - by rewrite foldl_checking.
  - by rewrite foldl_completions.
  - by rewrite foldl_app.
  - by rewrite foldl_app.
  - intros ts. rewrite foldl_app. cbn [foldl checkProgress]. split.
    + by destruct (finished ts).
    + unfold progressMarkup. case_bool_decide as Hs; cbn [app].
      * split; [intros _ | done]. apply list_elem_of_further, list_elem_of_here.
      * split; [done|]. intros Hin.
        apply elem_of_cons in Hin as [Hin | Hin]; [discriminate|].
        apply list_elem_of_singleton in Hin. discriminate.
Qed.

Section AgentLogPanel.
Variable toLocaleString : N -> string.

Lemma log_call_agent (st : LogPage) (c : LogCall) (a : AgentId) :
  get (fst (log_call toLocaleString st c)) a
  = if decide (lc_agent c = a)
    then log (lc_time c) (lc_message c) (lc_level c) (get (fst st) a)
    else get (fst st) a.
Proof.
  unfold log_call, log_shown. cbn [fst]. rewrite get_put.
  case_decide; by subst.
Qed.

Lemma log_call_shown (st : LogPage) (c : LogCall) :
  snd (log_call toLocaleString st c)
  = match snd st with
    | None => None
    | Some _ => Some (agentLogMarkup toLocaleString (get (fst (log_call toLocaleString st c)) (lc_agent c)))
    end.
Proof.
  rewrite log_call_agent, decide_True by done.
  unfold log_call, log_shown. cbn [snd].
  by destruct (snd st).
Qed.

Lemma log_calls_agent (cs : list LogCall) (st : LogPage) (a : AgentId) :
  agent_name (get (fst (log_calls toLocaleString st cs)) a) = agent_name (get (fst st) a)
  /\ logs (get (fst (log_calls toLocaleString st cs)) a) = (logs (get (fst st) a) ++ logged a cs)%list.
Proof.
  revert st. induction cs as [|c cs IH]; intros st.
  - cbn. by rewrite app_nil_r.
  - unfold log_calls in *. cbn [foldl].
    destruct (IH (log_call toLocaleString st c)) as [-> ->]. rewrite log_call_agent.
    unfold logged. rewrite filter_cons.
    case_decide as Ha; [|done].
    cbn [log agent_name logs fmap list_fmap]. by rewrite <- app_assoc.
Qed.

Lemma log_calls_present (cs : list LogCall) (st : LogPage) :
  is_Some (snd (log_calls toLocaleString st cs)) <-> is_Some (snd st).
Proof.
  revert st. induction cs as [|c cs IH]; intros st; [done|].
  unfold log_calls in *. cbn [foldl]. rewrite IH, log_call_shown.
  destruct (snd st); [|done]. split; eauto.
Qed.

Lemma logEntryMarkup_name (a b : Agent) :
  agent_name a = agent_name b -> logEntryMarkup toLocaleString a = logEntryMarkup toLocaleString b.
Proof. intros H. unfold logEntryMarkup. by rewrite H. Qed.

Lemma log_calls_snoc_shown (ags : PerAgent Agent) (shown : list html)
    (cs : list LogCall) (c : LogCall) :
  snd (log_calls toLocaleString (ags, Some shown) (cs ++ [c]))
  = Some (logEntryMarkup toLocaleString (get ags (lc_agent c))
            <$> slice_last 10 (logs (get ags (lc_agent c))
                               ++ logged (lc_agent c) (cs ++ [c]))).
Proof.
  unfold log_calls. rewrite foldl_app. cbn [foldl].
  rewrite log_call_shown.
  destruct (proj2 (log_calls_present cs (ags, Some shown))) as [p Hp]; [by eexists|].
  unfold log_calls in Hp. rewrite Hp. f_equal.
  rewrite log_call_agent, decide_True by done.
  destruct (log_calls_agent cs (ags, Some shown) (lc_agent c)) as [Hn Hl].
  unfold log_calls in Hn, Hl. cbn [fst] in Hn, Hl.
  unfold agentLogMarkup. cbn [logs log]. rewrite Hl.
  unfold logged. rewrite filter_app, filter_cons, decide_True by done.
  rewrite filter_nil, fmap_app, app_assoc.
  erewrite logEntryMarkup_name; [reflexivity|]. exact Hn.
Qed.

(** X19. The element [agentLog] is shared by the agents and every call of
    [log(message, level)] overwrites it.  After any sequence of calls on a
    page that has the element, whatever the element showed at first: the log
    of each agent is its earlier log followed by the entries of its own
    calls; the element shows the last ten entries of the agent that logged
    last, under the name of that agent, and nothing of another agent; it
    holds at most ten entries; and when the same agent logs again, the
    element shows what it showed, less its first entry if it held ten,
    followed by the new entry.  A page without the element is left alone. *)
Theorem X19_agent_log_panel_shows_last_caller (ags : PerAgent Agent) (shown : list html)
    (cs : list LogCall) (c : LogCall) :
  (forall a, logs (get (fst (log_calls toLocaleString (ags, Some shown) (cs ++ [c]))) a)
             = (logs (get ags a) ++ logged a (cs ++ [c]))%list)
  /\ snd (log_calls toLocaleString (ags, Some shown) (cs ++ [c]))
     = Some (logEntryMarkup toLocaleString (get ags (lc_agent c))
               <$> slice_last 10 (logs (get ags (lc_agent c))
                                  ++ logged (lc_agent c) (cs ++ [c])))
  /\ (forall p, snd (log_calls toLocaleString (ags, Some shown) (cs ++ [c])) = Some p ->
        length p = min 10 (length (logs (get ags (lc_agent c)))
                           + length (logged (lc_agent c) (cs ++ [c])))
        /\ forall c', lc_agent c' = lc_agent c ->
             snd (log_calls toLocaleString (ags, Some shown) (cs ++ [c; c']))
             = Some (drop (if decide (length p = 10) then 1 else 0) p
                     ++ [logEntryMarkup toLocaleString (get ags (lc_agent c)) (lc_entry c')])%list)
  /\ snd (log_calls toLocaleString (ags, None) (cs ++ [c])) = None.
Proof.
  split_and!.
  - intros a. by destruct (log_calls_agent (cs ++ [c]) (ags, Some shown) a) as [_ ->].
  - apply log_calls_snoc_shown.
  - intros p. rewrite log_calls_snoc_shown. intros [= <-].
    set (l := (logs (get ags (lc_agent c)) ++ logged (lc_agent c) (cs ++ [c]))%list).
    assert (Hlen : length (logEntryMarkup toLocaleString (get ags (lc_agent c)) <$> slice_last 10 l)
                   = min 10 (length l)).
    { rewrite length_fmap, length_slice_last. lia. }
    split; [by rewrite Hlen; unfold l; rewrite length_app|].
    intros c' Hc'.
    replace (cs ++ [c; c'])%list with ((cs ++ [c]) ++ [c'])%list
      by (by rewrite <- app_assoc).
    rewrite log_calls_snoc_shown, Hc'. f_equal.
    unfold logged at 1. rewrite filter_app, filter_cons, decide_True by done.
    rewrite filter_nil, fmap_app, app_assoc. fold (logged (lc_agent c) (cs ++ [c])).
    fold l. cbn [fmap list_fmap]. rewrite Hlen.
    unfold slice_last. rewrite length_app. cbn [length].
    case_decide as H10.
    + replace (length l + 1 - 10) with (length l - 10 + 1) by lia.
      rewrite drop_app_le by lia. rewrite fmap_app, <- fmap_drop, drop_drop.
      by replace (length l - 10 + 1) with (1 + (length l - 10)) by lia.
    + replace (length l + 1 - 10) with 0 by lia.
      replace (length l - 10) with 0 by lia.
      by rewrite !drop_0, fmap_app.
  - destruct (snd (log_calls toLocaleString (ags, None) (cs ++ [c]))) eqn:E; [|done].
    assert (H : is_Some (snd (log_calls toLocaleString (ags, None) (cs ++ [c])))) by (by eexists).
    apply log_calls_present in H. by destruct H.
Qed.

End AgentLogPanel.

(** ** The real-time switch *)

Lemma one_refresh_stop (d : DashboardManager) :
  one_refresh d ->
  one_refresh (stopRealTimeUpdates d) /\ updateInterval (stopRealTimeUpdates d) = None.
Proof.
  intros [Hn H]. unfold stopRealTimeUpdates.
  destruct (updateInterval d) as [h|] eqn:Hi.
  - destruct H as ((Hh & _) & Hr & _).
    destruct h as [|h]; [lia|]. cbn [Nat.eqb negb]. split; [|done].
    split; [done|]. cbn. rewrite Hr, filter_cons, decide_False, filter_nil; [done|].
    intros Hne. by apply Hne.
  - split; [|done]. split; [done|]. by rewrite Hi.
Qed.

Lemma one_refresh_toggle (d : DashboardManager) :
  one_refresh d ->
  one_refresh (toggleRealTimeUpdates d)
  /\ (is_Some (updateInterval (toggleRealTimeUpdates d))
      <-> isRealTimeEnabled (toggleRealTimeUpdates d) = true)
  /\ isRealTimeEnabled (toggleRealTimeUpdates d) = negb (isRealTimeEnabled d)
  /\ nextRefresh (toggleRealTimeUpdates d)
     = (if isRealTimeEnabled d then nextRefresh d else S (nextRefresh d)).
Proof.
  intros [Hn H]. unfold toggleRealTimeUpdates, startRealTimeUpdates, stopRealTimeUpdates.
  cbv zeta. cbn [isRealTimeEnabled updateInterval].
  destruct (isRealTimeEnabled d) eqn:He; cbn [negb].
  - destruct (updateInterval d) as [h|] eqn:Hi.
    + destruct H as ((Hh & _) & Hr & _). destruct h as [|h]; [lia|]. cbn [Nat.eqb negb].
      unfold one_refresh. cbn. rewrite Hr, filter_cons, decide_False, filter_nil
        by (intros Hne; by apply Hne).
      split_and!; try done; try (split; [by intros [? ?] | discriminate]).
    + unfold one_refresh. cbn.
      split_and!; try done; try (split; [by intros [? ?] | discriminate]).
  - assert (Hnone : updateInterval d = None).
    { destruct (updateInterval d) as [h|]; [|done]. destruct H as (_ & _ & H). congruence. }
    rewrite Hnone in H. unfold one_refresh. cbn. rewrite H.
    split_and!; try done; try lia; try (split; [done | by eexists]).
Qed.

(** X20. The real-time switch of the dashboard manager: whatever the
    sequence of toggles and of calls of [destroy()] since the manager was
    created, at most one refresh interval runs, and it is the one whose handle
    the manager holds; none runs while the switch is off; after a toggle an
    interval runs exactly when the switch was off before; none is left after
    [destroy()]; and two toggles in a row leave one interval running if the
    switch was on and none if it was off. *)
Theorem X20_dashboard_refresh_follows_the_switch (sws : list Switch) :
  let d := foldl switch DashboardManager_new sws in
  refreshing d = match updateInterval d with Some h => [h] | None => [] end
  /\ (isRealTimeEnabled d = false -> updateInterval d = None)
  /\ (is_Some (updateInterval (toggleRealTimeUpdates d))
      <-> isRealTimeEnabled d = false)
  /\ refreshing (destroy d) = []
  /\ refreshing (toggleRealTimeUpdates (toggleRealTimeUpdates d))
     = (if isRealTimeEnabled d then [nextRefresh d] else []).
Proof.
  intros d.
  assert (Hd : one_refresh d).
  { subst d. induction sws as [|s sws IH] using rev_ind.
    - split; cbn; [lia|]. split_and!; [lia | lia | done | done].
    - rewrite foldl_app. cbn [foldl]. destruct s; cbn [switch].
      + by apply one_refresh_toggle.
      + by apply one_refresh_stop. }
  clearbody d.
  destruct (one_refresh_toggle d Hd) as (Ht & Hiff & Hneg & Hnext).
  split_and!.
  - destruct Hd as [_ H]. destruct (updateInterval d); [by destruct H as (_ & ? & _) | done].
  - intros He. destruct Hd as [_ H].
    destruct (updateInterval d); [|done]. destruct H as (_ & _ & H). congruence.
  - rewrite Hiff, Hneg. by destruct (isRealTimeEnabled d).
  - destruct (one_refresh_stop d Hd) as [[_ H] Hnone]. unfold destroy.
    by rewrite Hnone in H.
  - destruct (one_refresh_toggle _ Ht) as ([_ H2] & Hiff2 & Hneg2 & Hnext2).
    rewrite Hneg, negb_involutive in Hneg2.
    destruct (isRealTimeEnabled d) eqn:He.
    + assert (Hnone : updateInterval (toggleRealTimeUpdates d) = None).
      { destruct (updateInterval (toggleRealTimeUpdates d)) eqn:Hu; [|done].
        assert (isRealTimeEnabled (toggleRealTimeUpdates d) = true) by (apply Hiff; eauto).
        rewrite Hneg in *. done. }
      destruct Ht as [_ Ht]. rewrite Hnone in Ht.
      unfold toggleRealTimeUpdates at 1. cbv zeta. cbn [isRealTimeEnabled].
      rewrite Hneg. cbn [negb]. unfold startRealTimeUpdates. cbn.
      by rewrite Ht, Hnext.
    + destruct (updateInterval (toggleRealTimeUpdates (toggleRealTimeUpdates d))) eqn:Hu;
        [|done].
      assert (isRealTimeEnabled (toggleRealTimeUpdates (toggleRealTimeUpdates d)) = true)
        by (apply Hiff2; eauto).
      congruence.
Qed.
